(** * The debugger Bridge, the GraphQL outline and the Tizen device bridge
      of nuclide, embedded in Rocq

    Sources embedded here:
    - [pkg/nuclide-debugger/lib/Bridge.js] (class [Bridge]);
    - [pkg/nuclide-graphql-language-service/lib/interfaces/getOutline.js];
    - [pkg/nuclide-adb-sdb-rpc/lib/Sdb.js] (class [Sdb]).

    JavaScript values are embedded as a tree type [JsValue]; a method of the
    Bridge is a function from the Bridge's state to a completion (normal or
    abrupt) together with the state it leaves behind. *)

From Stdlib Require Import ZArith List String Ascii Bool Lia.
Import ListNotations.

Set Warnings "-register-all".

Open Scope string_scope.
Open Scope list_scope.
Open Scope Z_scope.

(** ** JavaScript values *)

Module Js.

(** Numbers are the mathematical integers; [NaN] never is stored in a value
    (the only producer, [parseInt], returns an [option]).  An object is the
    list of its own properties in insertion order. *)
Inductive JsValue : Type :=
| JsUndefined
| JsNull
| JsBool (b : bool)
| JsNumber (n : Z)
| JsString (s : string)
| JsArray (items : list JsValue)
| JsObject (props : list (string * JsValue)).

Inductive JsError : Type :=
| TypeError
| Thrown (v : JsValue).

(** Induction on a value, with the hypothesis for every element of an array
    and every property of an object. *)
Section JsValueInduction.

Variable P : JsValue -> Prop.
Hypothesis P_undefined : P JsUndefined.
Hypothesis P_null : P JsNull.
Hypothesis P_bool : forall b, P (JsBool b).
Hypothesis P_number : forall n, P (JsNumber n).
Hypothesis P_string : forall s, P (JsString s).
Hypothesis P_array : forall items, Forall P items -> P (JsArray items).
Hypothesis P_object :
  forall props, Forall (fun kv => P (snd kv)) props -> P (JsObject props).

Fixpoint JsValue_nested_ind (v : JsValue) : P v :=
  match v with
  | JsUndefined => P_undefined
  | JsNull => P_null
  | JsBool b => P_bool b
  | JsNumber n => P_number n
  | JsString s => P_string s
  | JsArray items =>
      P_array items
        ((fix all (l : list JsValue) : Forall P l :=
            match l with
            | [] => Forall_nil P
            | item :: rest =>
                Forall_cons item (JsValue_nested_ind item) (all rest)
            end) items)
  | JsObject props =>
      P_object props
        ((fix all (l : list (string * JsValue))
            : Forall (fun kv => P (snd kv)) l :=
            match l with
            | [] => Forall_nil _
            | kv :: rest =>
                Forall_cons kv (JsValue_nested_ind (snd kv)) (all rest)
            end) props)
  end.

End JsValueInduction.

(** [v == null], [v != null]. *)
Definition nullish (v : JsValue) : bool :=
  match v with
  | JsUndefined | JsNull => true
  | _ => false
  end.

(** [v === "lit"], as the cases of a [switch] over string literals use it. *)
Definition strictEqString (v : JsValue) (lit : string) : bool :=
  match v with
  | JsString s => String.eqb s lit
  | _ => false
  end.

(** [v === true]. *)
Definition strictEqTrue (v : JsValue) : bool :=
  match v with
  | JsBool true => true
  | _ => false
  end.

Fixpoint lookup (k : string) (props : list (string * JsValue)) : JsValue :=
  match props with
  | [] => JsUndefined
  | (k', v) :: rest => if String.eqb k k' then v else lookup k rest
  end.

(** [v.k]: a [TypeError] on [undefined] and [null], the own property of an
    object, [undefined] where the property is missing.  None of the property
    names read by the Bridge or by the outline is a built-in of an object, a
    string, an array or another primitive, so on these a missing property
    answers [undefined]. *)
Definition getProp (v : JsValue) (k : string) : JsError + JsValue :=
  match v with
  | JsUndefined | JsNull => inl TypeError
  | JsObject props => inr (lookup k props)
  | _ => inr JsUndefined
  end.

(** [args[i]] on an array. *)
Definition index (args : list JsValue) (i : nat) : JsValue :=
  nth i args JsUndefined.

(** *** [parseInt(s, 10)]

    A string is a list of code units below 256.  [parseInt] skips leading
    white space, reads an optional sign and then the longest run of decimal
    digits; with no digit the result is [NaN] (here [None]).  The result is
    the exact integer: JavaScript rounds it to a double, which is the same
    number below [2^53]. *)
Definition isStrWhiteSpaceChar (c : ascii) : bool :=
  match nat_of_ascii c with
  | 9%nat | 10%nat | 11%nat | 12%nat | 13%nat | 32%nat | 160%nat => true
  | _ => false
  end.

Definition digitOf (c : ascii) : option Z :=
  let n := Z.of_nat (nat_of_ascii c) in
  if (48 <=? n) && (n <=? 57) then Some (n - 48) else None.

Fixpoint skipWhiteSpace (s : string) : string :=
  match s with
  | String c rest => if isStrWhiteSpaceChar c then skipWhiteSpace rest else s
  | EmptyString => s
  end.

(** The value of the longest prefix of digits, [None] when it is empty. *)
Fixpoint digitsPrefix (acc : option Z) (s : string) : option Z :=
  match s with
  | String c rest =>
      match digitOf c with
      | Some d =>
          digitsPrefix (Some (10 * match acc with Some a => a | None => 0 end + d)) rest
      | None => acc
      end
  | EmptyString => acc
  end.

Definition parseInt10 (s : string) : option Z :=
  let t := skipWhiteSpace s in
  match t with
  | String "-" rest => option_map Z.opp (digitsPrefix None rest)
  | String "+" rest => digitsPrefix None rest
  | _ => digitsPrefix None t
  end.

End Js.
Export Js.

(** ** Completions: state and exceptions

    A method runs on a state [S] and completes normally with a value or
    abruptly with a thrown error; the mutations made before a throw stay. *)

Module Eff.

Inductive Completion (S A : Type) : Type :=
| Normal (a : A) (s : S)
| Abrupt (e : JsError) (s : S).
Arguments Normal {S A} a s.
Arguments Abrupt {S A} e s.

Definition Eff (S A : Type) : Type := S -> Completion S A.

Definition stateOf {S A} (c : Completion S A) : S :=
  match c with
  | Normal _ s => s
  | Abrupt _ s => s
  end.

Definition isAbrupt {S A} (c : Completion S A) : bool :=
  match c with
  | Normal _ _ => false
  | Abrupt _ _ => true
  end.

Definition ret {S A} (a : A) : Eff S A := fun s => Normal a s.

Definition throw {S A} (e : JsError) : Eff S A := fun s => Abrupt e s.

Definition bind {S A B} (m : Eff S A) (k : A -> Eff S B) : Eff S B :=
  fun s =>
    match m s with
    | Normal a s' => k a s'
    | Abrupt e s' => Abrupt e s'
    end.

Definition get {S} : Eff S S := fun s => Normal s s.

Definition modify {S} (f : S -> S) : Eff S unit := fun s => Normal tt (f s).

(** A value that evaluates with a possible [TypeError]. *)
Definition lift {S A} (r : JsError + A) : Eff S A :=
  match r with
  | inl e => throw e
  | inr a => ret a
  end.

(** [try { body } finally { fin }]: [fin] runs on both exits of [body]; an
    abrupt [fin] wins, else the completion of [body] stands. *)
Definition tryFinally {S A} (body : Eff S A) (fin : Eff S unit) : Eff S A :=
  fun s =>
    match body s with
    | Normal a s1 =>
        match fin s1 with
        | Normal _ s2 => Normal a s2
        | Abrupt e s2 => Abrupt e s2
        end
    | Abrupt e s1 =>
        match fin s1 with
        | Normal _ s2 => Abrupt e s2
        | Abrupt e' s2 => Abrupt e' s2
        end
    end.

(** [xs.forEach(f)]. *)
Fixpoint forEach {S A} (f : A -> Eff S unit) (xs : list A) : Eff S unit :=
  match xs with
  | [] => ret tt
  | x :: rest => bind (f x) (fun _ => forEach f rest)
  end.

Declare Scope eff_scope.
Delimit Scope eff_scope with eff.
Notation "x <- m ;; k" := (bind m (fun x => k))
  (at level 61, m at next level, right associativity) : eff_scope.
Notation "m ;; k" := (bind m (fun _ => k))
  (at level 61, right associativity) : eff_scope.

End Eff.
Export Eff.
Open Scope eff_scope.

(** ** The Bridge: data *)

(** The envelope of the transport, [{channel, args}]: an inbound event of the
    webview and an outbound command handed to [CommandDispatcher.send]
    (its first argument is the channel). *)
Record Message : Type := {
  channel : string;
  args : list JsValue;
}.

(** A breakpoint of the breakpoint store, with the fields the Bridge reads
    ([path], [line], [condition], [enabled]) and the resolution state. *)
Record FileLineBreakpoint : Type := {
  path : string;
  line : Z;
  condition : string;
  enabled : bool;
  resolved : bool;
}.

(** [BreakpointUserChangeArgType]: what the store hands to the listeners of
    [onUserChange]. *)
Record BreakpointUserChangeArgType : Type := {
  action : string;
  breakpoint : FileLineBreakpoint;
}.

(** Modelled from the spec: [DebuggerMode] of [DebuggerStore], which is not
    among the embedded sources; "enum {RUNNING, PAUSED, STOPPED, ...}", the
    open end kept as [OtherMode]. *)
Inductive DebuggerMode : Type :=
| RUNNING
| PAUSED
| STOPPED
| OtherMode (name : string).

(** The calls the Bridge makes on the mutators of the model
    ([getActions().f(...)], and [getStore().loaderBreakpointResumed()]), with
    the arguments as the Bridge passes them: payload fields are passed on
    unchecked, so they are [JsValue]s. *)
Inductive ModelCall : Type :=
| updateSelectedThread (threadNo : Z)
| receiveExpressionEvaluationResponse (id response : JsValue)
| receiveGetPropertiesResponse (id response : JsValue)
| updateCallstack (callstack : JsValue)
| updateScopes (scopeSections : JsValue)
| setDebuggerMode (mode : DebuggerMode)
| loaderBreakpointResumed
| clearInterface
| setSelectedCallFrameLine (options : JsValue)
| openSourceLocation (sourceURL lineNumber : JsValue)
| notifyThreadSwitch (sourceURL lineNumber message : JsValue)
| bindBreakpointIPC (path : string) (lineNumber condition enabled : JsValue)
    (resolved : bool)
| deleteBreakpointIPC (path : string) (lineNumber : JsValue)
| updateThreads (threadData : JsValue)
| updateThread (thread : JsValue)
| updateStopThread (id : JsValue).

(** What a call on the model does: the model it leaves, the user changes
    the breakpoint store delivered to its [onUserChange] listeners while the
    call ran, and the error the call threw, if any. *)
Record CallResult (Model : Type) : Type := {
  newModel : Model;
  emitted : list BreakpointUserChangeArgType;
  raised : option JsError;
}.
Arguments newModel {Model} _.
Arguments emitted {Model} _.
Arguments raised {Model} _.

(** [DebuggerModel] (with its store, breakpoint store and actions) is not
    part of the embedded sources: the Bridge is verified against every
    implementation of the interface it consumes. *)
Class DebuggerModel (Model : Type) : Type := {
  (** [getStore().getSettings().getSerializedData()] *)
  getSerializedData : Model -> JsValue;
  (** [getStore().getTogglePauseOnException()] and its siblings *)
  getTogglePauseOnException : Model -> bool;
  getTogglePauseOnCaughtException : Model -> bool;
  getEnableSingleThreadStepping : Model -> bool;
  (** [getBreakpointStore().getAllBreakpoints()], in iteration order *)
  getAllBreakpoints : Model -> list FileLineBreakpoint;
  (** the mutators *)
  perform : ModelCall -> Model -> CallResult Model;
}.

(** The [webview] element of the host, as far as the Bridge acts on it. *)
Record WebviewElement : Type := {
  src : string;
  devToolsOpened : bool;
}.

(** The state of a [Bridge] object and of the collaborators it owns.
    [_commandDispatcher] is the dispatcher seen from the Bridge: the commands
    passed to [send], oldest first.  [modelCalls] records the calls made on
    the mutators of [_debuggerModel], oldest first. *)
Record Bridge (Model : Type) : Type := {
  _debuggerModel : Model;
  modelCalls : list ModelCall;
  _webview : option WebviewElement;
  _commandDispatcher : list Message;
  _suppressBreakpointSync : bool;
}.
Arguments _debuggerModel {Model} _.
Arguments modelCalls {Model} _.
Arguments _webview {Model} _.
Arguments _commandDispatcher {Model} _.
Arguments _suppressBreakpointSync {Model} _.

(** ** The Bridge: methods *)

Section BridgeMethods.

Context {Model : Type} `{DebuggerModel Model}.

(** [nuclide-commons/nuclideUri], which is not among the embedded sources:
    [uriToNuclideUri] answers a path or [null] for the [sourceURL] of a
    payload, or throws (the payload is passed on unchecked, and the
    function takes a string apart); [nuclideUriToUri] turns the path of a
    breakpoint of the store into a URL. *)
Variable uriToNuclideUri : JsValue -> JsError + option string.
Variable nuclideUriToUri : string -> string.

(** [atom.config.get('nuclide.nuclide-debugger.openDevToolsOnDebuggerStart')],
    as the condition of an [if]. *)
Variable openDevToolsOnDebuggerStart : bool.

Local Abbreviation M := (Eff (Bridge Model)).

Definition constructor (debuggerModel : Model) : Bridge Model :=
  {| _debuggerModel := debuggerModel;
     modelCalls := [];
     _webview := None;
     _commandDispatcher := [];
     _suppressBreakpointSync := false |}.

(** Modelled from the spec: [CommandDispatcher] is not among the embedded
    sources.  "[send(channel, ...args)]: serializes {channel, args} and
    writes to the transport.  No acknowledgement, no retry —
    fire-and-forget."  The Bridge's side of it is kept: the command handed
    to [this._commandDispatcher.send], and [send] returning. *)
Definition send (ch : string) (a : list JsValue) : M unit :=
  modify (fun s =>
    {| _debuggerModel := _debuggerModel s;
       modelCalls := modelCalls s;
       _webview := _webview s;
       _commandDispatcher := _commandDispatcher s ++ [{| channel := ch; args := a |}];
       _suppressBreakpointSync := _suppressBreakpointSync s |}).

(** [this._suppressBreakpointSync = b] *)
Definition setSuppressBreakpointSync (b : bool) : M unit :=
  modify (fun s =>
    {| _debuggerModel := _debuggerModel s;
       modelCalls := modelCalls s;
       _webview := _webview s;
       _commandDispatcher := _commandDispatcher s;
       _suppressBreakpointSync := b |}).

(** The object literal [{sourceURL, lineNumber, condition, enabled}] built
    from a breakpoint of the store. *)
Definition ipcBreakpoint (bp : FileLineBreakpoint) : JsValue :=
  JsObject
    [ ("sourceURL", JsString (nuclideUriToUri (path bp)));
      ("lineNumber", JsNumber (line bp));
      ("condition", JsString (condition bp));
      ("enabled", JsBool (enabled bp)) ].

Definition _handleUserBreakpointChange (params : BreakpointUserChangeArgType)
  : M unit :=
  send (action params) [ipcBreakpoint (breakpoint params)].

(** A call [c] on the model: the call is recorded, the model becomes what
    the call leaves, the user changes the store emits during the call reach
    the listener the constructor subscribed ([_handleUserBreakpointChange]),
    and the call returns or throws. *)
Definition callModel (c : ModelCall) : M unit :=
  s <- get ;;
  let r := perform c (_debuggerModel s) in
  modify (fun s =>
    {| _debuggerModel := newModel r;
       modelCalls := modelCalls s ++ [c];
       _webview := _webview s;
       _commandDispatcher := _commandDispatcher s;
       _suppressBreakpointSync := _suppressBreakpointSync s |}) ;;
  forEach _handleUserBreakpointChange (emitted r) ;;
  match raised r with
  | Some e => throw e
  | None => ret tt
  end.

Definition continue : M unit := send "Continue" [].
Definition stepOver : M unit := send "StepOver" [].
Definition stepInto : M unit := send "StepInto" [].
Definition stepOut : M unit := send "StepOut" [].

Definition runToLocation (filePath : string) (line : Z) : M unit :=
  send "RunToLocation" [JsString filePath; JsNumber line].

Definition triggerAction (actionId : string) : M unit :=
  send "triggerDebuggerAction" [JsString actionId].

Definition setSelectedCallFrameIndex (callFrameIndex : Z) : M unit :=
  send "setSelectedCallFrameIndex" [JsNumber callFrameIndex].

Definition setPauseOnException (pauseOnExceptionEnabled : bool) : M unit :=
  send "setPauseOnException" [JsBool pauseOnExceptionEnabled].

Definition setPauseOnCaughtException (pauseOnCaughtExceptionEnabled : bool)
  : M unit :=
  send "setPauseOnCaughtException" [JsBool pauseOnCaughtExceptionEnabled].

Definition setSingleThreadStepping (singleThreadStepping : bool) : M unit :=
  send "setSingleThreadStepping" [JsBool singleThreadStepping].

Definition selectThread (threadId : string) : M unit :=
  send "selectThread" [JsString threadId] ;;
  match parseInt10 threadId with
  | Some threadNo => callModel (updateSelectedThread threadNo)
  | None => ret tt
  end.

Definition sendEvaluationCommand (command : string) (evalId : Z)
  (rest : list JsValue) : M unit :=
  send command (JsNumber evalId :: rest).

Definition _handleExpressionEvaluationResponse (response : JsValue) : M unit :=
  id <- lift (getProp response "id") ;;
  callModel (receiveExpressionEvaluationResponse id response).

Definition _handleGetPropertiesResponse (response : JsValue) : M unit :=
  id <- lift (getProp response "id") ;;
  callModel (receiveGetPropertiesResponse id response).

Definition _handleCallstackUpdate (callstack : JsValue) : M unit :=
  callModel (updateCallstack callstack).

Definition _handleScopesUpdate (scopeSections : JsValue) : M unit :=
  callModel (updateScopes scopeSections).

Definition openDevTools : M unit :=
  s <- get ;;
  match _webview s with
  | None => ret tt
  | Some webview =>
      modify (fun s =>
        {| _debuggerModel := _debuggerModel s;
           modelCalls := modelCalls s;
           _webview := Some {| src := src webview; devToolsOpened := true |};
           _commandDispatcher := _commandDispatcher s;
           _suppressBreakpointSync := _suppressBreakpointSync s |})
  end.

Definition _updateDebuggerSettings : M unit :=
  s <- get ;;
  send "UpdateSettings" [getSerializedData (_debuggerModel s)].

Definition _syncDebuggerState : M unit :=
  s <- get ;;
  let store := _debuggerModel s in
  setPauseOnException (getTogglePauseOnException store) ;;
  setPauseOnCaughtException (getTogglePauseOnCaughtException store) ;;
  setSingleThreadStepping (getEnableSingleThreadStepping store).

Definition _handleStopThreadUpdate (id : JsValue) : M unit :=
  callModel (updateStopThread id).

Definition _handleStopThreadSwitch (options : JsValue) : M unit :=
  if nullish options then ret tt
  else
    sourceURL <- lift (getProp options "sourceURL") ;;
    lineNumber <- lift (getProp options "lineNumber") ;;
    message <- lift (getProp options "message") ;;
    callModel (notifyThreadSwitch sourceURL lineNumber message).

Definition _handleDebuggerPaused (options : JsValue) : M unit :=
  callModel (setDebuggerMode PAUSED) ;;
  if negb (nullish options) then
    stopThreadId <- lift (getProp options "stopThreadId") ;;
    (if negb (nullish stopThreadId)
     then _handleStopThreadUpdate stopThreadId
     else ret tt) ;;
    threadSwitchNotification <- lift (getProp options "threadSwitchNotification") ;;
    _handleStopThreadSwitch threadSwitchNotification
  else ret tt.

Definition _handleDebuggerResumed : M unit :=
  callModel (setDebuggerMode RUNNING).

Definition _handleLoaderBreakpointResumed : M unit :=
  callModel loaderBreakpointResumed.

Definition _handleClearInterface : M unit :=
  callModel clearInterface.

Definition _setSelectedCallFrameLine (options : JsValue) : M unit :=
  callModel (setSelectedCallFrameLine options).

Definition _openSourceLocation (options : JsValue) : M unit :=
  if nullish options then ret tt
  else
    sourceURL <- lift (getProp options "sourceURL") ;;
    lineNumber <- lift (getProp options "lineNumber") ;;
    callModel (openSourceLocation sourceURL lineNumber).

(** [if (path)] on the result of [uriToNuclideUri]: [null] and the empty
    string are falsy. *)
Definition truthyPath (p : option string) : option string :=
  match p with
  | Some EmptyString => None
  | Some q => Some q
  | None => None
  end.

Definition _bindBreakpoint (breakpoint : JsValue) (resolved : bool) : M unit :=
  sourceURL <- lift (getProp breakpoint "sourceURL") ;;
  lineNumber <- lift (getProp breakpoint "lineNumber") ;;
  condition <- lift (getProp breakpoint "condition") ;;
  enabled <- lift (getProp breakpoint "enabled") ;;
  path <- lift (uriToNuclideUri sourceURL) ;;
  match truthyPath path with
  | Some path =>
      tryFinally
        (setSuppressBreakpointSync true ;;
         callModel (bindBreakpointIPC path lineNumber condition enabled resolved))
        (setSuppressBreakpointSync false)
  | None => ret tt
  end.

Definition _removeBreakpoint (breakpoint : JsValue) : M unit :=
  sourceURL <- lift (getProp breakpoint "sourceURL") ;;
  lineNumber <- lift (getProp breakpoint "lineNumber") ;;
  path <- lift (uriToNuclideUri sourceURL) ;;
  match truthyPath path with
  | Some path =>
      tryFinally
        (setSuppressBreakpointSync true ;;
         callModel (deleteBreakpointIPC path lineNumber))
        (setSuppressBreakpointSync false)
  | None => ret tt
  end.

Definition _handleThreadsUpdate (threadData : JsValue) : M unit :=
  callModel (updateThreads threadData).

Definition _handleThreadUpdate (thread : JsValue) : M unit :=
  callModel (updateThread thread).

Definition _sendAllBreakpoints : M unit :=
  s <- get ;;
  if negb (_suppressBreakpointSync s) then
    let results := map ipcBreakpoint (getAllBreakpoints (_debuggerModel s)) in
    send "SyncBreakpoints" [JsArray results]
  else ret tt.

Definition _handleIpcMessage (event : Message) : M unit :=
  if String.eqb (channel event) "notification" then
    let name := index (args event) 0 in
    let payload := index (args event) 1 in
    if strictEqString name "ready" then
      (if openDevToolsOnDebuggerStart then openDevTools else ret tt) ;;
      _updateDebuggerSettings ;;
      _sendAllBreakpoints ;;
      _syncDebuggerState
    else if strictEqString name "CallFrameSelected" then
      _setSelectedCallFrameLine payload
    else if strictEqString name "OpenSourceLocation" then
      _openSourceLocation payload
    else if strictEqString name "ClearInterface" then
      _handleClearInterface
    else if strictEqString name "DebuggerResumed" then
      _handleDebuggerResumed
    else if strictEqString name "LoaderBreakpointResumed" then
      _handleLoaderBreakpointResumed
    else if strictEqString name "BreakpointAdded" then
      resolved <- lift (getProp payload "resolved") ;;
      _bindBreakpoint payload (strictEqTrue resolved)
    else if strictEqString name "BreakpointRemoved" then
      _removeBreakpoint payload
    else if strictEqString name "NonLoaderDebuggerPaused" then
      _handleDebuggerPaused payload
    else if strictEqString name "ExpressionEvaluationResponse" then
      _handleExpressionEvaluationResponse payload
    else if strictEqString name "GetPropertiesResponse" then
      _handleGetPropertiesResponse payload
    else if strictEqString name "CallstackUpdate" then
      _handleCallstackUpdate payload
    else if strictEqString name "ScopesUpdate" then
      _handleScopesUpdate payload
    else if strictEqString name "ThreadsUpdate" then
      _handleThreadsUpdate payload
    else if strictEqString name "ThreadUpdate" then
      _handleThreadUpdate payload
    else ret tt
  else ret tt.

(** *** The life of a Bridge

    What happens to a Bridge between its construction and a given moment:
    its public methods are called, the webview delivers [ipc-message]
    events, the breakpoint store reports user changes, and the surroundings
    change the model and attach or detach the webview
    ([renderChromeWebview], [cleanup], [dispose]).  Handlers run to their
    end one at a time, so these are the states a handler starts in. *)
Inductive Operation : Type :=
| op_continue
| op_stepOver
| op_stepInto
| op_stepOut
| op_runToLocation (filePath : string) (line : Z)
| op_triggerAction (actionId : string)
| op_setSelectedCallFrameIndex (callFrameIndex : Z)
| op_setPauseOnException (b : bool)
| op_setPauseOnCaughtException (b : bool)
| op_setSingleThreadStepping (b : bool)
| op_selectThread (threadId : string)
| op_sendEvaluationCommand (command : string) (evalId : Z) (rest : list JsValue)
| op_openDevTools
| op_ipcMessage (event : Message)
| op_userBreakpointChange (params : BreakpointUserChangeArgType).

Definition run (op : Operation) : M unit :=
  match op with
  | op_continue => continue
  | op_stepOver => stepOver
  | op_stepInto => stepInto
  | op_stepOut => stepOut
  | op_runToLocation f l => runToLocation f l
  | op_triggerAction a => triggerAction a
  | op_setSelectedCallFrameIndex i => setSelectedCallFrameIndex i
  | op_setPauseOnException b => setPauseOnException b
  | op_setPauseOnCaughtException b => setPauseOnCaughtException b
  | op_setSingleThreadStepping b => setSingleThreadStepping b
  | op_selectThread t => selectThread t
  | op_sendEvaluationCommand c i r => sendEvaluationCommand c i r
  | op_openDevTools => openDevTools
  | op_ipcMessage e => _handleIpcMessage e
  | op_userBreakpointChange p => _handleUserBreakpointChange p
  end.

Inductive reachable : Bridge Model -> Prop :=
| reachable_new (debuggerModel : Model) :
    reachable (constructor debuggerModel)
| reachable_run (s : Bridge Model) (op : Operation) :
    reachable s -> reachable (stateOf (run op s))
| reachable_surroundings (s : Bridge Model) (m : Model)
    (w : option WebviewElement) :
    reachable s ->
    reachable
      {| _debuggerModel := m;
         modelCalls := modelCalls s;
         _webview := w;
         _commandDispatcher := _commandDispatcher s;
         _suppressBreakpointSync := _suppressBreakpointSync s |}.

End BridgeMethods.

(** ** Models to run the Bridge on *)

(** Modelled from the spec: the part of [DebuggerModel] (not among the
    embedded sources) that the properties below read.  "DebuggerMode ...
    owned by the model"; "selectThread ... updates the model's
    selected-thread field"; "update selected-stop-thread"; a thread-switch
    notification is "surface[d] as a non-fatal informational notice";
    a breakpoint is "uniquely identified by (sourcePath, line)" and its
    "resolution state is set only by the engine's acknowledgement".  The
    mutators of the other parts of the model (snapshots, evaluation
    responses, navigation) leave these fields alone, and no call throws or
    reports a user change. *)
Record RefModel : Type := {
  debuggerMode : DebuggerMode;
  selectedThread : option Z;
  selectedStopThread : JsValue;
  threadSwitchNotices : list (JsValue * JsValue * JsValue);
  breakpoints : list FileLineBreakpoint;
  settings : JsValue;
  togglePauseOnException : bool;
  togglePauseOnCaughtException : bool;
  enableSingleThreadStepping : bool;
}.

Definition sameLocation (p : string) (l : Z) (bp : FileLineBreakpoint) : bool :=
  String.eqb (path bp) p && (line bp =? l).

Definition refPerform (c : ModelCall) (m : RefModel) : RefModel :=
  let withBreakpoints bps :=
    {| debuggerMode := debuggerMode m;
       selectedThread := selectedThread m;
       selectedStopThread := selectedStopThread m;
       threadSwitchNotices := threadSwitchNotices m;
       breakpoints := bps;
       settings := settings m;
       togglePauseOnException := togglePauseOnException m;
       togglePauseOnCaughtException := togglePauseOnCaughtException m;
       enableSingleThreadStepping := enableSingleThreadStepping m |} in
  match c with
  | setDebuggerMode mode =>
      {| debuggerMode := mode;
         selectedThread := selectedThread m;
         selectedStopThread := selectedStopThread m;
         threadSwitchNotices := threadSwitchNotices m;
         breakpoints := breakpoints m;
         settings := settings m;
         togglePauseOnException := togglePauseOnException m;
         togglePauseOnCaughtException := togglePauseOnCaughtException m;
         enableSingleThreadStepping := enableSingleThreadStepping m |}
  | updateSelectedThread threadNo =>
      {| debuggerMode := debuggerMode m;
         selectedThread := Some threadNo;
         selectedStopThread := selectedStopThread m;
         threadSwitchNotices := threadSwitchNotices m;
         breakpoints := breakpoints m;
         settings := settings m;
         togglePauseOnException := togglePauseOnException m;
         togglePauseOnCaughtException := togglePauseOnCaughtException m;
         enableSingleThreadStepping := enableSingleThreadStepping m |}
  | updateStopThread id =>
      {| debuggerMode := debuggerMode m;
         selectedThread := selectedThread m;
         selectedStopThread := id;
         threadSwitchNotices := threadSwitchNotices m;
         breakpoints := breakpoints m;
         settings := settings m;
         togglePauseOnException := togglePauseOnException m;
         togglePauseOnCaughtException := togglePauseOnCaughtException m;
         enableSingleThreadStepping := enableSingleThreadStepping m |}
  | notifyThreadSwitch sourceURL lineNumber message =>
      {| debuggerMode := debuggerMode m;
         selectedThread := selectedThread m;
         selectedStopThread := selectedStopThread m;
         threadSwitchNotices :=
           threadSwitchNotices m ++ [(sourceURL, lineNumber, message)];
         breakpoints := breakpoints m;
         settings := settings m;
         togglePauseOnException := togglePauseOnException m;
         togglePauseOnCaughtException := togglePauseOnCaughtException m;
         enableSingleThreadStepping := enableSingleThreadStepping m |}
  | bindBreakpointIPC p (JsNumber l) cond (JsBool en) res =>
      withBreakpoints
        (filter (fun bp => negb (sameLocation p l bp)) (breakpoints m)
         ++ [{| path := p;
                line := l;
                condition := match cond with JsString c => c | _ => "" end;
                enabled := en;
                resolved := res |}])%list
  | deleteBreakpointIPC p (JsNumber l) =>
      withBreakpoints
        (filter (fun bp => negb (sameLocation p l bp)) (breakpoints m))
  | _ => m
  end.

#[export] Instance RefModel_DebuggerModel : DebuggerModel RefModel := {|
  getSerializedData := settings;
  getTogglePauseOnException := togglePauseOnException;
  getTogglePauseOnCaughtException := togglePauseOnCaughtException;
  getEnableSingleThreadStepping := enableSingleThreadStepping;
  getAllBreakpoints := breakpoints;
  perform c m := {| newModel := refPerform c m; emitted := []; raised := None |};
|}.

(** A model whose breakpoint mutators misbehave: [bindBreakpointIPC] and
    [deleteBreakpointIPC] report the change to the [onUserChange] listeners
    as if the user had made it, and then throw.  The state counts the calls
    it has seen. *)
Definition echoedBreakpoint (p : string) (lineNumber : JsValue)
  : FileLineBreakpoint :=
  {| path := p;
     line := match lineNumber with JsNumber l => l | _ => 0 end;
     condition := "";
     enabled := true;
     resolved := false |}.

Definition faultyPerform (c : ModelCall) (m : nat) : CallResult nat :=
  match c with
  | bindBreakpointIPC p l _ _ _ =>
      {| newModel := S m;
         emitted := [{| action := "AddBreakpoint"; breakpoint := echoedBreakpoint p l |}];
         raised := Some (Thrown (JsString "bindBreakpointIPC failed")) |}
  | deleteBreakpointIPC p l =>
      {| newModel := S m;
         emitted := [{| action := "DeleteBreakpoint"; breakpoint := echoedBreakpoint p l |}];
         raised := Some (Thrown (JsString "deleteBreakpointIPC failed")) |}
  | _ => {| newModel := S m; emitted := []; raised := None |}
  end.

Definition FaultyModel : DebuggerModel nat := {|
  getSerializedData := fun _ => JsObject [];
  getTogglePauseOnException := fun _ => false;
  getTogglePauseOnCaughtException := fun _ => false;
  getEnableSingleThreadStepping := fun _ => false;
  getAllBreakpoints := fun _ => [];
  perform := faultyPerform;
|}.

(** [nuclide-commons/nuclideUri] is not among the embedded sources, and the
    Bridge is verified against every resolver.  To run it, the three
    functions the sources call are given as nuclide-commons has them, for
    URLs without host, query, fragment and escapes.  A NuclideUri is a local
    path or a remote URI [nuclide://host/path]: [isRemote], which
    [Sdb.installPackage] asks of a package path, tells them apart.
    [uriToNuclideUri(uri)] answers the path of a [file:] URL, a remote URI as
    it is and [null] for any other URL; it takes its argument apart as a
    string, and throws a [TypeError] on anything else.
    [nuclideUriToUri(uri)] leaves a remote URI as it is and puts [file://]
    before a local path. *)
Module NuclideUri.

Definition isRemote (uri : string) : bool := String.prefix "nuclide://" uri.

Definition uriToNuclideUri (uri : JsValue) : JsError + option string :=
  match uri with
  | JsString u =>
      if String.prefix "file://" u
         && negb (String.eqb (String.substring 7 (String.length u - 7) u) "")
      then inr (Some (String.substring 7 (String.length u - 7) u))
      else if isRemote u then inr (Some u)
      else inr None
  | _ => inl TypeError
  end.

Definition nuclideUriToUri (uri : string) : string :=
  if isRemote uri then uri else ("file://" ++ uri)%string.

End NuclideUri.


(** ** The GraphQL outline ([getOutline.js]) *)

Module Outline.

(** A pure computation that returns or throws. *)
Definition Result (A : Type) : Type := (JsError + A)%type.

Definition bindR {A B} (m : Result A) (k : A -> Result B) : Result B :=
  match m with
  | inl e => inl e
  | inr a => k a
  end.

Notation "'let*' x ':=' m 'in' k" := (bindR m (fun x => k))
  (at level 10, x name, m at level 100, k at level 200, only parsing).

(** The condition of [c ? a : b] and the left operand of [a || b]. *)
Definition truthy (v : JsValue) : bool :=
  match v with
  | JsUndefined | JsNull | JsBool false => false
  | JsNumber n => negb (n =? 0)
  | JsString s => negb (String.eqb s "")
  | _ => true
  end.

Definition OUTLINEABLE_KINDS (kind : string) : bool :=
  existsb (String.eqb kind)
    [ "Field"; "OperationDefinition"; "Document"; "SelectionSet"; "Name";
      "FragmentDefinition"; "FragmentSpread"; "InlineFragment" ].

(** [graphql/language/kinds] *)
Definition INLINE_FRAGMENT : string := "InlineFragment".

Definition buildToken (kind : string) (value : JsValue) : JsValue :=
  JsObject [("kind", JsString kind); ("value", value)].

(** The elements [arr[0] .. arr[arr.length - 1]] a [for] loop over [arr]
    reads: those of an array; reading [length] of [undefined] or [null]
    throws.  [concatMap] is typed for arrays, and the selections of a node
    are one: what the loop reads of a string or of an object with a
    [length] is outside this embedding, which has no element for them. *)
Definition elements (arr : JsValue) : Result (list JsValue) :=
  match arr with
  | JsArray items => inr items
  | JsUndefined | JsNull => inl TypeError
  | _ => inr []
  end.

Fixpoint concatMapLoop (items : list JsValue) (fn : JsValue -> Result JsValue)
  (res : list JsValue) : Result (list JsValue) :=
  match items with
  | [] => inr res
  | item :: rest =>
      let* x := fn item in
      match x with
      | JsArray xs => concatMapLoop rest fn (res ++ xs)
      | _ => concatMapLoop rest fn (res ++ [x])
      end
  end.

Definition concatMap (arr : JsValue) (fn : JsValue -> Result JsValue)
  : Result JsValue :=
  let* items := elements arr in
  let* res := concatMapLoop items fn [] in
  inr (JsArray res).

Section GetOutline.

(** [parse] and [visit] of the [graphql] package; [visit] is given the root
    and the [leave] function of the visitor.  [offsetToPoint] of
    [../utils/Range]. *)
Variable parse : string -> Result JsValue.
Variable visit : JsValue -> (JsValue -> Result JsValue) -> Result JsValue.
Variable offsetToPoint : string -> JsValue -> JsValue.

(** The properties of the object [meta(node)] builds. *)
Definition meta (docText : string) (node : JsValue)
  : Result (list (string * JsValue)) :=
  let* name := getProp node "name" in
  let* loc := getProp node "loc" in
  let* locStart := getProp loc "start" in
  let* locEnd := getProp loc "end" in
  let* selectionSet := getProp node "selectionSet" in
  inr [ ("representativeName", name);
        ("startPosition", offsetToPoint docText locStart);
        ("endPosition", offsetToPoint docText locEnd);
        ("children", if truthy selectionSet then selectionSet else JsArray []) ].

(** [outlineTreeConverter(docText)[kind]]: the converter of a kind, if the
    object has one. *)
Definition outlineTreeConverter (docText : string) (kind : string)
  : option (JsValue -> Result JsValue) :=
  if String.eqb kind "Field" then Some (fun node =>
    let* alias := getProp node "alias" in
    let tokenizedText :=
      if truthy alias
      then [buildToken "plain" alias; buildToken "plain" (JsString ": ")]
      else [] in
    let* name := getProp node "name" in
    let tokenizedText := (tokenizedText ++ [buildToken "plain" name])%list in
    let* m := meta docText node in
    inr (JsObject (("tokenizedText", JsArray tokenizedText) :: m)))
  else if String.eqb kind "OperationDefinition" then Some (fun node =>
    let* name := getProp node "name" in
    let nodeName := if truthy name then name else JsString "AnonymousQuery" in
    let* metaObject := meta docText node in
    let metaObject :=
      match lookup "representativeName" metaObject with
      | JsNull =>
          map (fun kv : string * JsValue =>
                 if String.eqb (fst kv) "representativeName"
                 then (fst kv, nodeName) else kv) metaObject
      | _ => metaObject
      end in
    let* operation := getProp node "operation" in
    inr (JsObject
           (("tokenizedText",
             JsArray [ buildToken "keyword" operation;
                       buildToken "whitespace" (JsString " ");
                       buildToken "class-name" nodeName ]) :: metaObject)))
  else if String.eqb kind "Document" then Some (fun node =>
    getProp node "definitions")
  else if String.eqb kind "SelectionSet" then Some (fun node =>
    let* selections := getProp node "selections" in
    concatMap selections (fun child =>
      let* kind := getProp child "kind" in
      if strictEqString kind INLINE_FRAGMENT
      then getProp child "selectionSet"
      else inr child))
  else if String.eqb kind "Name" then Some (fun node =>
    getProp node "value")
  else if String.eqb kind "FragmentDefinition" then Some (fun node =>
    let* name := getProp node "name" in
    let* m := meta docText node in
    inr (JsObject
           (("tokenizedText",
             JsArray [ buildToken "keyword" (JsString "fragment");
                       buildToken "whitespace" (JsString " ");
                       buildToken "class-name" name ]) :: m)))
  else if String.eqb kind "FragmentSpread" then Some (fun node =>
    let* name := getProp node "name" in
    let* m := meta docText node in
    inr (JsObject
           (("tokenizedText",
             JsArray [ buildToken "plain" (JsString "...");
                       buildToken "class-name" name ]) :: m)))
  else if String.eqb kind "InlineFragment" then Some (fun node =>
    getProp node "selectionSet")
  else None.

(** The names a plain object inherits from [Object.prototype].
    [OUTLINEABLE_KINDS] and the converter table are plain objects: indexed
    by one of these names they answer the inherited member, not
    [undefined]. *)
Definition objectPrototypeNames : list string :=
  [ "constructor"; "hasOwnProperty"; "isPrototypeOf"; "propertyIsEnumerable";
    "toLocaleString"; "toString"; "valueOf"; "__proto__";
    "__defineGetter__"; "__defineSetter__"; "__lookupGetter__";
    "__lookupSetter__" ].

Definition inheritedName (kind : string) : bool :=
  existsb (String.eqb kind) objectPrototypeNames.

(** The strings [visit] treats as the name of a kind: those for which a
    plain object inherits no member, and not ["leave"], the one property
    of the visitor. *)
Definition properKind (kind : string) : bool :=
  negb (inheritedName kind) && negb (String.eqb kind "leave").

(** The [leave] function of the visitor, for the nodes [visit] hands to it:
    the kind of a node is a string, and it is no [inheritedName] (for such
    a kind the source calls the inherited member, which is outside this
    embedding).  [OUTLINEABLE_KINDS] and [outlineTreeConverter] stand for
    the own properties of the two tables. *)
Definition leave (queryText : string) (node : JsValue) : Result JsValue :=
  let* kind := getProp node "kind" in
  match kind with
  | JsString k =>
      if OUTLINEABLE_KINDS k then
        match outlineTreeConverter queryText k with
        | Some convert => convert node
        | None => inr JsNull
        end
      else inr JsNull
  | _ => inr JsNull
  end.

Definition getOutline (queryText : string) : Result JsValue :=
  match parse queryText with
  | inl error => inr JsNull
  | inr ast =>
      let* outlineTrees := visit ast (leave queryText) in
      inr (JsObject [("outlineTrees", outlineTrees)])
  end.

End GetOutline.

(** *** [visit] of the [graphql] package

    [graphql/language/visitor] is not part of nuclide.  [visit(root,
    visitor)] is embedded for the visitor [getOutline] passes, an object
    with a [leave] function and nothing else, after the loop of [visit]:
    the children of a node are visited under the keys [QueryDocumentKeys]
    lists for its kind, in that order, a child array element by element;
    [undefined] and [null] are skipped.  What [leave] returns for a node is
    recorded as an edit of its parent: [null] removes the node from an
    array and is assigned under the key of an object; any other value but
    [undefined] and [false] takes the place of the node; on [undefined] the
    node stays, with the edits of its children; on [false] the node stays
    as it was.  [leave] is handed the node with the edits of its children
    applied.  The module's [BREAK] object, which [leave] of [getOutline]
    cannot return, is left out, and so are the kinds that are no
    [properKind]. *)

(** [QueryDocumentKeys], the kinds of documents and of the type system. *)
Definition queryDocumentKeys : list (string * list string) :=
  [ ("Name", []);
    ("Document", ["definitions"]);
    ("OperationDefinition",
     ["name"; "variableDefinitions"; "directives"; "selectionSet"]);
    ("VariableDefinition", ["variable"; "type"; "defaultValue"]);
    ("Variable", ["name"]);
    ("SelectionSet", ["selections"]);
    ("Field", ["alias"; "name"; "arguments"; "directives"; "selectionSet"]);
    ("Argument", ["name"; "value"]);
    ("FragmentSpread", ["name"; "directives"]);
    ("InlineFragment", ["typeCondition"; "directives"; "selectionSet"]);
    ("FragmentDefinition",
     ["name"; "typeCondition"; "directives"; "selectionSet"]);
    ("IntValue", []); ("FloatValue", []); ("StringValue", []);
    ("BooleanValue", []); ("NullValue", []); ("EnumValue", []);
    ("ListValue", ["values"]);
    ("ObjectValue", ["fields"]);
    ("ObjectField", ["name"; "value"]);
    ("Directive", ["name"; "arguments"]);
    ("NamedType", ["name"]);
    ("ListType", ["type"]);
    ("NonNullType", ["type"]);
    ("SchemaDefinition", ["directives"; "operationTypes"]);
    ("OperationTypeDefinition", ["type"]);
    ("ScalarTypeDefinition", ["name"; "directives"]);
    ("ObjectTypeDefinition", ["name"; "interfaces"; "directives"; "fields"]);
    ("FieldDefinition", ["name"; "arguments"; "type"; "directives"]);
    ("InputValueDefinition", ["name"; "type"; "defaultValue"; "directives"]);
    ("InterfaceTypeDefinition", ["name"; "directives"; "fields"]);
    ("UnionTypeDefinition", ["name"; "directives"; "types"]);
    ("EnumTypeDefinition", ["name"; "directives"; "values"]);
    ("EnumValueDefinition", ["name"; "directives"]);
    ("InputObjectTypeDefinition", ["name"; "directives"; "fields"]);
    ("TypeExtensionDefinition", ["definition"]);
    ("DirectiveDefinition", ["name"; "arguments"; "locations"]) ].

(** [visitorKeys[node.kind] || []] *)
Definition QueryDocumentKeys (kind : string) : list string :=
  match find (fun entry => String.eqb kind (fst entry)) queryDocumentKeys with
  | Some entry => snd entry
  | None => []
  end.

(** [new Error('Invalid AST Node: ...')] *)
Definition invalidNode : JsError := Thrown (JsString "Invalid AST Node").

(** What visiting a child leaves in the edits of its parent: nothing, or
    the value to put in its place. *)
Definition Edit : Type := option JsValue.

(** The elements of an array after the edits: an element without edit
    stays, [null] removes it, any other value replaces it.  The flag tells
    whether there was an edit. *)
Fixpoint editItems (visited : list (JsValue * Result Edit))
  : Result (bool * list JsValue) :=
  match visited with
  | [] => inr (false, [])
  | (item, r) :: rest =>
      let* e := r in
      let* tail := editItems rest in
      match e with
      | None => inr (fst tail, item :: snd tail)
      | Some JsNull => inr (true, snd tail)
      | Some x => inr (true, x :: snd tail)
      end
  end.

(** What visiting [node[key]] gave; a property the node lacks is
    [undefined], and skipped. *)
Fixpoint lookupVisited (key : string) (visited : list (string * Result Edit))
  : Result Edit :=
  match visited with
  | [] => inr None
  | (k, r) :: rest => if String.eqb key k then r else lookupVisited key rest
  end.

(** The edits of a node: those of the children under [keys], in order. *)
Fixpoint visitKeys (visited : list (string * Result Edit)) (keys : list string)
  : Result (list (string * JsValue)) :=
  match keys with
  | [] => inr []
  | key :: rest =>
      let* e := lookupVisited key visited in
      let* tail := visitKeys visited rest in
      inr (match e with Some x => (key, x) :: tail | None => tail end)
  end.

(** [node[k] = v] on the copy of a node. *)
Fixpoint assign (k : string) (v : JsValue) (props : list (string * JsValue))
  : list (string * JsValue) :=
  match props with
  | [] => [(k, v)]
  | (k', v') :: rest =>
      if String.eqb k k' then (k, v) :: rest else (k', v') :: assign k v rest
  end.

Definition applyEdits (edits : list (string * JsValue))
  (props : list (string * JsValue)) : list (string * JsValue) :=
  fold_left (fun ps e => assign (fst e) (snd e) ps) edits props.

(** One node, array or missing child, visited with its subtree.  A value
    that is neither an array nor an object with a string [kind] is no node.
    The kind of a node is a [properKind]: for any other string [visit]
    finds a member of the visitor or of [Object.prototype] where the
    function or the keys of the kind are looked up, which is outside this
    embedding. *)
Fixpoint visitNode (leaveFn : JsValue -> Result JsValue) (v : JsValue)
  {struct v} : Result Edit :=
  match v with
  | JsUndefined | JsNull => inr None
  | JsArray items =>
      let* r := editItems (map (fun item => (item, visitNode leaveFn item)) items) in
      inr (if fst r then Some (JsArray (snd r)) else None)
  | JsObject props =>
      match lookup "kind" props with
      | JsString kind =>
          let visited :=
            map (fun kv => (fst kv, visitNode leaveFn (snd kv))) props in
          let* edits := visitKeys visited (QueryDocumentKeys kind) in
          let node := JsObject (applyEdits edits props) in
          let* result := leaveFn node in
          match result with
          | JsUndefined => inr (match edits with [] => None | _ => Some node end)
          | JsBool false => inr None
          | _ => inr (Some result)
          end
      | _ => inl invalidNode
      end
  | _ => inl invalidNode
  end.

(** [visit(root, {leave})]: the last edit of the root, or the root. *)
Definition visit (root : JsValue) (leaveFn : JsValue -> Result JsValue)
  : Result JsValue :=
  let* e := visitNode leaveFn root in
  inr (match e with Some x => x | None => root end).

(** A parser to run [getOutline] on: it knows the anonymous query with one
    field, for which it answers the document the parser of [graphql]
    builds, and rejects everything else. *)
Definition toyLoc (a b : Z) : JsValue :=
  JsObject [("start", JsNumber a); ("end", JsNumber b)].

Definition anonymousQuery : JsValue :=
  JsObject
    [ ("kind", JsString "Document");
      ("definitions", JsArray
        [ JsObject
            [ ("kind", JsString "OperationDefinition");
              ("operation", JsString "query");
              ("name", JsNull);
              ("variableDefinitions", JsNull);
              ("directives", JsArray []);
              ("selectionSet", JsObject
                [ ("kind", JsString "SelectionSet");
                  ("selections", JsArray
                    [ JsObject
                        [ ("kind", JsString "Field");
                          ("alias", JsNull);
                          ("name", JsObject
                             [ ("kind", JsString "Name");
                               ("value", JsString "id");
                               ("loc", toyLoc 2 4) ]);
                          ("arguments", JsArray []);
                          ("directives", JsArray []);
                          ("selectionSet", JsNull);
                          ("loc", toyLoc 2 4) ] ]);
                  ("loc", toyLoc 0 6) ]);
              ("loc", toyLoc 0 6) ] ]);
      ("loc", toyLoc 0 6) ].

Definition toyParse (queryText : string) : Result JsValue :=
  if String.eqb queryText "{ id }" then inr anonymousQuery
  else inl (Thrown (JsString "Syntax Error")).

Definition toyOffsetToPoint (docText : string) (offset : JsValue) : JsValue :=
  JsObject [("row", JsNumber 0); ("column", offset)].

End Outline.

(** ** The Tizen device bridge ([Sdb.js]) *)

Module Sdb.

(** *** The string functions of JavaScript that [Sdb.js] uses *)

Definition isNewline (c : ascii) : bool := Ascii.eqb c "010"%char.

(** [.]: any code unit but a line terminator ([\n], [\r]; the two others
    lie above 255). *)
Definition isLineTerminator (c : ascii) : bool :=
  Ascii.eqb c "010"%char || Ascii.eqb c "013"%char.

(** [s.split(/\n+/g)]: the pieces between the runs of newlines; [cur] is the
    piece being read, [inRun] tells that the last code unit was a newline. *)
Fixpoint splitLoop (inRun : bool) (cur s : string) : list string :=
  match s with
  | EmptyString => [cur]
  | String c rest =>
      if isNewline c then
        if inRun then splitLoop true "" rest
        else cur :: splitLoop true "" rest
      else splitLoop false (cur ++ String c "") rest
  end.

Definition splitNewlines (s : string) : list string := splitLoop false "" s.

(** [s.indexOf(key) !== -1] *)
Fixpoint includes (key s : string) : bool :=
  if String.prefix key s then true
  else match s with
       | String _ rest => includes key rest
       | EmptyString => false
       end.

(** [s.trim()] *)
Fixpoint trimEnd (s : string) : string :=
  match s with
  | String c rest =>
      match trimEnd rest with
      | EmptyString => if isStrWhiteSpaceChar c then "" else String c ""
      | t => String c t
      end
  | EmptyString => ""
  end.

Definition trim (s : string) : string := trimEnd (skipWhiteSpace s).

(** *** Regular expressions, as far as the one of [getTizenModelConfigKey]
    needs them: [AnyStar] is a greedy dot-star, [GroupAnyStar] a capturing
    group around a greedy dot-star, [Lit c] the code unit [c]. *)

Inductive Atom : Type :=
| AnyStar
| GroupAnyStar
| Lit (c : ascii).

(** A greedy dot-star followed by [k]: the longest run of code units that are
    no line terminators after which [k] matches; the run and the result of
    [k]. *)
Fixpoint star {C : Type} (k : string -> option C) (s : string)
  : option (string * C) :=
  match s with
  | String c rest =>
      if isLineTerminator c then option_map (pair "") (k s)
      else
        match star k rest with
        | Some (run, r) => Some (String c run, r)
        | None => option_map (pair "") (k s)
        end
  | EmptyString => option_map (pair "") (k s)
  end.

(** A match of the atoms at the start of [s]: the texts of the groups. *)
Fixpoint matchAtoms (atoms : list Atom) : string -> option (list string) :=
  match atoms with
  | [] => fun _ => Some []
  | Lit c :: rest =>
      fun s =>
        match s with
        | String c' s' => if Ascii.eqb c' c then matchAtoms rest s' else None
        | EmptyString => None
        end
  | AnyStar :: rest =>
      fun s => option_map snd (star (matchAtoms rest) s)
  | GroupAnyStar :: rest =>
      fun s =>
        match star (matchAtoms rest) s with
        | Some (run, groups) => Some (run :: groups)
        | None => None
        end
  end.

(** [regex.exec(s)] of a fresh regular expression: the groups of the
    leftmost match, [null] when there is none. *)
Fixpoint exec (atoms : list Atom) (s : string) : option (list string) :=
  match matchAtoms atoms s with
  | Some groups => Some groups
  | None =>
      match s with
      | String _ rest => exec atoms rest
      | EmptyString => None
      end
  end.

(** The regular expression of [getTizenModelConfigKey]: dot-star, [<],
    dot-star, [>], group of dot-star, [<], dot-star, [>]. *)
Definition regex : list Atom :=
  [ AnyStar; Lit "<"; AnyStar; Lit ">"; GroupAnyStar; Lit "<"; AnyStar; Lit ">" ].

(** *** The methods

    A method that returns a promise runs on the world of the device and
    the child processes: it resolves ([Normal]) or rejects ([Abrupt]). *)

(** [try { body } catch (e) { handler }] *)
Definition tryCatch {S A} (body : Eff S A) (handler : JsError -> Eff S A)
  : Eff S A :=
  fun s =>
    match body s with
    | Normal a s' => Normal a s'
    | Abrupt e s' => handler e s'
    end.

Section Methods.

Variable World : Type.
(** Of [AdbSdbBase], which is not among the embedded sources:
    [runShortCommand] gives the standard output of the command, or fails;
    [runLongCommand] gives the observable of the messages of the process. *)
Variable runShortCommand : string -> list string -> Eff World string.
Variable Messages : Type.
Variable runLongCommand : string -> list string -> Messages.
(** [nuclideUri.isRemote] *)
Variable isRemote : string -> bool.

Definition getTizenModelConfigKey (device key : string) : Eff World string :=
  let modelConfigPath := "/etc/config/model-config.xml" in
  stdout <- runShortCommand device ["shell"; "cat"; modelConfigPath] ;;
  let s :=
    match filter (includes key) (splitNewlines stdout) with
    | line :: _ => line
    | [] => "undefined"       (* [regex.exec(undefined)] reads ["undefined"] *)
    end in
  match exec regex s with
  | Some (group1 :: _) => ret group1
  | _ => throw TypeError      (* [null[1]] *)
  end.

Definition getDeviceArchitecture (device : string) : Eff World string :=
  s <- runShortCommand device ["shell"; "uname"; "-m"] ;;
  ret (trim s).

Definition getDeviceModel (device : string) : Eff World string :=
  getTizenModelConfigKey device "tizen.org/system/model_name".

Definition getAPIVersion (device : string) : Eff World string :=
  tryCatch
    (getTizenModelConfigKey device "tizen.org/feature/platform.core.api.version")
    (fun e =>
       getTizenModelConfigKey device
         "tizen.org/feature/platform.native.api.version").

(** [invariant(cond)] of [assert] throws when [cond] is false. *)
Definition installPackage (device packagePath : string) : JsError + Messages :=
  if negb (isRemote packagePath)
  then inr (runLongCommand device ["install"; packagePath])
  else inl (Thrown (JsString "AssertionError")).

Definition launchApp (device identifier : string) : Eff World string :=
  runShortCommand device ["shell"; "launch_app"; identifier].

Definition uninstallPackage (device packageName : string) : Messages :=
  runLongCommand device ["uninstall"; packageName].

End Methods.

(** A device to run the methods on: the world is the text of
    [model-config.xml], and every short command prints it. *)
Definition catConfig (device : string) (command : list string)
  : Eff string string :=
  fun config => Normal config config.

Definition quoted (s : string) : string :=
  String "034" (s ++ String "034" "").

Definition keyLine (key value : string) : string :=
  "  <key name=" ++ quoted key ++ " type=" ++ quoted "string" ++ ">"
  ++ value ++ "</key>".

Definition exampleConfig : string :=
  "<model-config>" ++ String "010" (String "010" (
  keyLine "tizen.org/system/model_name" "Emulator"
    ++ String "013" (String "010" (
  keyLine "tizen.org/feature/platform.native.api.version" "2.4"
    ++ String "010" "</model-config>")))).

End Sdb.

(** ** The webview of the Bridge ([renderChromeWebview], [cleanup], [dispose]) *)

Module Lifecycle.

(** A [webview] element with the properties the Bridge sets. *)
Record WebviewNode : Type := {
  src : string;
  nodeintegration : bool;
  disablewebsecurity : bool;
  classList : list string;
}.

(** The document, the dispatcher and the Bridge, as far as the webview is
    concerned.  An element is known by the number [document.createElement]
    gave it: [nodes] are the webview elements created so far, [body] those of
    them that are children of [document.body] (which exists: the
    [invariant] on it in [renderChromeWebview] passes).  [chromeChannel] is the webview last handed to
    [_commandDispatcher.setupChromeChannel]; [ipcSubscriptions] are the
    webviews whose [ipc-message] events are subscribed to
    [_handleIpcMessage]; [_cleanupDisposables] holds the webview whose
    subscription and removal it will undo; [userChangeSubscribed] tells
    that [_disposables] still holds the subscription of the constructor. *)
Record Page : Type := {
  nodes : list WebviewNode;
  body : list nat;
  chromeChannel : option nat;
  ipcSubscriptions : list nat;
  _webview : option nat;
  _webviewUrl : option string;
  _cleanupDisposables : option nat;
  userChangeSubscribed : bool;
}.

(** The Bridge after [new Bridge(debuggerModel)] in a document without
    webview. *)
Definition constructed : Page :=
  {| nodes := []; body := []; chromeChannel := None; ipcSubscriptions := [];
     _webview := None; _webviewUrl := None; _cleanupDisposables := None;
     userChangeSubscribed := true |}.

(** [xs] without the first [n]: [webview.remove()] on the children of the
    body, [unsubscribe()] on the subscriptions. *)
Fixpoint removeFirst (n : nat) (xs : list nat) : list nat :=
  match xs with
  | [] => []
  | x :: rest => if Nat.eqb x n then rest else x :: removeFirst n rest
  end.

(** [nodes[n].src = url] *)
Fixpoint setSrc (n : nat) (url : string) (nodes : list WebviewNode)
  : list WebviewNode :=
  match nodes, n with
  | [], _ => []
  | node :: rest, O =>
      {| src := url;
         nodeintegration := nodeintegration node;
         disablewebsecurity := disablewebsecurity node;
         classList := classList node |} :: rest
  | node :: rest, S m => node :: setSrc m url rest
  end.

Definition srcOf (p : Page) (n : nat) : option string :=
  option_map src (nth_error (nodes p) n).

(** [invariant(cond)] of [assert] *)
Definition AssertionError : JsError := Thrown (JsString "AssertionError").

(** Modelled from the spec: [CommandDispatcher] is not among the embedded
    sources.  "bind(transport) -> ATTACHED": [setupChromeChannel(webview)]
    makes [webview] the transport of the dispatcher, and does nothing else
    to the Bridge or the document. *)
Definition setupChromeChannel (webview : nat) : Eff Page unit :=
  modify (fun p =>
    {| nodes := nodes p; body := body p;
       chromeChannel := Some webview;
       ipcSubscriptions := ipcSubscriptions p;
       _webview := _webview p;
       _webviewUrl := _webviewUrl p;
       _cleanupDisposables := _cleanupDisposables p;
       userChangeSubscribed := userChangeSubscribed p |}).

(** Modelled from the spec: [UniversalDisposable] is not among the embedded
    sources.  "detaching the transport (unbind/dispose) must release all
    held resources (subscriptions, DOM-like embedded view, pending
    callbacks) synchronously": [dispose()] on the disposable that
    [_setWebviewElement] made for [webview] ends the subscription to its
    [ipc-message] events and runs the function given with it, which the
    source has: [webview.remove()], [this._webview = null],
    [this._webviewUrl = null]. *)
Definition disposeWebviewDisposable (webview : nat) : Eff Page unit :=
  modify (fun p =>
    {| nodes := nodes p;
       body := removeFirst webview (body p);
       chromeChannel := chromeChannel p;
       ipcSubscriptions := removeFirst webview (ipcSubscriptions p);
       _webview := None;
       _webviewUrl := None;
       _cleanupDisposables := _cleanupDisposables p;
       userChangeSubscribed := userChangeSubscribed p |}).

(** Modelled from the spec: as above, for [this._disposables], which holds
    the subscription to the user changes of the breakpoint store:
    "dispose() (idempotent full teardown)". *)
Definition disposeDisposables : Eff Page unit :=
  modify (fun p =>
    {| nodes := nodes p; body := body p;
       chromeChannel := chromeChannel p;
       ipcSubscriptions := ipcSubscriptions p;
       _webview := _webview p;
       _webviewUrl := _webviewUrl p;
       _cleanupDisposables := _cleanupDisposables p;
       userChangeSubscribed := false |}).

Definition _setWebviewElement (webview : nat) : Eff Page unit :=
  modify (fun p =>
    {| nodes := nodes p; body := body p;
       chromeChannel := chromeChannel p;
       ipcSubscriptions := ipcSubscriptions p;
       _webview := Some webview;
       _webviewUrl := _webviewUrl p;
       _cleanupDisposables := _cleanupDisposables p;
       userChangeSubscribed := userChangeSubscribed p |}) ;;
  setupChromeChannel webview ;;
  p <- get ;;
  match _cleanupDisposables p with
  | Some _ => throw AssertionError
  | None =>
      (* [Observable.fromEvent(webview, 'ipc-message').subscribe(...)], kept
         in the new [UniversalDisposable] *)
      modify (fun p =>
        {| nodes := nodes p; body := body p;
           chromeChannel := chromeChannel p;
           ipcSubscriptions := ipcSubscriptions p ++ [webview];
           _webview := _webview p;
           _webviewUrl := _webviewUrl p;
           _cleanupDisposables := Some webview;
           userChangeSubscribed := userChangeSubscribed p |})
  end.

Definition renderChromeWebview (url : string) : Eff Page unit :=
  p <- get ;;
  (match _webview p with
   | None =>
       let webview := List.length (nodes p) in
       modify (fun p =>
         {| nodes :=
              nodes p
              ++ [{| src := url; nodeintegration := true;
                     disablewebsecurity := true;
                     classList := ["native-key-bindings";
                                   "nuclide-debugger-webview"] |}];
            body := body p ++ [webview];
            chromeChannel := chromeChannel p;
            ipcSubscriptions := ipcSubscriptions p;
            _webview := _webview p;
            _webviewUrl := _webviewUrl p;
            _cleanupDisposables := _cleanupDisposables p;
            userChangeSubscribed := userChangeSubscribed p |}) ;;
       _setWebviewElement webview
   | Some webview =>
       if match _webviewUrl p with
          | Some current => String.eqb url current
          | None => false
          end
       then ret tt
       else
         modify (fun p =>
           {| nodes := setSrc webview url (nodes p); body := body p;
              chromeChannel := chromeChannel p;
              ipcSubscriptions := ipcSubscriptions p;
              _webview := _webview p;
              _webviewUrl := _webviewUrl p;
              _cleanupDisposables := _cleanupDisposables p;
              userChangeSubscribed := userChangeSubscribed p |})
   end) ;;
  modify (fun p =>
    {| nodes := nodes p; body := body p;
       chromeChannel := chromeChannel p;
       ipcSubscriptions := ipcSubscriptions p;
       _webview := _webview p;
       _webviewUrl := Some url;
       _cleanupDisposables := _cleanupDisposables p;
       userChangeSubscribed := userChangeSubscribed p |}).

Definition cleanup : Eff Page unit :=
  p <- get ;;
  match _cleanupDisposables p with
  | Some webview =>
      disposeWebviewDisposable webview ;;
      modify (fun p =>
        {| nodes := nodes p; body := body p;
           chromeChannel := chromeChannel p;
           ipcSubscriptions := ipcSubscriptions p;
           _webview := _webview p;
           _webviewUrl := _webviewUrl p;
           _cleanupDisposables := None;
           userChangeSubscribed := userChangeSubscribed p |})
  | None => ret tt
  end.

Definition dispose : Eff Page unit :=
  cleanup ;;
  disposeDisposables.

(** The calls a user of the Bridge makes. *)
Inductive Call : Type :=
| call_renderChromeWebview (url : string)
| call_cleanup
| call_dispose.

Definition runCall (c : Call) : Eff Page unit :=
  match c with
  | call_renderChromeWebview url => renderChromeWebview url
  | call_cleanup => cleanup
  | call_dispose => dispose
  end.

(** The page after the calls, one after the other, each run to its end. *)
Definition after (calls : list Call) (p : Page) : Page :=
  fold_left (fun q c => stateOf (runCall c q)) calls p.

(** What holds between two calls: the webview of the Bridge, if any, is
    the one child it gave the body, the one subscription, the one the
    clean-up will undo, and shows the URL last rendered. *)
Definition attachedTo (p : Page) (webview : nat) (url : string) : Prop :=
  _webview p = Some webview
  /\ _cleanupDisposables p = Some webview
  /\ _webviewUrl p = Some url
  /\ srcOf p webview = Some url
  /\ body p = [webview]
  /\ ipcSubscriptions p = [webview]
  /\ chromeChannel p = Some webview.

Definition detached (p : Page) : Prop :=
  _webview p = None
  /\ _cleanupDisposables p = None
  /\ _webviewUrl p = None
  /\ body p = []
  /\ ipcSubscriptions p = [].

Definition consistent (p : Page) : Prop :=
  detached p \/ exists webview url, attachedTo p webview url.

End Lifecycle.

(** ** Vocabulary of the statements *)

(** The state [s] after the commands [cmds] have been handed to the
    dispatcher, and nothing else has changed. *)
Definition afterSending {Model : Type} (s : Bridge Model) (cmds : list Message)
  : Bridge Model :=
  {| _debuggerModel := _debuggerModel s;
     modelCalls := modelCalls s;
     _webview := _webview s;
     _commandDispatcher := _commandDispatcher s ++ cmds;
     _suppressBreakpointSync := _suppressBreakpointSync s |}.

(** The command a user change of the breakpoint store is forwarded as. *)
Definition userChangeCommand (nuclideUriToUri : string -> string)
  (params : BreakpointUserChangeArgType) : Message :=
  {| channel := action params;
     args := [ipcBreakpoint nuclideUriToUri (breakpoint params)] |}.

(** The state a call [c] on the model leaves, whether it returns or throws. *)
Definition afterCall {Model : Type} `{DebuggerModel Model}
  (nuclideUriToUri : string -> string) (c : ModelCall) (s : Bridge Model)
  : Bridge Model :=
  let r := perform c (_debuggerModel s) in
  {| _debuggerModel := newModel r;
     modelCalls := modelCalls s ++ [c];
     _webview := _webview s;
     _commandDispatcher :=
       _commandDispatcher s ++ map (userChangeCommand nuclideUriToUri) (emitted r);
     _suppressBreakpointSync := _suppressBreakpointSync s |}.

(** [payload.k] on a payload that is neither [undefined] nor [null]. *)
Definition field (payload : JsValue) (k : string) : JsValue :=
  match getProp payload k with
  | inr v => v
  | inl _ => JsUndefined
  end.

(** The model calls of [_handleDebuggerPaused(payload)], in order, when
    none of them throws. *)
Definition pausedCalls (payload : JsValue) : list ModelCall :=
  setDebuggerMode PAUSED
  :: (if nullish payload then []
      else
        (if nullish (field payload "stopThreadId") then []
         else [updateStopThread (field payload "stopThreadId")])
        ++ (let notice := field payload "threadSwitchNotification" in
            if nullish notice then []
            else [notifyThreadSwitch (field notice "sourceURL")
                    (field notice "lineNumber") (field notice "message")])).

(** The event names [_handleIpcMessage] has a case for. *)
Definition handledEvents : list string :=
  [ "ready"; "CallFrameSelected"; "OpenSourceLocation"; "ClearInterface";
    "DebuggerResumed"; "LoaderBreakpointResumed"; "BreakpointAdded";
    "BreakpointRemoved"; "NonLoaderDebuggerPaused";
    "ExpressionEvaluationResponse"; "GetPropertiesResponse";
    "CallstackUpdate"; "ScopesUpdate"; "ThreadsUpdate"; "ThreadUpdate" ].

(** Decimal numerals. *)
Definition isDigit (c : ascii) : bool :=
  match digitOf c with
  | Some _ => true
  | None => false
  end.

Fixpoint allDigits (s : string) : bool :=
  match s with
  | String c rest => isDigit c && allDigits rest
  | EmptyString => true
  end.

Definition startsWithDigit (s : string) : bool :=
  match s with
  | String c _ => isDigit c
  | EmptyString => false
  end.

Fixpoint decimalFrom (acc : Z) (s : string) : Z :=
  match s with
  | String c rest =>
      decimalFrom (10 * acc + match digitOf c with Some d => d | None => 0 end) rest
  | EmptyString => acc
  end.

Definition decimalValue (s : string) : Z := decimalFrom 0 s.

(** A computation keeps the flag when it ends with the flag it started
    with. *)
Definition keepsFlag {Model A : Type} (m : Eff (Bridge Model) A) : Prop :=
  forall s, _suppressBreakpointSync (stateOf (m s)) = _suppressBreakpointSync s.

(** A computation is unsuppressed when, started with the flag down, it ends
    with the flag down. *)
Definition unsuppressed {Model A : Type} (m : Eff (Bridge Model) A) : Prop :=
  forall s, _suppressBreakpointSync s = false ->
            _suppressBreakpointSync (stateOf (m s)) = false.

(** ** Examples to run the Bridge on *)

Definition exampleBreakpoints : list FileLineBreakpoint :=
  [ {| path := "/src/a.js"; line := 3; condition := ""; enabled := true;
       resolved := false |};
    {| path := "/src/b.js"; line := 10; condition := "x > 1"; enabled := false;
       resolved := true |} ].

Definition exampleModel : RefModel :=
  {| debuggerMode := RUNNING;
     selectedThread := None;
     selectedStopThread := JsUndefined;
     threadSwitchNotices := [];
     breakpoints := exampleBreakpoints;
     settings := JsObject [("supportThreadsWindow", JsBool true)];
     togglePauseOnException := true;
     togglePauseOnCaughtException := false;
     enableSingleThreadStepping := true |}.

Definition exampleBridge : Bridge RefModel := constructor exampleModel.

(** A Bridge seen while [_bindBreakpoint] is inside its [try] block. *)
Definition suppressedBridge : Bridge RefModel :=
  {| _debuggerModel := exampleModel;
     modelCalls := [];
     _webview := None;
     _commandDispatcher := [];
     _suppressBreakpointSync := true |}.

Definition faultyBridge : Bridge nat := constructor 0%nat.

Definition exampleUserChange : BreakpointUserChangeArgType :=
  {| action := "AddBreakpoint";
     breakpoint := {| path := "/src/c.js"; line := 7; condition := "";
                      enabled := true; resolved := false |} |}.

Definition localBreakpoint : JsValue :=
  JsObject [ ("sourceURL", JsString "file:///src/a.js");
             ("lineNumber", JsNumber 3);
             ("condition", JsString "");
             ("enabled", JsBool true);
             ("resolved", JsBool true) ].

(** A file of a remote host, a script served over HTTP, and a payload
    without [sourceURL]. *)
Definition remoteBreakpoint : JsValue :=
  JsObject [ ("sourceURL", JsString "nuclide://devserver/src/a.js");
             ("lineNumber", JsNumber 3);
             ("condition", JsString "");
             ("enabled", JsBool true);
             ("resolved", JsBool true) ].

Definition virtualBreakpoint : JsValue :=
  JsObject [ ("sourceURL", JsString "http://localhost/a.js");
             ("lineNumber", JsNumber 3);
             ("condition", JsString "");
             ("enabled", JsBool true);
             ("resolved", JsNumber 1) ].

Definition malformedBreakpoint : JsValue := JsObject [].

Definition notification (name : string) (payload : JsValue) : Message :=
  {| channel := "notification"; args := [JsString name; payload] |}.

(** ** Vocabulary of the further properties *)

(** A computation only forwards when the commands it sends are user changes
    of the store passed on by the listener, none if the model reports no
    user change. *)
Definition onlyForwards {Model : Type} `{DebuggerModel Model}
  (nuclideUriToUri : string -> string) {A : Type} (m : Eff (Bridge Model) A)
  : Prop :=
  forall s, exists changes,
    _commandDispatcher (stateOf (m s))
    = _commandDispatcher s ++ map (userChangeCommand nuclideUriToUri) changes
    /\ ((forall c mo, emitted (perform c mo) = []) -> changes = []).

(** A computation returns when it never ends abruptly. *)
Definition returns {S A : Type} (m : Eff S A) : Prop :=
  forall s, isAbrupt (m s) = false.

(** The events whose handler reads a property of the payload before
    anything else. *)
Definition readsPayload (name : JsValue) : bool :=
  existsb (strictEqString name)
    [ "BreakpointAdded"; "BreakpointRemoved"; "ExpressionEvaluationResponse";
      "GetPropertiesResponse" ].

(** The events whose handler hands the [sourceURL] of the payload to
    [nuclideUri.uriToNuclideUri]. *)
Definition resolvesSource (name : JsValue) : bool :=
  strictEqString name "BreakpointAdded" || strictEqString name "BreakpointRemoved".

(** A string all of white space, and a string without its sign. *)
Fixpoint allWhiteSpace (s : string) : bool :=
  match s with
  | String c rest => isStrWhiteSpaceChar c && allWhiteSpace rest
  | EmptyString => true
  end.

Definition afterSign (s : string) : string :=
  match s with
  | String "-" rest => rest
  | String "+" rest => rest
  | _ => s
  end.

(** What [res.push(...x)] or [res.push(x)] adds in [concatMap]: the elements
    of an array, and anything else as it is. *)
Definition spread (x : JsValue) : list JsValue :=
  match x with
  | JsArray xs => xs
  | _ => [x]
  end.

(** The kinds whose converter builds an outline entry. *)
Definition buildsEntry (kind : string) : bool :=
  existsb (String.eqb kind)
    [ "Field"; "OperationDefinition"; "FragmentDefinition"; "FragmentSpread" ].

(** An AST as the parser of [graphql] builds it ([graphql/language/ast]).
    A node is an object whose [kind] is a string (the name of a kind, so a
    [properKind]); under each key [QueryDocumentKeys] lists for its kind
    it has nothing, a node, or an array of nodes; a field, an operation, a
    fragment definition and a fragment spread have a location; the
    selections of a selection set are an array. *)
Fixpoint wellFormed (v : JsValue) {struct v} : bool :=
  match v with
  | JsObject props =>
      match lookup "kind" props with
      | JsString kind =>
          let children :=
            map (fun kv =>
                   (fst kv,
                    match snd kv with
                    | JsUndefined | JsNull => true
                    | JsArray items => forallb wellFormed items
                    | JsObject _ => wellFormed (snd kv)
                    | _ => false
                    end)) props in
          Outline.properKind kind
          && forallb
               (fun key =>
                  match find (fun child => String.eqb key (fst child)) children with
                  | Some child => snd child
                  | None => true
                  end)
               (Outline.QueryDocumentKeys kind)
          && (negb (buildsEntry kind) || negb (nullish (lookup "loc" props)))
          && (negb (String.eqb kind "SelectionSet")
              || match lookup "selections" props with
                 | JsArray _ => true
                 | _ => false
                 end)
      | _ => false
      end
  | _ => false
  end.

(** What a node may have under a key that is visited. *)
Definition visitableChild (child : JsValue) : bool :=
  match child with
  | JsUndefined | JsNull => true
  | JsArray items => forallb wellFormed items
  | JsObject _ => wellFormed child
  | _ => false
  end.

(** What the [SelectionSet] converter makes of one selection. *)
Definition selected (child : JsValue) : JsValue :=
  if strictEqString (field child "kind") Outline.INLINE_FRAGMENT
  then field child "selectionSet"
  else child.

(** A string none of whose code units satisfies [p]. *)
Fixpoint lacks (p : ascii -> bool) (s : string) : bool :=
  match s with
  | String c rest => negb (p c) && lacks p rest
  | EmptyString => true
  end.

Definition isLt (c : ascii) : bool := Ascii.eqb c "<"%char.
Definition isGt (c : ascii) : bool := Ascii.eqb c ">"%char.

(** An XML element on a line: [pre<open>value<close>post]. *)
Definition element (pre open value close post : string) : string :=
  (pre ++ "<" ++ open ++ ">" ++ value ++ "<" ++ close ++ ">" ++ post)%string.

(** The element is on one line, its tags hold no further [<], and its
    value and closing tag no [>]; nothing behind it opens another tag. *)
Definition tagged (pre open value close post : string) : bool :=
  lacks Sdb.isLineTerminator pre
  && (lacks Sdb.isLineTerminator open && lacks isLt open)
  && (lacks Sdb.isLineTerminator value && lacks isLt value && lacks isGt value)
  && (lacks Sdb.isLineTerminator close && lacks isLt close && lacks isGt close)
  && lacks isLt post.

(** In the output [stdout], the first line that contains [key] is an
    element with the text [value]. *)
Definition firstLineWith (key stdout value : string) : Prop :=
  exists before after pre open close post,
    Sdb.splitNewlines stdout
    = before ++ element pre open value close post :: after
    /\ (forall line, In line before -> Sdb.includes key line = false)
    /\ Sdb.includes key (element pre open value close post) = true
    /\ tagged pre open value close post = true.

(** No line of [stdout] contains [key]. *)
Definition noLineWith (key stdout : string) : Prop :=
  forall line, In line (Sdb.splitNewlines stdout) -> Sdb.includes key line = false.

(** The lines joined by single newlines. *)
Fixpoint joinLines (lines : list string) : string :=
  match lines with
  | [] => ""
  | [line] => line
  | line :: rest => (line ++ String "010" (joinLines rest))%string
  end.

(** ** Examples for the further properties *)

(** A device on which every short command prints [config], whatever the
    state of the world. *)
Definition printsConfig (config device : string) (command : list string)
  : Eff unit string :=
  fun world => Normal config world.

Definition exampleLoc : JsValue :=
  JsObject [("start", JsNumber 2); ("end", JsNumber 9)].

(** A [Field] node as [leave] meets it: alias and name already turned into
    strings. *)
Definition exampleFieldNode : list (string * JsValue) :=
  [ ("kind", JsString "Field");
    ("alias", JsString "me");
    ("name", JsString "user");
    ("loc", exampleLoc) ].

(** An operation without a name, as the parser writes it. *)
Definition exampleOperationNode : list (string * JsValue) :=
  [ ("kind", JsString "OperationDefinition");
    ("operation", JsString "query");
    ("name", JsUndefined);
    ("selectionSet", JsArray []);
    ("loc", exampleLoc) ].

(** A selection set after its selections were left: an entry, the array
    that stands for an inline fragment, an entry. *)
Definition exampleSelections : list JsValue :=
  [ JsObject [("representativeName", JsString "a")];
    JsArray [ JsObject [("representativeName", JsString "b")];
              JsObject [("representativeName", JsString "c")] ];
    JsObject [("representativeName", JsString "d")] ].

Definition exampleSelectionSetNode : list (string * JsValue) :=
  [ ("kind", JsString "SelectionSet");
    ("selections", JsArray exampleSelections);
    ("loc", exampleLoc) ].

(** ** Proofs: the monad *)

Section EffFacts.

Context {S : Type}.

Lemma bind_normal {A B} (m : Eff S A) (k : A -> Eff S B) s a s' :
  m s = Normal a s' -> bind m k s = k a s'.
Proof. unfold bind; intros ->; reflexivity. Qed.

Lemma bind_abrupt {A B} (m : Eff S A) (k : A -> Eff S B) s e s' :
  m s = Abrupt e s' -> bind m k s = Abrupt e s'.
Proof. unfold bind; intros ->; reflexivity. Qed.

(** The state a sequence leaves is the one its first part leaves, or one
    its second part leaves when started there. *)
Lemma stateOf_bind {A B} (m : Eff S A) (k : A -> Eff S B) s :
  stateOf (bind m k s) = stateOf (m s) \/
  exists a, stateOf (bind m k s) = stateOf (k a (stateOf (m s))).
Proof.
  unfold bind; destruct (m s) as [a s' | e s']; simpl.
  - right; exists a; reflexivity.
  - left; reflexivity.
Qed.

(** [finally] decides the state when it completes normally. *)
Lemma stateOf_tryFinally {A} (body : Eff S A) (fin : Eff S unit) s :
  stateOf (tryFinally body fin s) = stateOf (fin (stateOf (body s))).
Proof.
  unfold tryFinally; destruct (body s) as [a s1 | e s1]; simpl;
    destruct (fin s1); reflexivity.
Qed.

(** An exception of the body leaves [try ... finally] when [finally]
    completes normally. *)
Lemma tryFinally_propagates {A} (body : Eff S A) (fin : Eff S unit) s e s1 s2 :
  body s = Abrupt e s1 -> fin s1 = Normal tt s2 ->
  tryFinally body fin s = Abrupt e s2.
Proof. unfold tryFinally; intros -> ->; reflexivity. Qed.

End EffFacts.

(** ** Proofs: the Bridge *)

Create HintDb bridge discriminated.

Section BridgeFacts.

Context {Model : Type} `{DebuggerModel Model}.
Variable uriToNuclideUri : JsValue -> JsError + option string.
Variable nuclideUriToUri : string -> string.
Variable openDevToolsOnDebuggerStart : bool.

Local Abbreviation M := (Eff (Bridge Model)).
Local Abbreviation listener := (_handleUserBreakpointChange nuclideUriToUri).
Local Abbreviation call := (callModel nuclideUriToUri).
Local Abbreviation handle :=
  (_handleIpcMessage uriToNuclideUri nuclideUriToUri openDevToolsOnDebuggerStart).

Lemma afterSending_nil (s : Bridge Model) : afterSending s [] = s.
Proof. destruct s; unfold afterSending; simpl; rewrite app_nil_r; reflexivity. Qed.

Lemma afterSending_app (s : Bridge Model) (xs ys : list Message) :
  afterSending (afterSending s xs) ys = afterSending s (xs ++ ys).
Proof. unfold afterSending; simpl; rewrite <- app_assoc; reflexivity. Qed.

Lemma send_eq (ch : string) (a : list JsValue) (s : Bridge Model) :
  send ch a s = Normal tt (afterSending s [{| channel := ch; args := a |}]).
Proof. reflexivity. Qed.

Lemma listener_eq (params : BreakpointUserChangeArgType) (s : Bridge Model) :
  listener params s
  = Normal tt (afterSending s [userChangeCommand nuclideUriToUri params]).
Proof. reflexivity. Qed.

(** Delivering user changes to the listener forwards them one by one. *)
Lemma forEach_listener (evs : list BreakpointUserChangeArgType) (s : Bridge Model) :
  forEach listener evs s
  = Normal tt (afterSending s (map (userChangeCommand nuclideUriToUri) evs)).
Proof.
  revert s; induction evs as [| ev evs IH]; intros s; simpl.
  - unfold ret; rewrite afterSending_nil; reflexivity.
  - erewrite bind_normal by apply listener_eq.
    rewrite IH, afterSending_app; reflexivity.
Qed.

(** A call on the model, in one step. *)
Lemma callModel_eq (c : ModelCall) (s : Bridge Model) :
  call c s
  = match raised (perform c (_debuggerModel s)) with
    | Some e => Abrupt e (afterCall nuclideUriToUri c s)
    | None => Normal tt (afterCall nuclideUriToUri c s)
    end.
Proof.
  unfold callModel, bind, get, modify.
  rewrite forEach_listener.
  destruct (raised (perform c (_debuggerModel s))); reflexivity.
Qed.

Lemma stateOf_callModel (c : ModelCall) (s : Bridge Model) :
  stateOf (call c s) = afterCall nuclideUriToUri c s.
Proof.
  rewrite callModel_eq.
  destruct (raised (perform c (_debuggerModel s))); reflexivity.
Qed.

(** *** The suppression flag *)

Lemma keepsFlag_unsuppressed {A} (m : M A) : keepsFlag m -> unsuppressed m.
Proof. intros K s Hs; rewrite K; exact Hs. Qed.

Lemma keepsFlag_ret {A} (a : A) : keepsFlag (ret a : M A).
Proof. intros s; reflexivity. Qed.

Lemma keepsFlag_throw {A} (e : JsError) : keepsFlag (throw e : M A).
Proof. intros s; reflexivity. Qed.

Lemma keepsFlag_lift {A} (r : JsError + A) : keepsFlag (lift r : M A).
Proof. destruct r; intros s; reflexivity. Qed.

Lemma keepsFlag_get : keepsFlag (get : M (Bridge Model)).
Proof. intros s; reflexivity. Qed.

Lemma keepsFlag_send ch a : keepsFlag (send ch a : M unit).
Proof. intros s; reflexivity. Qed.

Lemma keepsFlag_callModel c : keepsFlag (call c).
Proof. intros s; rewrite stateOf_callModel; reflexivity. Qed.

Lemma keepsFlag_openDevTools : keepsFlag (openDevTools : M unit).
Proof.
  intros s; unfold openDevTools, bind, get.
  destruct (_webview s); reflexivity.
Qed.

Lemma keepsFlag_bind {A B} (m : M A) (k : A -> M B) :
  keepsFlag m -> (forall a, keepsFlag (k a)) -> keepsFlag (bind m k).
Proof.
  intros Km Kk s.
  destruct (stateOf_bind m k s) as [E | [a E]]; rewrite E.
  - apply Km.
  - rewrite Kk; apply Km.
Qed.

Lemma unsuppressed_bind {A B} (m : M A) (k : A -> M B) :
  unsuppressed m -> (forall a, unsuppressed (k a)) -> unsuppressed (bind m k).
Proof.
  intros Um Uk s Hs.
  destruct (stateOf_bind m k s) as [E | [a E]]; rewrite E.
  - apply Um, Hs.
  - apply Uk, Um, Hs.
Qed.

(** Whatever the body does, [finally { this._suppressBreakpointSync = false }]
    leaves the flag down. *)
Lemma tryFinally_clears {A} (body : M A) (s : Bridge Model) :
  _suppressBreakpointSync
    (stateOf (tryFinally body (setSuppressBreakpointSync false) s)) = false.
Proof. rewrite stateOf_tryFinally; reflexivity. Qed.

Lemma unsuppressed_tryFinally_clears {A} (body : M A) :
  unsuppressed (tryFinally body (setSuppressBreakpointSync false)).
Proof. intros s _; apply tryFinally_clears. Qed.

Lemma unsuppressed_if {A} (b : bool) (m1 m2 : M A) :
  unsuppressed m1 -> unsuppressed m2 -> unsuppressed (if b then m1 else m2).
Proof. destruct b; auto. Qed.

Lemma keepsFlag_if {A} (b : bool) (m1 m2 : M A) :
  keepsFlag m1 -> keepsFlag m2 -> keepsFlag (if b then m1 else m2).
Proof. destruct b; auto. Qed.

End BridgeFacts.

#[export] Hint Resolve keepsFlag_ret keepsFlag_throw keepsFlag_lift keepsFlag_get
  keepsFlag_send keepsFlag_callModel keepsFlag_openDevTools keepsFlag_bind
  keepsFlag_if : bridge.
#[export] Hint Resolve keepsFlag_unsuppressed unsuppressed_bind
  unsuppressed_tryFinally_clears unsuppressed_if : bridge.

(** Splits a goal about the flag along the structure of the method. *)
Ltac flag :=
  repeat match goal with
    | |- keepsFlag (ret _) => apply keepsFlag_ret
    | |- keepsFlag (throw _) => apply keepsFlag_throw
    | |- keepsFlag (lift _) => apply keepsFlag_lift
    | |- keepsFlag get => apply keepsFlag_get
    | |- keepsFlag (send _ _) => apply keepsFlag_send
    | |- keepsFlag (callModel _ _) => apply keepsFlag_callModel
    | |- keepsFlag openDevTools => apply keepsFlag_openDevTools
    | |- keepsFlag (bind _ _) => apply keepsFlag_bind; [| intros ?]
    | |- keepsFlag (match ?x with _ => _ end) => destruct x
    | |- unsuppressed (tryFinally _ (setSuppressBreakpointSync false)) =>
        apply unsuppressed_tryFinally_clears
    | |- unsuppressed (bind _ _) => apply unsuppressed_bind; [| intros ?]
    | |- unsuppressed (match ?x with _ => _ end) => destruct x
    | |- unsuppressed _ => apply keepsFlag_unsuppressed
    end.

Ltac unfold_methods :=
  unfold _handleIpcMessage, _bindBreakpoint, _removeBreakpoint,
    _handleDebuggerPaused, _handleStopThreadSwitch, _handleStopThreadUpdate,
    _handleDebuggerResumed, _handleLoaderBreakpointResumed,
    _handleClearInterface, _setSelectedCallFrameLine, _openSourceLocation,
    _handleExpressionEvaluationResponse, _handleGetPropertiesResponse,
    _handleCallstackUpdate, _handleScopesUpdate, _handleThreadsUpdate,
    _handleThreadUpdate, _updateDebuggerSettings, _sendAllBreakpoints,
    _syncDebuggerState, _handleUserBreakpointChange, selectThread,
    sendEvaluationCommand, setPauseOnException, setPauseOnCaughtException,
    setSingleThreadStepping, setSelectedCallFrameIndex, triggerAction,
    runToLocation, continue, stepOver, stepInto, stepOut.

Section BridgeInvariant.

Context {Model : Type} `{DebuggerModel Model}.
Variable uriToNuclideUri : JsValue -> JsError + option string.
Variable nuclideUriToUri : string -> string.
Variable openDevToolsOnDebuggerStart : bool.

Lemma unsuppressed_bindBreakpoint breakpoint resolved :
  unsuppressed (_bindBreakpoint (Model := Model) uriToNuclideUri nuclideUriToUri
                  breakpoint resolved).
Proof. unfold_methods; flag. Qed.

Lemma unsuppressed_removeBreakpoint breakpoint :
  unsuppressed (_removeBreakpoint (Model := Model) uriToNuclideUri nuclideUriToUri
                  breakpoint).
Proof. unfold_methods; flag. Qed.

Lemma unsuppressed_handleIpcMessage event :
  unsuppressed (_handleIpcMessage (Model := Model) uriToNuclideUri nuclideUriToUri
                  openDevToolsOnDebuggerStart event).
Proof. unfold_methods; flag. Qed.

Lemma unsuppressed_run op :
  unsuppressed (run (Model := Model) uriToNuclideUri nuclideUriToUri
                  openDevToolsOnDebuggerStart op).
Proof.
  destruct op; simpl; try apply unsuppressed_handleIpcMessage;
    unfold_methods; flag.
Qed.

(** Between two operations the flag is down. *)
Lemma reachable_unsuppressed (s : Bridge Model) :
  reachable uriToNuclideUri nuclideUriToUri openDevToolsOnDebuggerStart s ->
  _suppressBreakpointSync s = false.
Proof.
  induction 1 as [m | s op _ IH | s m w _ IH]; simpl.
  - reflexivity.
  - apply unsuppressed_run, IH.
  - exact IH.
Qed.

End BridgeInvariant.

(** ** Proofs: [parseInt] *)

Lemma digit_is_plain (c : ascii) :
  isDigit c = true ->
  isStrWhiteSpaceChar c = false /\ c <> "-"%char /\ c <> "+"%char.
Proof.
  destruct c as [[] [] [] [] [] [] [] []]; intros Hd;
    try discriminate Hd; repeat split; discriminate.
Qed.

Lemma isDigit_digitOf (c : ascii) :
  isDigit c = true -> exists d, digitOf c = Some d.
Proof. unfold isDigit; destruct (digitOf c) as [d |]; [eauto | discriminate]. Qed.

Lemma digitsPrefix_numeral (ds rest : string) (a : Z) :
  allDigits ds = true -> startsWithDigit rest = false ->
  digitsPrefix (Some a) (ds ++ rest) = Some (decimalFrom a ds).
Proof.
  revert a; induction ds as [| c ds IH]; intros a Hds Hrest; simpl.
  - destruct rest as [| c r]; simpl in *; [reflexivity |].
    unfold isDigit in Hrest; destruct (digitOf c); [discriminate | reflexivity].
  - simpl in Hds; apply andb_prop in Hds; destruct Hds as [Hc Hds].
    destruct (isDigit_digitOf c Hc) as [d ->].
    apply IH; assumption.
Qed.


Example parseInt10_examples :
  parseInt10 "42" = Some 42
  /\ parseInt10 "abc" = None
  /\ parseInt10 "42abc" = Some 42
  /\ parseInt10 "  -17px" = Some (-17)
  /\ parseInt10 "+8" = Some 8
  /\ parseInt10 "0x1f" = Some 0
  /\ parseInt10 "-" = None
  /\ parseInt10 "" = None.
Proof. repeat split. Qed.

(** ** Proofs: what the handlers compute *)

Section BridgeEquations.

Context {Model : Type} `{DebuggerModel Model}.
Variable uriToNuclideUri : JsValue -> JsError + option string.
Variable nuclideUriToUri : string -> string.
Variable openDevToolsOnDebuggerStart : bool.

Local Abbreviation handle :=
  (_handleIpcMessage uriToNuclideUri nuclideUriToUri openDevToolsOnDebuggerStart).

(** [try { flag = true; call } finally { flag = false }], in one step: the
    call is made, the flag is down, and an exception of the call leaves the
    block. *)
Lemma guarded_call_eq (c : ModelCall) (s : Bridge Model) :
  tryFinally
    (setSuppressBreakpointSync true ;; callModel nuclideUriToUri c)
    (setSuppressBreakpointSync false) s
  = let s' :=
      stateOf (setSuppressBreakpointSync false (afterCall nuclideUriToUri c s)) in
    match raised (perform c (_debuggerModel s)) with
    | Some e => Abrupt e s'
    | None => Normal tt s'
    end.
Proof.
  unfold tryFinally.
  assert (E : (setSuppressBreakpointSync true ;; callModel nuclideUriToUri c) s
              = callModel nuclideUriToUri c
                  (stateOf (setSuppressBreakpointSync true s)))
    by reflexivity.
  rewrite E, callModel_eq; simpl.
  destruct (raised (perform c (_debuggerModel s))); reflexivity.
Qed.

(** What [_bindBreakpoint] and [_removeBreakpoint] leave behind when the
    resolver answers a path: the state the model call leaves, with the
    flag down. *)
Lemma stateOf_guarded_call (c : ModelCall) (s : Bridge Model) :
  let s' :=
    stateOf (tryFinally
               (setSuppressBreakpointSync true ;; callModel nuclideUriToUri c)
               (setSuppressBreakpointSync false) s) in
  modelCalls s' = modelCalls s ++ [c]
  /\ _debuggerModel s' = newModel (perform c (_debuggerModel s))
  /\ _commandDispatcher s'
     = _commandDispatcher s
       ++ map (userChangeCommand nuclideUriToUri)
              (emitted (perform c (_debuggerModel s)))
  /\ _suppressBreakpointSync s' = false.
Proof.
  assert (E : (setSuppressBreakpointSync true ;; callModel nuclideUriToUri c) s
              = callModel nuclideUriToUri c
                  (stateOf (setSuppressBreakpointSync true s)))
    by reflexivity.
  simpl; rewrite stateOf_tryFinally, E, stateOf_callModel; repeat split.
Qed.

Lemma bindBreakpoint_eq (breakpoint : JsValue) (resolved : bool) (s : Bridge Model) :
  nullish breakpoint = false ->
  _bindBreakpoint uriToNuclideUri nuclideUriToUri breakpoint resolved s
  = match uriToNuclideUri (field breakpoint "sourceURL") with
    | inl e => Abrupt e s
    | inr path =>
        match truthyPath path with
        | Some p =>
            tryFinally
              (setSuppressBreakpointSync true ;;
               callModel nuclideUriToUri
                 (bindBreakpointIPC p (field breakpoint "lineNumber")
                    (field breakpoint "condition") (field breakpoint "enabled")
                    resolved))
              (setSuppressBreakpointSync false) s
        | None => Normal tt s
        end
    end.
Proof.
  intros Hb; destruct breakpoint; try discriminate Hb;
    unfold _bindBreakpoint, field, bind; simpl;
    match goal with
    | |- context [uriToNuclideUri ?u] =>
        destruct (uriToNuclideUri u) as [e | path]; simpl;
        [| destruct (truthyPath path)]
    end; reflexivity.
Qed.

Lemma removeBreakpoint_eq (breakpoint : JsValue) (s : Bridge Model) :
  nullish breakpoint = false ->
  _removeBreakpoint uriToNuclideUri nuclideUriToUri breakpoint s
  = match uriToNuclideUri (field breakpoint "sourceURL") with
    | inl e => Abrupt e s
    | inr path =>
        match truthyPath path with
        | Some p =>
            tryFinally
              (setSuppressBreakpointSync true ;;
               callModel nuclideUriToUri
                 (deleteBreakpointIPC p (field breakpoint "lineNumber")))
              (setSuppressBreakpointSync false) s
        | None => Normal tt s
        end
    end.
Proof.
  intros Hb; destruct breakpoint; try discriminate Hb;
    unfold _removeBreakpoint, field, bind; simpl;
    match goal with
    | |- context [uriToNuclideUri ?u] =>
        destruct (uriToNuclideUri u) as [e | path]; simpl;
        [| destruct (truthyPath path)]
    end; reflexivity.
Qed.

Lemma handle_BreakpointAdded (payload : JsValue) (s : Bridge Model) :
  nullish payload = false ->
  handle (notification "BreakpointAdded" payload) s
  = _bindBreakpoint uriToNuclideUri nuclideUriToUri payload
      (strictEqTrue (field payload "resolved")) s.
Proof. intros Hp; destruct payload; try discriminate Hp; reflexivity. Qed.

Lemma handle_BreakpointRemoved (payload : JsValue) (s : Bridge Model) :
  handle (notification "BreakpointRemoved" payload) s
  = _removeBreakpoint uriToNuclideUri nuclideUriToUri payload s.
Proof. reflexivity. Qed.

(** [_handleDebuggerPaused] makes the calls [pausedCalls] lists, one after
    the other, until one of them throws. *)
Lemma handleStopThreadSwitch_eq (options : JsValue) (s : Bridge Model) :
  _handleStopThreadSwitch nuclideUriToUri options s
  = if nullish options then Normal tt s
    else callModel nuclideUriToUri
           (notifyThreadSwitch (field options "sourceURL")
              (field options "lineNumber") (field options "message")) s.
Proof. destruct options; reflexivity. Qed.

Lemma forEach_callModel_cons (c : ModelCall) (cs : list ModelCall) (s : Bridge Model) :
  forEach (callModel nuclideUriToUri) (c :: cs) s
  = match raised (perform c (_debuggerModel s)) with
    | Some e => Abrupt e (afterCall nuclideUriToUri c s)
    | None => forEach (callModel nuclideUriToUri) cs (afterCall nuclideUriToUri c s)
    end.
Proof.
  simpl; unfold bind; rewrite callModel_eq.
  destruct (raised (perform c (_debuggerModel s))); reflexivity.
Qed.

Lemma callModel_forEach (c : ModelCall) (s : Bridge Model) :
  callModel nuclideUriToUri c s = forEach (callModel nuclideUriToUri) [c] s.
Proof.
  rewrite forEach_callModel_cons, callModel_eq.
  destruct (raised (perform c (_debuggerModel s))); reflexivity.
Qed.

Lemma forEach_app {A} (f : A -> Eff (Bridge Model) unit) (xs ys : list A)
  (s : Bridge Model) :
  forEach f (xs ++ ys) s = (forEach f xs ;; forEach f ys) s.
Proof.
  revert s; induction xs as [| x xs IH]; intros s; simpl.
  - reflexivity.
  - unfold bind; destruct (f x s) as [[] s' | e s']; [apply IH | reflexivity].
Qed.

Lemma handleDebuggerPaused_eq (payload : JsValue) (s : Bridge Model) :
  _handleDebuggerPaused nuclideUriToUri payload s
  = forEach (callModel nuclideUriToUri) (pausedCalls payload) s.
Proof.
  unfold _handleDebuggerPaused, pausedCalls, _handleStopThreadUpdate.
  rewrite forEach_callModel_cons.
  unfold bind at 1; rewrite callModel_eq.
  destruct (raised (perform (setDebuggerMode PAUSED) (_debuggerModel s)));
    [reflexivity |].
  generalize (afterCall nuclideUriToUri (setDebuggerMode PAUSED) s); intros s1.
  destruct (nullish payload) eqn:Hp; simpl; [reflexivity |].
  rewrite forEach_app.
  assert (E1 : lift (getProp payload "stopThreadId")
               = (ret (field payload "stopThreadId") : Eff (Bridge Model) JsValue))
    by (unfold field; destruct payload; try discriminate Hp; reflexivity).
  assert (E2 : lift (getProp payload "threadSwitchNotification")
               = (ret (field payload "threadSwitchNotification")
                  : Eff (Bridge Model) JsValue))
    by (unfold field; destruct payload; try discriminate Hp; reflexivity).
  rewrite E1, E2; unfold bind at 1; unfold ret at 1.
  unfold bind at 1 3.
  assert (T : forall s' : Bridge Model,
             (threadSwitchNotification <-
                ret (field payload "threadSwitchNotification") ;;
              _handleStopThreadSwitch nuclideUriToUri threadSwitchNotification) s'
             = forEach (callModel nuclideUriToUri)
                 (if nullish (field payload "threadSwitchNotification")
                  then []
                  else [notifyThreadSwitch
                          (field (field payload "threadSwitchNotification") "sourceURL")
                          (field (field payload "threadSwitchNotification") "lineNumber")
                          (field (field payload "threadSwitchNotification") "message")])
                 s').
  { intros s'; unfold bind, ret; rewrite handleStopThreadSwitch_eq.
    destruct (nullish (field payload "threadSwitchNotification"));
      [reflexivity | apply callModel_forEach]. }
  destruct (nullish (field payload "stopThreadId")); cbn [negb].
  - apply T.
  - rewrite <- callModel_forEach.
    destruct (callModel nuclideUriToUri
                (updateStopThread (field payload "stopThreadId")) s1)
      as [[] s2 | e s2]; [apply T | reflexivity].
Qed.

(** A run of calls records a prefix of them, all of them when it returns. *)
Lemma forEach_callModel_calls (cs : list ModelCall) (s : Bridge Model) :
  exists n,
    modelCalls (stateOf (forEach (callModel nuclideUriToUri) cs s))
    = modelCalls s ++ firstn n cs
    /\ (isAbrupt (forEach (callModel nuclideUriToUri) cs s) = false ->
        firstn n cs = cs).
Proof.
  revert s; induction cs as [| c cs IH]; intros s.
  - exists 0%nat; simpl; rewrite app_nil_r; auto.
  - rewrite forEach_callModel_cons.
    destruct (raised (perform c (_debuggerModel s))).
    + exists 1%nat; simpl; split; [reflexivity | discriminate].
    + destruct (IH (afterCall nuclideUriToUri c s)) as [n [E F]].
      exists (S n); rewrite E; simpl; rewrite <- app_assoc; split.
      * reflexivity.
      * intros Hn; rewrite (F Hn); reflexivity.
Qed.

Lemma In_firstn {A} (x : A) (n : nat) (l : list A) :
  In x (firstn n l) -> In x l.
Proof.
  revert l; induction n as [| n IH]; intros [| y l]; simpl; try tauto.
  intros [E | I]; auto.
Qed.

(** The first call of a run is always made. *)
Lemma forEach_callModel_first (c : ModelCall) (cs : list ModelCall)
  (s : Bridge Model) :
  exists made,
    modelCalls (stateOf (forEach (callModel nuclideUriToUri) (c :: cs) s))
    = modelCalls s ++ c :: made
    /\ (forall x, In x made -> In x cs)
    /\ (isAbrupt (forEach (callModel nuclideUriToUri) (c :: cs) s) = false ->
        made = cs).
Proof.
  rewrite forEach_callModel_cons.
  destruct (raised (perform c (_debuggerModel s))).
  - exists []; simpl; repeat split; [contradiction | discriminate].
  - destruct (forEach_callModel_calls cs (afterCall nuclideUriToUri c s))
      as [n [E F]].
    exists (firstn n cs); rewrite E; simpl; rewrite <- app_assoc.
    split; [reflexivity | split; [intros x; apply In_firstn | exact F]].
Qed.

Lemma handle_NonLoaderDebuggerPaused (payload : JsValue) (s : Bridge Model) :
  handle (notification "NonLoaderDebuggerPaused" payload) s
  = _handleDebuggerPaused nuclideUriToUri payload s.
Proof. reflexivity. Qed.

Lemma strictEqString_false (v : JsValue) (lit : string) :
  v <> JsString lit -> strictEqString v lit = false.
Proof.
  destruct v; simpl; try reflexivity.
  intros Hne; destruct (String.eqb_spec s lit); [subst; contradiction | reflexivity].
Qed.

End BridgeEquations.

(** ** The claims about the Bridge *)

Section BridgeClaims.

Context {Model : Type} `{DebuggerModel Model}.
Variable uriToNuclideUri : JsValue -> JsError + option string.
Variable nuclideUriToUri : string -> string.
Variable openDevToolsOnDebuggerStart : bool.

Local Abbreviation handle :=
  (_handleIpcMessage uriToNuclideUri nuclideUriToUri openDevToolsOnDebuggerStart).

(** C1, as amended: every user change delivered to the breakpoint-change
    listener is forwarded as exactly one command, named by the action of the
    change and carrying [{sourceURL, lineNumber, condition, enabled}],
    whether [_suppressBreakpointSync] is set or not; nothing else changes,
    the flag included.  So a run of changes, delivered one after the other,
    leaves one command per change, in the order of the changes. *)
Theorem user_change_forwarded_once
  (params : BreakpointUserChangeArgType)
  (changes : list BreakpointUserChangeArgType) (s : Bridge Model) :
  let command (params : BreakpointUserChangeArgType) :=
    {| channel := action params;
       args :=
         [ JsObject
             [ ("sourceURL",
                JsString (nuclideUriToUri (path (breakpoint params))));
               ("lineNumber", JsNumber (line (breakpoint params)));
               ("condition", JsString (condition (breakpoint params)));
               ("enabled", JsBool (enabled (breakpoint params))) ] ] |} in
  _handleUserBreakpointChange nuclideUriToUri params s
  = Normal tt (afterSending s [command params])
  /\ _suppressBreakpointSync (afterSending s [command params])
     = _suppressBreakpointSync s
  /\ forEach (_handleUserBreakpointChange nuclideUriToUri) changes s
     = Normal tt (afterSending s (map command changes))
  /\ List.length
       (_commandDispatcher
          (stateOf (forEach (_handleUserBreakpointChange nuclideUriToUri)
                      changes s)))
     = (List.length (_commandDispatcher s) + List.length changes)%nat.
Proof.
  simpl; split; [reflexivity | split; [reflexivity | split]].
  - apply forEach_listener.
  - rewrite forEach_listener; simpl.
    rewrite length_app, length_map; reflexivity.
Qed.

(** C2: after [_bindBreakpoint] and after [_removeBreakpoint], whether they
    return or let an exception of the model mutation through, the flag
    [_suppressBreakpointSync] is [false] again; so it is after every
    inbound message.  When [bindBreakpointIPC] or [deleteBreakpointIPC]
    throws, the exception leaves the handler, and the flag is [false]. *)
Theorem suppression_flag_released
  (breakpoint : JsValue) (resolved : bool) (event : Message) (s : Bridge Model) :
  _suppressBreakpointSync s = false ->
  _suppressBreakpointSync
    (stateOf (_bindBreakpoint uriToNuclideUri nuclideUriToUri breakpoint resolved s))
  = false
  /\ _suppressBreakpointSync
       (stateOf (_removeBreakpoint uriToNuclideUri nuclideUriToUri breakpoint s))
     = false
  /\ _suppressBreakpointSync (stateOf (handle event s)) = false
  /\ (forall p e,
        nullish breakpoint = false ->
        uriToNuclideUri (field breakpoint "sourceURL") = inr (Some p) ->
        p <> "" ->
        (raised
           (perform
              (bindBreakpointIPC p (field breakpoint "lineNumber")
                 (field breakpoint "condition") (field breakpoint "enabled")
                 resolved)
              (_debuggerModel s)) = Some e ->
         exists s',
           _bindBreakpoint uriToNuclideUri nuclideUriToUri breakpoint resolved s
           = Abrupt e s'
           /\ _suppressBreakpointSync s' = false)
        /\ (raised
              (perform (deleteBreakpointIPC p (field breakpoint "lineNumber"))
                 (_debuggerModel s)) = Some e ->
            exists s',
              _removeBreakpoint uriToNuclideUri nuclideUriToUri breakpoint s
              = Abrupt e s'
              /\ _suppressBreakpointSync s' = false)).
Proof.
  intros Hs; split; [| split; [| split]].
  - apply unsuppressed_bindBreakpoint, Hs.
  - apply unsuppressed_removeBreakpoint, Hs.
  - apply unsuppressed_handleIpcMessage, Hs.
  - intros p e Hb Hu Hne.
    assert (Hp : truthyPath (Some p) = Some p)
      by (destruct p; [contradiction | reflexivity]).
    split; intros Hraise.
    + rewrite bindBreakpoint_eq, Hu, Hp, guarded_call_eq by exact Hb.
      simpl; rewrite Hraise; eexists; split; reflexivity.
    + rewrite removeBreakpoint_eq, Hu, Hp, guarded_call_eq by exact Hb.
      simpl; rewrite Hraise; eexists; split; reflexivity.
Qed.

(** C3: on [{channel: "notification", args: ["ready", ...]}] the Bridge
    hands to the dispatcher, in this order, [UpdateSettings] with the
    serialized settings, [SyncBreakpoints] with the array of all breakpoints
    of the store, then [setPauseOnException], [setPauseOnCaughtException]
    and [setSingleThreadStepping] with the flags of the store; it returns,
    and the model is neither called nor changed. *)
Theorem ready_handshake_commands (rest : list JsValue) (s : Bridge Model) :
  reachable uriToNuclideUri nuclideUriToUri openDevToolsOnDebuggerStart s ->
  let c := handle {| channel := "notification"; args := JsString "ready" :: rest |} s in
  let store := _debuggerModel s in
  isAbrupt c = false
  /\ _commandDispatcher (stateOf c)
     = _commandDispatcher s
       ++ [ {| channel := "UpdateSettings"; args := [getSerializedData store] |};
            {| channel := "SyncBreakpoints";
               args := [JsArray (map (ipcBreakpoint nuclideUriToUri)
                                     (getAllBreakpoints store))] |};
            {| channel := "setPauseOnException";
               args := [JsBool (getTogglePauseOnException store)] |};
            {| channel := "setPauseOnCaughtException";
               args := [JsBool (getTogglePauseOnCaughtException store)] |};
            {| channel := "setSingleThreadStepping";
               args := [JsBool (getEnableSingleThreadStepping store)] |} ]
  /\ _debuggerModel (stateOf c) = _debuggerModel s
  /\ modelCalls (stateOf c) = modelCalls s.
Proof.
  intros Hr; apply reachable_unsuppressed in Hr.
  unfold_methods; unfold openDevTools, bind, get, send, modify, ret; simpl.
  destruct openDevToolsOnDebuggerStart; [destruct (_webview s) |];
    simpl; rewrite Hr; simpl; rewrite <- !app_assoc; simpl; auto.
Qed.

(** C4: [selectThread("42")] hands [selectThread] with ["42"] to the
    dispatcher and calls [updateSelectedThread(42)] on the model, which sets
    the selected-thread field to [42]; [selectThread("abc")] hands the
    command to the dispatcher and does nothing else: the model is not
    called and keeps its selected thread. *)
Theorem selectThread_dual_write (s : Bridge Model) :
  let r := perform (updateSelectedThread 42) (_debuggerModel s) in
  let s42 := stateOf (selectThread nuclideUriToUri "42" s) in
  (_commandDispatcher s42
   = _commandDispatcher s
     ++ {| channel := "selectThread"; args := [JsString "42"] |}
        :: map (userChangeCommand nuclideUriToUri) (emitted r)
   /\ modelCalls s42 = modelCalls s ++ [updateSelectedThread 42]
   /\ _debuggerModel s42 = newModel r)
  /\ selectThread nuclideUriToUri "abc" s
     = Normal tt
         (afterSending s [{| channel := "selectThread"; args := [JsString "abc"] |}])
  /\ forall sr : Bridge RefModel,
       selectedThread
         (_debuggerModel (stateOf (selectThread nuclideUriToUri "42" sr)))
       = Some 42
       /\ _commandDispatcher (stateOf (selectThread nuclideUriToUri "42" sr))
          = _commandDispatcher sr
            ++ [{| channel := "selectThread"; args := [JsString "42"] |}]
       /\ _debuggerModel (stateOf (selectThread nuclideUriToUri "abc" sr))
          = _debuggerModel sr.
Proof.
  simpl; split; [split; [| split] | split; [| intros sr; split; [| split]]].
  - unfold selectThread; simpl.
    erewrite bind_normal by apply send_eq.
    rewrite stateOf_callModel; unfold afterCall; simpl.
    rewrite <- app_assoc; reflexivity.
  - unfold selectThread; simpl.
    erewrite bind_normal by apply send_eq.
    rewrite stateOf_callModel; reflexivity.
  - unfold selectThread; simpl.
    erewrite bind_normal by apply send_eq.
    rewrite stateOf_callModel; reflexivity.
  - reflexivity.
  - reflexivity.
  - unfold selectThread, bind, send, modify, callModel, get, ret; simpl.
    reflexivity.
  - reflexivity.
Qed.

(** C5: [_sendAllBreakpoints] is gated by the flag: with
    [_suppressBreakpointSync] set it sends nothing; with the flag down it
    sends exactly one [SyncBreakpoints] command whose array has one
    [{sourceURL, lineNumber, condition, enabled}] entry per breakpoint of
    the store.  So a [ready] that arrives with the flag set pushes the
    settings and the three pause flags, and no breakpoints. *)
Theorem sendAllBreakpoints_gated (s : Bridge Model) :
  let entry (bp : FileLineBreakpoint) :=
    JsObject [ ("sourceURL", JsString (nuclideUriToUri (path bp)));
               ("lineNumber", JsNumber (line bp));
               ("condition", JsString (condition bp));
               ("enabled", JsBool (enabled bp)) ] in
  let store := _debuggerModel s in
  (_suppressBreakpointSync s = true ->
     _sendAllBreakpoints nuclideUriToUri s = Normal tt s
     /\ forall rest,
          _commandDispatcher
            (stateOf (handle {| channel := "notification";
                                args := JsString "ready" :: rest |} s))
          = _commandDispatcher s
            ++ [ {| channel := "UpdateSettings"; args := [getSerializedData store] |};
                 {| channel := "setPauseOnException";
                    args := [JsBool (getTogglePauseOnException store)] |};
                 {| channel := "setPauseOnCaughtException";
                    args := [JsBool (getTogglePauseOnCaughtException store)] |};
                 {| channel := "setSingleThreadStepping";
                    args := [JsBool (getEnableSingleThreadStepping store)] |} ])
  /\ (_suppressBreakpointSync s = false ->
        _sendAllBreakpoints nuclideUriToUri s
        = Normal tt
            (afterSending s
               [ {| channel := "SyncBreakpoints";
                    args := [JsArray (map entry (getAllBreakpoints store))] |} ])
        /\ List.length (map entry (getAllBreakpoints store))
           = List.length (getAllBreakpoints store)).
Proof.
  simpl; split; intros Hs.
  - split.
    + unfold _sendAllBreakpoints, bind, get; rewrite Hs; reflexivity.
    + intros rest.
      unfold_methods; unfold openDevTools, bind, get, send, modify, ret; simpl.
      destruct openDevToolsOnDebuggerStart; [destruct (_webview s) |];
        simpl; rewrite Hs; simpl; rewrite <- !app_assoc; reflexivity.
  - split.
    + unfold _sendAllBreakpoints, bind, get; rewrite Hs; reflexivity.
    + apply length_map.
Qed.

(** C6, as amended: the Bridge applies the breakpoint of a
    [BreakpointAdded] event exactly when [nuclideUri.uriToNuclideUri]
    answers a path for its [sourceURL] that is not empty, whatever the path
    is: the Bridge has no test of locality of its own, and a remote URI the
    resolver answers is bound like the path of a local file.  It then calls
    [bindBreakpointIPC] with that path, the [lineNumber], [condition] and
    [enabled] of the payload, and [true] as the resolved argument exactly
    when [payload.resolved] is the boolean [true]; a [BreakpointRemoved]
    event calls [deleteBreakpointIPC(path, lineNumber)] under the same
    condition.  When the resolver answers [null] or the empty string, the
    event changes nothing and the handler returns; when the resolver
    throws, or the event has no payload, the exception leaves the handler
    and nothing was changed. *)
Theorem breakpoint_events_follow_resolver (payload : JsValue)
  (rest : list JsValue) (s : Bridge Model) :
  let event (name : string) :=
    {| channel := "notification"; args := JsString name :: payload :: rest |} in
  let added := handle (event "BreakpointAdded") s in
  let removed := handle (event "BreakpointRemoved") s in
  let sourceURL := field payload "sourceURL" in
  let lineNumber := field payload "lineNumber" in
  let resolved :=
    match field payload "resolved" with
    | JsBool true => true
    | _ => false
    end in
  (nullish payload = true ->
   added = Abrupt TypeError s /\ removed = Abrupt TypeError s)
  /\ (nullish payload = false ->
      (forall p,
          uriToNuclideUri sourceURL = inr (Some p) -> p <> "" ->
          let bindCall :=
            bindBreakpointIPC p lineNumber (field payload "condition")
              (field payload "enabled") resolved in
          let deleteCall := deleteBreakpointIPC p lineNumber in
          modelCalls (stateOf added) = modelCalls s ++ [bindCall]
          /\ _debuggerModel (stateOf added)
             = newModel (perform bindCall (_debuggerModel s))
          /\ modelCalls (stateOf removed) = modelCalls s ++ [deleteCall]
          /\ _debuggerModel (stateOf removed)
             = newModel (perform deleteCall (_debuggerModel s)))
      /\ (uriToNuclideUri sourceURL = inr None
          \/ uriToNuclideUri sourceURL = inr (Some "") ->
          added = Normal tt s /\ removed = Normal tt s)
      /\ (forall e,
            uriToNuclideUri sourceURL = inl e ->
            added = Abrupt e s /\ removed = Abrupt e s)).
Proof.
  cbv beta zeta.
  change (handle {| channel := "notification";
                    args := JsString "BreakpointAdded" :: payload :: rest |} s)
    with (handle (notification "BreakpointAdded" payload) s).
  change (handle {| channel := "notification";
                    args := JsString "BreakpointRemoved" :: payload :: rest |} s)
    with (handle (notification "BreakpointRemoved" payload) s).
  split.
  - intros Hp; destruct payload; try discriminate Hp; split; reflexivity.
  - intros Hp.
    rewrite handle_BreakpointAdded, handle_BreakpointRemoved by exact Hp.
    rewrite bindBreakpoint_eq, removeBreakpoint_eq by exact Hp.
    split; [| split].
    + intros p Hu Hne; rewrite Hu.
      assert (T : truthyPath (Some p) = Some p)
        by (destruct p; [contradiction | reflexivity]).
      rewrite T.
      assert (R : strictEqTrue (field payload "resolved")
                  = match field payload "resolved" with
                    | JsBool true => true
                    | _ => false
                    end) by reflexivity.
      rewrite <- R.
      repeat split; apply stateOf_guarded_call.
    + intros [Hu | Hu]; rewrite Hu; split; reflexivity.
    + intros e Hu; rewrite Hu; split; reflexivity.
Qed.

(** C7: on [NonLoaderDebuggerPaused] the Bridge calls
    [setDebuggerMode(PAUSED)] first; it calls [updateStopThread] only for a
    payload with a [stopThreadId] other than [null] and [undefined], and
    with that id; it calls [notifyThreadSwitch] only for a payload with a
    [threadSwitchNotification] other than [null] and [undefined]; when no
    call throws, these are all the calls it makes.  On the model, the mode
    becomes [PAUSED], the selected stop thread becomes the [stopThreadId] if
    there is one, and a notice is added if there is a notification: with
    [{stopThreadId: 7, threadSwitchNotification: null}] the mode is
    [PAUSED], the stop thread [7], and no notice is added. *)
Theorem debugger_paused_updates (payload : JsValue) (s : Bridge Model) :
  let paused := notification "NonLoaderDebuggerPaused" payload in
  (exists made,
      modelCalls (stateOf (handle paused s))
      = modelCalls s ++ setDebuggerMode PAUSED :: made
      /\ (forall id, In (updateStopThread id) made ->
            nullish payload = false /\ id = field payload "stopThreadId"
            /\ nullish id = false)
      /\ (forall u l m, In (notifyThreadSwitch u l m) made ->
            nullish payload = false
            /\ nullish (field payload "threadSwitchNotification") = false)
      /\ (isAbrupt (handle paused s) = false ->
            setDebuggerMode PAUSED :: made = pausedCalls payload))
  /\ (forall sr : Bridge RefModel,
        let c := handle paused sr in
        let notice := field payload "threadSwitchNotification" in
        isAbrupt c = false
        /\ debuggerMode (_debuggerModel (stateOf c)) = PAUSED
        /\ selectedStopThread (_debuggerModel (stateOf c))
           = (if nullish payload || nullish (field payload "stopThreadId")
              then selectedStopThread (_debuggerModel sr)
              else field payload "stopThreadId")
        /\ threadSwitchNotices (_debuggerModel (stateOf c))
           = (if nullish payload || nullish notice
              then threadSwitchNotices (_debuggerModel sr)
              else threadSwitchNotices (_debuggerModel sr)
                   ++ [(field notice "sourceURL", field notice "lineNumber",
                        field notice "message")]))
  /\ (forall sr : Bridge RefModel,
        let c :=
          handle
            (notification "NonLoaderDebuggerPaused"
               (JsObject [ ("stopThreadId", JsNumber 7);
                           ("threadSwitchNotification", JsNull) ])) sr in
        debuggerMode (_debuggerModel (stateOf c)) = PAUSED
        /\ selectedStopThread (_debuggerModel (stateOf c)) = JsNumber 7
        /\ threadSwitchNotices (_debuggerModel (stateOf c))
           = threadSwitchNotices (_debuggerModel sr)
        /\ modelCalls (stateOf c)
           = modelCalls sr
             ++ [setDebuggerMode PAUSED; updateStopThread (JsNumber 7)]).
Proof.
  simpl; split; [| split].
  - rewrite handle_NonLoaderDebuggerPaused, handleDebuggerPaused_eq.
    unfold pausedCalls.
    match goal with
    | |- context [forEach _ (?c :: ?cs) s] =>
        destruct (forEach_callModel_first nuclideUriToUri c cs s)
          as [made [E [R F]]]
    end.
    exists made; split; [exact E | split; [| split]].
    + intros id I. apply R in I.
      destruct (nullish payload); [contradiction |].
      apply in_app_or in I.
      destruct (nullish (field payload "stopThreadId")) eqn:Hid;
        destruct (nullish (field payload "threadSwitchNotification"));
        simpl in I; try intuition discriminate.
      * destruct I as [[I | []] | []]; inversion I; subst; auto.
      * destruct I as [[I | []] | [I | []]]; try discriminate I;
          inversion I; subst; auto.
    + intros u l m I. apply R in I.
      destruct (nullish payload); [contradiction |].
      apply in_app_or in I.
      destruct (nullish (field payload "stopThreadId"));
        destruct (nullish (field payload "threadSwitchNotification"));
        simpl in I; intuition discriminate.
    + intros Hn; rewrite (F Hn); reflexivity.
  - intros sr.
    rewrite handle_NonLoaderDebuggerPaused, handleDebuggerPaused_eq.
    unfold pausedCalls.
    destruct (nullish payload); simpl orb; cbv iota.
    + rewrite forEach_callModel_cons; simpl; auto.
    + destruct (nullish (field payload "stopThreadId"));
        destruct (nullish (field payload "threadSwitchNotification"));
        simpl app; rewrite !forEach_callModel_cons; simpl; auto.
  - intros sr; repeat split.
    unfold _handleIpcMessage, _handleDebuggerPaused, bind, callModel, get,
      modify, ret; simpl.
    rewrite <- app_assoc; reflexivity.
Qed.

(** C8: a message whose channel is not ["notification"], and a
    ["notification"] whose [args[0]] is none of the fifteen handled event
    names, is ignored: the handler returns and leaves the state as it was,
    so no model call is made and no command is sent. *)
Theorem unhandled_messages_ignored (event : Message) (s : Bridge Model) :
  channel event <> "notification"
  \/ (forall name, In name handledEvents -> index (args event) 0 <> JsString name) ->
  handle event s = Normal tt s.
Proof.
  intros Hu; unfold _handleIpcMessage.
  destruct (String.eqb_spec (channel event) "notification") as [Hc | Hc];
    [| reflexivity].
  destruct Hu as [Hu | Hu]; [contradiction |].
  rewrite !strictEqString_false
    by (apply Hu; simpl; repeat first [left; reflexivity | right]).
  reflexivity.
Qed.


End BridgeClaims.

(** ** The claim about the outline *)

Section OutlineFacts.

Import Outline.

Variable offsetToPoint : string -> JsValue -> JsValue.

Lemma getProp_returns (v : JsValue) (k : string) :
  nullish v = false -> getProp v k = inr (field v k).
Proof. destruct v; intros Hv; try discriminate Hv; reflexivity. Qed.

Lemma meta_returns (docText : string) (props : list (string * JsValue)) :
  nullish (lookup "loc" props) = false ->
  exists m, meta offsetToPoint docText (JsObject props) = inr m.
Proof.
  intros Hloc; unfold meta; simpl.
  rewrite !(getProp_returns _ _ Hloc); simpl; eauto.
Qed.

Lemma concatMapLoop_returns (fn : JsValue -> Result JsValue)
  (items res : list JsValue) :
  (forall item, In item items -> exists x, fn item = inr x) ->
  exists out, concatMapLoop items fn res = inr out.
Proof.
  revert res; induction items as [| item items IH]; intros res Hfn; simpl.
  - eauto.
  - destruct (Hfn item (or_introl eq_refl)) as [x ->]; simpl.
    destruct x; apply IH; intros i Hi; apply Hfn; right; exact Hi.
Qed.

End OutlineFacts.

Section VisitFacts.

Import Outline.

Lemma lookup_In (key : string) (props : list (string * JsValue)) :
  lookup key props = JsUndefined
  \/ exists kv, In kv props /\ snd kv = lookup key props.
Proof.
  induction props as [| [k v] props IH]; simpl; [left; reflexivity |].
  destruct (String.eqb key k).
  - right; exists (k, v); split; [left; reflexivity | reflexivity].
  - destruct IH as [IH | [kv [Hin E]]]; [left; exact IH |].
    right; exists kv; split; [right; exact Hin | exact E].
Qed.

Lemma lookupVisited_map (f : JsValue -> Result Edit) (key : string)
  (props : list (string * JsValue)) :
  f JsUndefined = inr None ->
  lookupVisited key (map (fun kv => (fst kv, f (snd kv))) props)
  = f (lookup key props).
Proof.
  intros Hf; induction props as [| [k v] props IH]; simpl;
    [symmetry; exact Hf |].
  destruct (String.eqb key k); [reflexivity | exact IH].
Qed.

Lemma find_flag_map (g : JsValue -> bool) (key : string)
  (props : list (string * JsValue)) :
  g JsUndefined = true ->
  match find (fun child : string * bool => String.eqb key (fst child))
          (map (fun kv => (fst kv, g (snd kv))) props) with
  | Some child => snd child
  | None => true
  end = g (lookup key props).
Proof.
  intros Hg; induction props as [| [k v] props IH]; simpl;
    [symmetry; exact Hg |].
  destruct (String.eqb key k); [reflexivity | exact IH].
Qed.

Lemma wellFormed_eq (props : list (string * JsValue)) :
  wellFormed (JsObject props)
  = match lookup "kind" props with
    | JsString kind =>
        properKind kind
        && forallb (fun key => visitableChild (lookup key props))
             (QueryDocumentKeys kind)
        && (negb (buildsEntry kind) || negb (nullish (lookup "loc" props)))
        && (negb (String.eqb kind "SelectionSet")
            || match lookup "selections" props with
               | JsArray _ => true
               | _ => false
               end)
    | _ => false
    end.
Proof.
  cbn [wellFormed].
  destruct (lookup "kind" props) as [| | | | kind | |]; try reflexivity.
  do 3 f_equal.
  induction (QueryDocumentKeys kind) as [| key keys IH]; [reflexivity |].
  cbn [forallb]; rewrite IH; f_equal.
  apply (find_flag_map visitableChild key props); reflexivity.
Qed.

Lemma visitKeys_eq (f : JsValue -> Result Edit) (props : list (string * JsValue))
  (keys : list string) :
  f JsUndefined = inr None ->
  visitKeys (map (fun kv => (fst kv, f (snd kv))) props) keys
  = (fix children (keys : list string) : Result (list (string * JsValue)) :=
       match keys with
       | [] => inr []
       | key :: rest =>
           let* e := f (lookup key props) in
           let* tail := children rest in
           inr (match e with Some x => (key, x) :: tail | None => tail end)
       end) keys.
Proof.
  intros Hf; induction keys as [| key keys IH]; [reflexivity |].
  cbn [visitKeys]; rewrite lookupVisited_map, IH by exact Hf; reflexivity.
Qed.


Lemma lookup_assign_same (k : string) (v : JsValue)
  (props : list (string * JsValue)) :
  lookup k (assign k v props) = v.
Proof.
  induction props as [| [k' v'] props IH]; simpl.
  - rewrite String.eqb_refl; reflexivity.
  - destruct (String.eqb k k') eqn:E; simpl.
    + rewrite String.eqb_refl; reflexivity.
    + rewrite E; exact IH.
Qed.

Lemma lookup_assign_other (k k' : string) (v : JsValue)
  (props : list (string * JsValue)) :
  k <> k' -> lookup k (assign k' v props) = lookup k props.
Proof.
  intros Hk; apply String.eqb_neq in Hk.
  induction props as [| [k'' v''] props IH]; simpl.
  - rewrite Hk; reflexivity.
  - destruct (String.eqb k' k'') eqn:E; simpl.
    + apply String.eqb_eq in E; subst k''; rewrite Hk; reflexivity.
    + rewrite IH; reflexivity.
Qed.

Lemma lookup_applyEdits_other (k : string) (edits props : list (string * JsValue)) :
  (forall e, In e edits -> fst e <> k) ->
  lookup k (applyEdits edits props) = lookup k props.
Proof.
  unfold applyEdits; revert props.
  induction edits as [| e edits IH]; intros props He; [reflexivity |].
  cbn [fold_left]; rewrite IH by (intros e' Hin; apply He; right; exact Hin).
  apply lookup_assign_other.
  intros E; apply (He e (or_introl eq_refl)); symmetry; exact E.
Qed.

(** No node is visited under its location. *)
Lemma loc_not_visited (kind : string) : ~ In "loc" (QueryDocumentKeys kind).
Proof.
  unfold QueryDocumentKeys.
  destruct (find (fun entry => String.eqb kind (fst entry)) queryDocumentKeys)
    as [entry |] eqn:F; [| intros []].
  apply find_some in F; destruct F as [Hin _].
  assert (A : forallb (fun entry : string * list string =>
                         negb (existsb (String.eqb "loc") (snd entry)))
                queryDocumentKeys = true) by reflexivity.
  rewrite forallb_forall in A; specialize (A entry Hin).
  intros Hloc; apply negb_true_iff in A.
  assert (B : existsb (String.eqb "loc") (snd entry) = true)
    by (apply existsb_exists; exists "loc"; split;
        [exact Hloc | apply String.eqb_refl]).
  congruence.
Qed.

Lemma wellFormed_object (v : JsValue) :
  wellFormed v = true -> visitableChild v = true /\ nullish v = false.
Proof. destruct v; try discriminate; intros W; split; [exact W | reflexivity]. Qed.

Section VisitReturns.

Variable leaveFn : JsValue -> Result JsValue.

Lemma editItems_returns (items : list JsValue) :
  Forall (fun item =>
            exists e, visitNode leaveFn item = inr e
                      /\ forall x, e = Some x -> x <> JsUndefined) items ->
  exists r,
    editItems (map (fun item => (item, visitNode leaveFn item)) items) = inr r
    /\ ((forall item, In item items -> nullish item = false) ->
        forall item, In item (snd r) -> nullish item = false).
Proof.
  induction 1 as [| item items [e [He Hx]] _ [r [Hr Hn]]]; cbn [map editItems].
  - eexists; split; [reflexivity | intros _ item []].
  - rewrite He, Hr; cbn [bindR].
    assert (K : (forall i, In i (item :: items) -> nullish i = false) ->
                forall i, In i (snd r) -> nullish i = false)
      by (intros Hall i Hi; apply Hn; [| exact Hi];
          intros j Hj; apply Hall; right; exact Hj).
    destruct e as [x |].
    + specialize (Hx x eq_refl).
      destruct x; try contradiction; eexists; (split; [reflexivity |]);
        cbn [snd]; intros Hall i Hi;
        try (destruct Hi as [<- | Hi]; [reflexivity |]);
        apply (K Hall i Hi).
    + eexists; split; [reflexivity |].
      cbn [snd]; intros Hall i [<- | Hi];
        [apply Hall; left; reflexivity | apply (K Hall i Hi)].
Qed.

(** The edits of the children, when each child under a key returns. *)
Lemma visitKeys_returns (props : list (string * JsValue)) (keys : list string) :
  (forall key, In key keys ->
     exists e, visitNode leaveFn (lookup key props) = inr e) ->
  exists edits,
    visitKeys (map (fun kv => (fst kv, visitNode leaveFn (snd kv))) props) keys
    = inr edits
    /\ forall key x, In (key, x) edits ->
         In key keys /\ visitNode leaveFn (lookup key props) = inr (Some x).
Proof.
  intros Hkeys; rewrite visitKeys_eq by reflexivity.
  induction keys as [| key keys IH].
  - eexists; split; [reflexivity | intros key x []].
  - destruct (Hkeys key (or_introl eq_refl)) as [e He].
    destruct IH as [edits [Hedits Hin]];
      [intros k Hk; apply Hkeys; right; exact Hk |].
    rewrite He, Hedits; cbn [bindR].
    eexists; split; [reflexivity |].
    destruct e as [x |].
    + intros k y [E | Hy].
      * injection E as <- <-; split; [left; reflexivity | exact He].
      * destruct (Hin k y Hy); split; [right |]; assumption.
    + intros k y Hy; destruct (Hin k y Hy); split; [right |]; assumption.
Qed.

End VisitReturns.

Section LeaveReturns.

Variable offsetToPoint : string -> JsValue -> JsValue.

(** The visitor returns on a node that has a location where an entry is
    built from it, and an array without [undefined] and [null] for
    selections where it is a selection set. *)
Lemma leave_returns (queryText kind : string) (props : list (string * JsValue)) :
  lookup "kind" props = JsString kind ->
  (buildsEntry kind = true -> nullish (lookup "loc" props) = false) ->
  (kind = "SelectionSet" ->
   exists items,
     lookup "selections" props = JsArray items
     /\ forall item, In item items -> nullish item = false) ->
  exists r, leave offsetToPoint queryText (JsObject props) = inr r.
Proof.
  intros Hk Hloc Hsel.
  unfold leave; cbn [getProp bindR]; rewrite Hk.
  destruct (OUTLINEABLE_KINDS kind); [| eauto].
  unfold outlineTreeConverter.
  repeat match goal with
         | |- context [String.eqb kind ?lit] =>
             destruct (String.eqb_spec kind lit) as [-> |]
         end; cbn [getProp bindR]; eauto;
    try (destruct (meta_returns offsetToPoint queryText props (Hloc eq_refl))
           as [m Hm]; rewrite Hm; cbn [bindR]; eauto; fail).
  destruct (Hsel eq_refl) as [items [Hitems Hnn]].
  rewrite Hitems; unfold concatMap; cbn [elements bindR].
  destruct (concatMapLoop_returns
              (fun child =>
                 let* kind := getProp child "kind" in
                 if strictEqString kind INLINE_FRAGMENT
                 then getProp child "selectionSet"
                 else inr child) items []) as [out ->]; cbn [bindR]; eauto.
  intros item Hin; specialize (Hnn item Hin).
  rewrite !(getProp_returns _ _ Hnn); cbn [bindR].
  destruct (strictEqString (field item "kind") INLINE_FRAGMENT); eauto.
Qed.

End LeaveReturns.

Section VisitTotal.

Variable offsetToPoint : string -> JsValue -> JsValue.
Variable queryText : string.

(** On a well-formed tree the visit returns: under every node the visitor
    finds what it reads.  What it leaves for the parent is never
    [undefined], and for an array it is an array without [undefined] and
    [null]. *)
Lemma visitNode_returns (v : JsValue) :
  visitableChild v = true ->
  exists e,
    visitNode (leave offsetToPoint queryText) v = inr e
    /\ forall x, e = Some x ->
         x <> JsUndefined
         /\ forall items, v = JsArray items ->
              exists items',
                x = JsArray items'
                /\ forall item, In item items' -> nullish item = false.
Proof.
  induction v as [| | b | n | s | items IH | props IH] using JsValue_nested_ind;
    intros V; try discriminate V.
  - exists None; split; [reflexivity | discriminate].
  - exists None; split; [reflexivity | discriminate].
  - (* an array of nodes *)
    cbn [visitableChild] in V; rewrite forallb_forall in V.
    destruct (editItems_returns (leave offsetToPoint queryText) items)
      as [r [Hr Hn]].
    { rewrite Forall_forall in IH |- *; intros item Hin.
      destruct (IH item Hin (proj1 (wellFormed_object item (V item Hin))))
        as [e [He Hx]].
      exists e; split; [exact He | intros x E; apply (Hx x E)]. }
    cbn [visitNode]; rewrite Hr; cbn [bindR].
    eexists; split; [reflexivity |].
    intros x E; destruct (fst r); [| discriminate E].
    injection E as <-; split; [discriminate |].
    intros _ _; exists (snd r); split; [reflexivity |].
    apply Hn; intros item Hin; apply (wellFormed_object item (V item Hin)).
  - (* a node *)
    cbn [visitableChild] in V; rewrite wellFormed_eq in V.
    destruct (lookup "kind" props) as [| | | | kind | |] eqn:Hk;
      try discriminate V.
    apply andb_prop in V; destruct V as [V Hsel].
    apply andb_prop in V; destruct V as [V Hloc].
    apply andb_prop in V; destruct V as [_ Hkeys].
    rewrite forallb_forall in Hkeys.
    assert (Hchild : forall key, In key (QueryDocumentKeys kind) ->
              exists e,
                visitNode (leave offsetToPoint queryText) (lookup key props)
                = inr e
                /\ forall x, e = Some x ->
                     x <> JsUndefined
                     /\ forall items, lookup key props = JsArray items ->
                          exists items',
                            x = JsArray items'
                            /\ forall item, In item items' ->
                                 nullish item = false).
    { intros key Hin.
      destruct (lookup_In key props) as [E | [kv [Hkv E]]].
      - rewrite E; exists None; split; [reflexivity | discriminate].
      - rewrite Forall_forall in IH; rewrite <- E.
        apply (IH kv Hkv); rewrite E; apply Hkeys, Hin. }
    destruct (visitKeys_returns (leave offsetToPoint queryText) props
                (QueryDocumentKeys kind)) as [edits [Hedits Hin]].
    { intros key Hkey; destruct (Hchild key Hkey) as [e [He _]]; eauto. }
    cbn [visitNode]; rewrite Hk, Hedits; cbn [bindR].
    (* the node handed to [leave] *)
    assert (Hkind' : lookup "kind" (applyEdits edits props) = JsString kind).
    { rewrite lookup_applyEdits_other; [exact Hk |].
      intros [key x] Hx E; cbn [fst] in E; subst key.
      destruct (Hin _ _ Hx) as [Hkey _].
      specialize (Hkeys _ Hkey); rewrite Hk in Hkeys; discriminate Hkeys. }
    assert (Hloc' : lookup "loc" (applyEdits edits props) = lookup "loc" props).
    { apply lookup_applyEdits_other.
      intros [key x] Hx E; cbn [fst] in E; subst key.
      destruct (Hin _ _ Hx) as [Hkey _].
      exact (loc_not_visited kind Hkey). }
    assert (Hleave : exists r,
               leave offsetToPoint queryText (JsObject (applyEdits edits props))
               = inr r).
    { apply (leave_returns offsetToPoint queryText kind); [exact Hkind' | |].
      - intros B; rewrite Hloc', B in *; simpl in Hloc.
        apply negb_true_iff in Hloc; exact Hloc.
      - intros ->; cbn [String.eqb Ascii.eqb Bool.eqb negb orb] in Hsel.
        destruct (lookup "selections" props) as [| | | | | items |] eqn:Hs;
          try discriminate Hsel.
        assert (Hkey : In "selections" (QueryDocumentKeys "SelectionSet"))
          by (left; reflexivity).
        pose proof (Hkeys _ Hkey) as Hw; rewrite Hs in Hw.
        cbn [visitableChild] in Hw; rewrite forallb_forall in Hw.
        destruct (Hchild _ Hkey) as [e [He Hx]]; rewrite Hs in He, Hx.
        assert (Hcases : edits = []
                         \/ exists x, e = Some x /\ edits = [("selections", x)]).
        { revert Hedits.
          change (QueryDocumentKeys "SelectionSet") with ["selections"].
          cbn [visitKeys]; rewrite lookupVisited_map by reflexivity.
          rewrite Hs, He; cbn [bindR].
          destruct e as [x |]; intros E; injection E as <-;
            [right; eauto | left; reflexivity]. }
        destruct Hcases as [-> | [x [-> ->]]].
        + exists items; split; [exact Hs |].
          intros item Hitem; apply (wellFormed_object item (Hw item Hitem)).
        + destruct (Hx x eq_refl) as [_ Harr].
          destruct (Harr items eq_refl) as [items' [-> Hn]].
          exists items'; split; [| exact Hn].
          unfold applyEdits; cbn [fold_left fst snd].
          apply lookup_assign_same. }
    destruct Hleave as [r Hr]; rewrite Hr; cbn [bindR].
    destruct r as [| | [|] | | | |];
      (eexists; split; [reflexivity |]);
      intros x E; try discriminate E;
      (split; [| discriminate]);
      try (injection E as <-; discriminate).
    destruct edits; [discriminate E | injection E as <-; discriminate].
Qed.

End VisitTotal.

End VisitFacts.

Section OutlineClaims.

Import Outline.

(** [parse] of the [graphql] package and [offsetToPoint] of
    [../utils/Range]; [visit] is the one embedded above. *)
Variable parse : string -> Result JsValue.
Variable offsetToPoint : string -> JsValue -> JsValue.

(** C10: [getOutline] answers every query text and lets no exception of
    [parse] through.  Where [parse] throws, it returns [null].  Where
    [parse] returns a document (an AST as the parser builds it: nodes with
    a kind, their children under the keys of the kind, locations on the
    nodes an entry is built from), [visit] returns on it, no converter
    finding anything missing in the nodes it is handed, and [getOutline]
    returns [{outlineTrees}] with what [visit] made of the document.  For
    the document of the anonymous query with the one field [id] these are
    the entry of the operation with the entry of the field as its child. *)
Theorem getOutline_total (queryText : string) :
  (forall ast, parse queryText = inr ast -> wellFormed ast = true) ->
  (exists outline,
      getOutline parse visit offsetToPoint queryText = inr outline)
  /\ (forall error,
        parse queryText = inl error ->
        getOutline parse visit offsetToPoint queryText = inr JsNull)
  /\ (forall ast,
        parse queryText = inr ast ->
        exists outlineTrees,
          visit ast (leave offsetToPoint queryText) = inr outlineTrees
          /\ getOutline parse visit offsetToPoint queryText
             = inr (JsObject [("outlineTrees", outlineTrees)]))
  /\ (parse queryText = inr anonymousQuery ->
      getOutline parse visit offsetToPoint queryText
      = inr (JsObject
               [ ("outlineTrees",
                  JsArray
                    [ JsObject
                        [ ("tokenizedText",
                           JsArray
                             [ buildToken "keyword" (JsString "query");
                               buildToken "whitespace" (JsString " ");
                               buildToken "class-name"
                                 (JsString "AnonymousQuery") ]);
                          ("representativeName", JsString "AnonymousQuery");
                          ("startPosition",
                           offsetToPoint queryText (JsNumber 0));
                          ("endPosition",
                           offsetToPoint queryText (JsNumber 6));
                          ("children",
                           JsArray
                             [ JsObject
                                 [ ("tokenizedText",
                                    JsArray
                                      [buildToken "plain" (JsString "id")]);
                                   ("representativeName", JsString "id");
                                   ("startPosition",
                                    offsetToPoint queryText (JsNumber 2));
                                   ("endPosition",
                                    offsetToPoint queryText (JsNumber 4));
                                   ("children", JsArray []) ] ]) ] ]) ])).
Proof.
  intros Hparse.
  assert (Parsed : forall ast,
             parse queryText = inr ast ->
             exists outlineTrees,
               visit ast (leave offsetToPoint queryText) = inr outlineTrees
               /\ getOutline parse visit offsetToPoint queryText
                  = inr (JsObject [("outlineTrees", outlineTrees)])).
  { intros ast Hast.
    destruct (visitNode_returns offsetToPoint queryText ast
                (proj1 (wellFormed_object ast (Hparse ast Hast))))
      as [e [He _]].
    unfold getOutline, visit; rewrite Hast, He; cbn [bindR].
    eexists; split; reflexivity. }
  split; [| split; [| split]].
  - destruct (parse queryText) as [error | ast] eqn:Hast.
    + exists JsNull; unfold getOutline; rewrite Hast; reflexivity.
    + destruct (Parsed ast eq_refl) as [outlineTrees [_ Hout]]; eauto.
  - intros error Herror; unfold getOutline; rewrite Herror; reflexivity.
  - exact Parsed.
  - intros Hast; unfold getOutline; rewrite Hast; reflexivity.
Qed.

End OutlineClaims.

(** ** The claims at work *)

Import NuclideUri.

(** C1 as first stated fails: with [_suppressBreakpointSync] set, a user
    change delivered to the listener still sends its command. *)
Lemma user_change_sent_while_suppressed :
  _suppressBreakpointSync suppressedBridge = true
  /\ _commandDispatcher
       (stateOf (_handleUserBreakpointChange nuclideUriToUri exampleUserChange
                   suppressedBridge))
     = [ {| channel := "AddBreakpoint";
            args := [ JsObject [ ("sourceURL", JsString "file:///src/c.js");
                                 ("lineNumber", JsNumber 7);
                                 ("condition", JsString "");
                                 ("enabled", JsBool true) ] ] |} ]
  /\ _commandDispatcher
       (stateOf (_handleUserBreakpointChange nuclideUriToUri exampleUserChange
                   suppressedBridge))
     <> _commandDispatcher suppressedBridge.
Proof. split; [reflexivity | split; [reflexivity | discriminate]]. Qed.

(** The same inside [_bindBreakpoint]: a store that reports the bound
    breakpoint as a user change gets it sent back to the engine, flag or no
    flag. *)
Lemma echo_forwarded_during_bind :
  _commandDispatcher
    (stateOf (_handleIpcMessage (H := FaultyModel) uriToNuclideUri nuclideUriToUri
                false (notification "BreakpointAdded" localBreakpoint)
                faultyBridge))
  = [ {| channel := "AddBreakpoint";
         args := [ JsObject [ ("sourceURL", JsString "file:///src/a.js");
                              ("lineNumber", JsNumber 3);
                              ("condition", JsString "");
                              ("enabled", JsBool true) ] ] |} ].
Proof. reflexivity. Qed.

(** C2 on a model whose mutators throw: both handlers end abruptly and the
    flag is down. *)
Lemma suppression_flag_released_witness :
  _suppressBreakpointSync faultyBridge = false
  /\ isAbrupt (_bindBreakpoint (H := FaultyModel) uriToNuclideUri nuclideUriToUri
                 localBreakpoint true faultyBridge) = true
  /\ isAbrupt (_removeBreakpoint (H := FaultyModel) uriToNuclideUri nuclideUriToUri
                 localBreakpoint faultyBridge) = true
  /\ (_suppressBreakpointSync
        (stateOf (_bindBreakpoint (H := FaultyModel) uriToNuclideUri nuclideUriToUri
                    localBreakpoint true faultyBridge)) = false
      /\ _suppressBreakpointSync
           (stateOf (_removeBreakpoint (H := FaultyModel) uriToNuclideUri
                       nuclideUriToUri localBreakpoint faultyBridge)) = false).
Proof.
  split; [reflexivity | split; [reflexivity | split; [reflexivity |]]].
  pose proof (suppression_flag_released (H := FaultyModel) uriToNuclideUri
                nuclideUriToUri false localBreakpoint true
                (notification "BreakpointAdded" localBreakpoint) faultyBridge
                eq_refl) as R.
  exact (conj (proj1 R) (proj1 (proj2 R))).
Defined.

(** C3 on a freshly built Bridge. *)
Lemma ready_handshake_witness :
  reachable uriToNuclideUri nuclideUriToUri false exampleBridge
  /\ _commandDispatcher
       (stateOf (_handleIpcMessage uriToNuclideUri nuclideUriToUri false
                   {| channel := "notification";
                      args := [JsString "ready"; JsUndefined] |}
                   exampleBridge))
     = [ {| channel := "UpdateSettings";
            args := [JsObject [("supportThreadsWindow", JsBool true)]] |};
         {| channel := "SyncBreakpoints";
            args :=
              [ JsArray
                  [ JsObject [ ("sourceURL", JsString "file:///src/a.js");
                               ("lineNumber", JsNumber 3);
                               ("condition", JsString "");
                               ("enabled", JsBool true) ];
                    JsObject [ ("sourceURL", JsString "file:///src/b.js");
                               ("lineNumber", JsNumber 10);
                               ("condition", JsString "x > 1");
                               ("enabled", JsBool false) ] ] ] |};
         {| channel := "setPauseOnException"; args := [JsBool true] |};
         {| channel := "setPauseOnCaughtException"; args := [JsBool false] |};
         {| channel := "setSingleThreadStepping"; args := [JsBool true] |} ].
Proof.
  split; [apply reachable_new |].
  exact (proj1 (proj2
           (ready_handshake_commands uriToNuclideUri nuclideUriToUri false
              [JsUndefined] exampleBridge
              (reachable_new uriToNuclideUri nuclideUriToUri false exampleModel)))).
Defined.

(** C4 on the reference model. *)
Lemma selectThread_dual_write_witness :
  selectedThread
    (_debuggerModel (stateOf (selectThread nuclideUriToUri "42" exampleBridge)))
  = Some 42
  /\ _commandDispatcher (stateOf (selectThread nuclideUriToUri "42" exampleBridge))
     = [{| channel := "selectThread"; args := [JsString "42"] |}]
  /\ _debuggerModel (stateOf (selectThread nuclideUriToUri "abc" exampleBridge))
     = exampleModel.
Proof.
  exact (proj2 (proj2 (selectThread_dual_write nuclideUriToUri exampleBridge))
           exampleBridge).
Defined.

(** C5 with the flag set and with the flag down. *)
Lemma sendAllBreakpoints_gated_witness :
  (_suppressBreakpointSync suppressedBridge = true
   /\ _sendAllBreakpoints nuclideUriToUri suppressedBridge
      = Normal tt suppressedBridge)
  /\ (_suppressBreakpointSync exampleBridge = false
      /\ _commandDispatcher
           (stateOf (_sendAllBreakpoints nuclideUriToUri exampleBridge))
         = [ {| channel := "SyncBreakpoints";
                args :=
                  [ JsArray
                      [ JsObject [ ("sourceURL", JsString "file:///src/a.js");
                                   ("lineNumber", JsNumber 3);
                                   ("condition", JsString "");
                                   ("enabled", JsBool true) ];
                        JsObject [ ("sourceURL", JsString "file:///src/b.js");
                                   ("lineNumber", JsNumber 10);
                                   ("condition", JsString "x > 1");
                                   ("enabled", JsBool false) ] ] ] |} ]).
Proof.
  split; (split; [reflexivity |]).
  - exact (proj1 (proj1 (sendAllBreakpoints_gated uriToNuclideUri nuclideUriToUri
                           false suppressedBridge) eq_refl)).
  - exact (f_equal (fun c => _commandDispatcher (stateOf c))
             (proj1 (proj2 (sendAllBreakpoints_gated uriToNuclideUri nuclideUriToUri
                              false exampleBridge) eq_refl))).
Defined.

(** C6 as first stated fails: the [sourceURL] of [remoteBreakpoint] names
    a file of another host, not a path of the local file system, and the
    breakpoint is applied to the model all the same, under the remote URI;
    [BreakpointRemoved] takes it away again. *)
Lemma remote_breakpoint_applied :
  let added :=
    _handleIpcMessage uriToNuclideUri nuclideUriToUri
      false (notification "BreakpointAdded" remoteBreakpoint) exampleBridge in
  let removed :=
    _handleIpcMessage uriToNuclideUri nuclideUriToUri
      false (notification "BreakpointRemoved" remoteBreakpoint)
      (stateOf added) in
  isRemote "nuclide://devserver/src/a.js" = true
  /\ modelCalls (stateOf added)
     = [ bindBreakpointIPC "nuclide://devserver/src/a.js" (JsNumber 3)
           (JsString "") (JsBool true) true ]
  /\ breakpoints (_debuggerModel (stateOf added))
     = breakpoints exampleModel
       ++ [ {| path := "nuclide://devserver/src/a.js"; line := 3;
               condition := ""; enabled := true; resolved := true |} ]
  /\ _debuggerModel (stateOf added) <> _debuggerModel exampleBridge
  /\ modelCalls (stateOf removed)
     = [ bindBreakpointIPC "nuclide://devserver/src/a.js" (JsNumber 3)
           (JsString "") (JsBool true) true;
         deleteBreakpointIPC "nuclide://devserver/src/a.js" (JsNumber 3) ]
  /\ breakpoints (_debuggerModel (stateOf removed)) = breakpoints exampleModel.
Proof.
  simpl; split; [reflexivity |].
  split; [reflexivity |].
  split; [reflexivity |].
  split; [discriminate |].
  split; reflexivity.
Qed.

(** C6 as amended, on a local file, on a script served over HTTP with
    [resolved: 1], and on a payload without [sourceURL]. *)
Lemma breakpoint_events_follow_resolver_witness :
  modelCalls
    (stateOf (_handleIpcMessage uriToNuclideUri nuclideUriToUri false
                (notification "BreakpointAdded" localBreakpoint)
                exampleBridge))
  = [bindBreakpointIPC "/src/a.js" (JsNumber 3) (JsString "") (JsBool true) true]
  /\ modelCalls
       (stateOf (_handleIpcMessage uriToNuclideUri nuclideUriToUri false
                   (notification "BreakpointRemoved" localBreakpoint)
                   exampleBridge))
     = [deleteBreakpointIPC "/src/a.js" (JsNumber 3)]
  /\ _handleIpcMessage uriToNuclideUri nuclideUriToUri false
       (notification "BreakpointAdded" virtualBreakpoint) exampleBridge
     = Normal tt exampleBridge
  /\ _handleIpcMessage uriToNuclideUri nuclideUriToUri false
       (notification "BreakpointRemoved" malformedBreakpoint) exampleBridge
     = Abrupt TypeError exampleBridge.
Proof.
  pose proof (proj2 (breakpoint_events_follow_resolver uriToNuclideUri
                       nuclideUriToUri false localBreakpoint [] exampleBridge)
                eq_refl) as L.
  pose proof (proj2 (breakpoint_events_follow_resolver uriToNuclideUri
                       nuclideUriToUri false virtualBreakpoint [] exampleBridge)
                eq_refl) as V.
  pose proof (proj2 (breakpoint_events_follow_resolver uriToNuclideUri
                       nuclideUriToUri false malformedBreakpoint []
                       exampleBridge)
                eq_refl) as M.
  assert (Hne : "/src/a.js" <> "") by discriminate.
  split; [exact (proj1 (proj1 L "/src/a.js" eq_refl Hne)) |].
  split; [exact (proj1 (proj2 (proj2 (proj1 L "/src/a.js" eq_refl Hne)))) |].
  split; [exact (proj1 (proj1 (proj2 V) (or_introl eq_refl))) |].
  exact (proj2 (proj2 (proj2 M) TypeError eq_refl)).
Defined.

(** C7 on the payload [{stopThreadId: 7, threadSwitchNotification: null}]. *)
Lemma debugger_paused_witness :
  let c :=
    _handleIpcMessage uriToNuclideUri nuclideUriToUri false
      (notification "NonLoaderDebuggerPaused"
         (JsObject [ ("stopThreadId", JsNumber 7);
                     ("threadSwitchNotification", JsNull) ])) exampleBridge in
  debuggerMode (_debuggerModel (stateOf c)) = PAUSED
  /\ selectedStopThread (_debuggerModel (stateOf c)) = JsNumber 7
  /\ threadSwitchNotices (_debuggerModel (stateOf c)) = []
  /\ modelCalls (stateOf c)
     = [setDebuggerMode PAUSED; updateStopThread (JsNumber 7)].
Proof.
  exact (proj2 (proj2 (debugger_paused_updates (Model := RefModel)
                         uriToNuclideUri nuclideUriToUri false JsUndefined
                         exampleBridge)) exampleBridge).
Defined.

(** C8 on another channel and on an event name the Bridge does not know. *)
Lemma unhandled_messages_ignored_witness :
  _handleIpcMessage uriToNuclideUri nuclideUriToUri false
    {| channel := "command"; args := [JsString "ready"] |} exampleBridge
  = Normal tt exampleBridge
  /\ _handleIpcMessage uriToNuclideUri nuclideUriToUri false
       (notification "DebuggerStopped" JsUndefined) exampleBridge
     = Normal tt exampleBridge.
Proof.
  split.
  - apply (unhandled_messages_ignored uriToNuclideUri nuclideUriToUri false
             {| channel := "command"; args := [JsString "ready"] |}
             exampleBridge).
    left; discriminate.
  - apply (unhandled_messages_ignored uriToNuclideUri nuclideUriToUri false
             (notification "DebuggerStopped" JsUndefined) exampleBridge).
    right; intros name Hin; simpl in Hin.
    repeat (destruct Hin as [<- | Hin]; [discriminate |]).
    contradiction.
Defined.


(** C10 on a query that parses and on one that does not. *)
Lemma getOutline_total_witness :
  Outline.getOutline Outline.toyParse Outline.visit Outline.toyOffsetToPoint
    "{ id " = inr JsNull
  /\ Outline.getOutline Outline.toyParse Outline.visit
       Outline.toyOffsetToPoint "{ id }"
     = inr (JsObject
              [ ("outlineTrees",
                 JsArray
                   [ JsObject
                       [ ("tokenizedText",
                          JsArray
                            [ Outline.buildToken "keyword" (JsString "query");
                              Outline.buildToken "whitespace" (JsString " ");
                              Outline.buildToken "class-name"
                                (JsString "AnonymousQuery") ]);
                         ("representativeName", JsString "AnonymousQuery");
                         ("startPosition",
                          JsObject [("row", JsNumber 0); ("column", JsNumber 0)]);
                         ("endPosition",
                          JsObject [("row", JsNumber 0); ("column", JsNumber 6)]);
                         ("children",
                          JsArray
                            [ JsObject
                                [ ("tokenizedText",
                                   JsArray
                                     [ Outline.buildToken "plain"
                                         (JsString "id") ]);
                                  ("representativeName", JsString "id");
                                  ("startPosition",
                                   JsObject [ ("row", JsNumber 0);
                                              ("column", JsNumber 2) ]);
                                  ("endPosition",
                                   JsObject [ ("row", JsNumber 0);
                                              ("column", JsNumber 4) ]);
                                  ("children", JsArray []) ] ]) ] ]) ]).
Proof.
  assert (Rejected : forall ast,
             Outline.toyParse "{ id " = inr ast -> wellFormed ast = true)
    by (intros ast E; discriminate E).
  assert (Parsed : forall ast,
             Outline.toyParse "{ id }" = inr ast -> wellFormed ast = true)
    by (intros ast E; injection E as <-; reflexivity).
  split.
  - exact (proj1 (proj2 (getOutline_total Outline.toyParse
                           Outline.toyOffsetToPoint "{ id " Rejected))
             (Thrown (JsString "Syntax Error")) eq_refl).
  - exact (proj2 (proj2 (proj2 (getOutline_total Outline.toyParse
                                  Outline.toyOffsetToPoint "{ id }" Parsed)))
             eq_refl).
Defined.

(** ** Further properties of the Bridge *)

Lemma strictEqString_true (v : JsValue) (lit : string) :
  strictEqString v lit = true -> v = JsString lit.
Proof.
  destruct v; simpl; try discriminate.
  intros E; apply String.eqb_eq in E; subst; reflexivity.
Qed.

Section BridgeForwarding.

Context {Model : Type} `{DebuggerModel Model}.
Variable uriToNuclideUri : JsValue -> JsError + option string.
Variable nuclideUriToUri : string -> string.
Variable openDevToolsOnDebuggerStart : bool.

Local Abbreviation forwards := (onlyForwards nuclideUriToUri).

Lemma forwards_nothing {A} (m : Eff (Bridge Model) A) :
  (forall s, _commandDispatcher (stateOf (m s)) = _commandDispatcher s) ->
  forwards m.
Proof.
  intros E s; exists []; rewrite E; simpl; rewrite app_nil_r; auto.
Qed.

Lemma forwards_ret {A} (a : A) : forwards (ret a).
Proof. apply forwards_nothing; reflexivity. Qed.

Lemma forwards_throw {A} (e : JsError) : forwards (throw e : Eff _ A).
Proof. apply forwards_nothing; reflexivity. Qed.

Lemma forwards_lift {A} (r : JsError + A) : forwards (lift r).
Proof. destruct r; [apply forwards_throw | apply forwards_ret]. Qed.

Lemma forwards_setSuppress (b : bool) :
  forwards (setSuppressBreakpointSync b).
Proof. apply forwards_nothing; reflexivity. Qed.

Lemma forwards_callModel (c : ModelCall) :
  forwards (callModel nuclideUriToUri c).
Proof.
  intros s; rewrite stateOf_callModel.
  exists (emitted (perform c (_debuggerModel s))); split; [reflexivity | auto].
Qed.

Lemma forwards_then {A B} (m : Eff (Bridge Model) A) (k : Eff (Bridge Model) B) :
  forwards m -> forwards k ->
  forall s, exists changes,
    _commandDispatcher (stateOf (k (stateOf (m s))))
    = _commandDispatcher s ++ map (userChangeCommand nuclideUriToUri) changes
    /\ ((forall c mo, emitted (perform c mo) = []) -> changes = []).
Proof.
  intros Fm Fk s.
  destruct (Fm s) as [c1 [E1 Q1]].
  destruct (Fk (stateOf (m s))) as [c2 [E2 Q2]].
  exists (c1 ++ c2); rewrite E2, E1, map_app, app_assoc; split; [reflexivity |].
  intros Q; rewrite (Q1 Q), (Q2 Q); reflexivity.
Qed.

Lemma forwards_bind {A B} (m : Eff (Bridge Model) A)
  (k : A -> Eff (Bridge Model) B) :
  forwards m -> (forall a, forwards (k a)) -> forwards (bind m k).
Proof.
  intros Fm Fk s.
  destruct (stateOf_bind m k s) as [E | [a E]]; rewrite E.
  - apply Fm.
  - apply (forwards_then m (k a) Fm (Fk a)).
Qed.

Lemma forwards_tryFinally {A} (body : Eff (Bridge Model) A)
  (fin : Eff (Bridge Model) unit) :
  forwards body -> forwards fin -> forwards (tryFinally body fin).
Proof.
  intros Fb Ff s; rewrite stateOf_tryFinally.
  apply (forwards_then body fin Fb Ff).
Qed.

End BridgeForwarding.

(** Splits a goal about forwarding along the structure of the method. *)
Ltac forwarding :=
  repeat match goal with
    | |- onlyForwards _ (ret _) => apply forwards_ret
    | |- onlyForwards _ (throw _) => apply forwards_throw
    | |- onlyForwards _ (lift _) => apply forwards_lift
    | |- onlyForwards _ (setSuppressBreakpointSync _) => apply forwards_setSuppress
    | |- onlyForwards _ (callModel _ _) => apply forwards_callModel
    | |- onlyForwards _ (bind _ _) => apply forwards_bind; [| intros ?]
    | |- onlyForwards _ (tryFinally _ _) => apply forwards_tryFinally
    | |- onlyForwards _ (match ?x with _ => _ end) => destruct x
    end.

(** *** More on [parseInt] *)

Lemma digitsPrefix_some (a : Z) (t : string) : digitsPrefix (Some a) t <> None.
Proof.
  revert a; induction t as [| c t IH]; intros a; simpl; [discriminate |].
  destruct (digitOf c); [apply IH | discriminate].
Qed.

Lemma digitsPrefix_none (t : string) :
  digitsPrefix None t = None <-> startsWithDigit t = false.
Proof.
  destruct t as [| c t]; simpl; [tauto |].
  unfold isDigit; destruct (digitOf c); split; intros E;
    try reflexivity; try discriminate E.
  exfalso; exact (digitsPrefix_some _ _ E).
Qed.

(** [parseInt] answers [NaN] exactly when, behind the white space and the
    sign, there is no digit. *)
Lemma parseInt10_NaN (s : string) :
  parseInt10 s = None <-> startsWithDigit (afterSign (skipWhiteSpace s)) = false.
Proof.
  unfold parseInt10, afterSign.
  destruct (skipWhiteSpace s) as [| c t]; [simpl; tauto |].
  destruct c as [[] [] [] [] [] [] [] []];
    try apply digitsPrefix_none.
  rewrite <- digitsPrefix_none.
  destruct (digitsPrefix None t); simpl; split; intros E;
    try reflexivity; discriminate E.
Qed.

Lemma skipWhiteSpace_app (ws t : string) :
  allWhiteSpace ws = true -> skipWhiteSpace t = t ->
  skipWhiteSpace (ws ++ t) = t.
Proof.
  induction ws as [| c ws IH]; simpl; intros Hws Ht; [exact Ht |].
  apply andb_prop in Hws; destruct Hws as [Hc Hws].
  rewrite Hc; apply IH; assumption.
Qed.

Lemma parseInt10_signed (ws ds rest : string) (negative : bool) :
  allWhiteSpace ws = true -> ds <> "" -> allDigits ds = true ->
  startsWithDigit rest = false ->
  parseInt10 (ws ++ (if negative then "-" else "+") ++ ds ++ rest)
  = Some (if negative then - decimalValue ds else decimalValue ds).
Proof.
  intros Hws Hne Hds Hrest.
  destruct ds as [| c ds]; [contradiction |].
  simpl in Hds; apply andb_prop in Hds; destruct Hds as [Hc Hds].
  destruct (isDigit_digitOf c Hc) as [d Hd].
  unfold parseInt10.
  rewrite skipWhiteSpace_app by (try assumption; destruct negative; reflexivity).
  unfold decimalValue.
  destruct negative; simpl; rewrite Hd;
    rewrite (digitsPrefix_numeral ds rest _ Hds Hrest); reflexivity.
Qed.

Section BridgeReturns.

Context {Model : Type} `{DebuggerModel Model}.
Variable nuclideUriToUri : string -> string.

(** The model at hand throws in none of its mutators. *)
Hypothesis neverRaises : forall c m, raised (perform c m) = None.

Lemma returns_ret {S A} (a : A) : returns (ret a : Eff S A).
Proof. intros s; reflexivity. Qed.

Lemma returns_get {S} : returns (get : Eff S S).
Proof. intros s; reflexivity. Qed.

Lemma returns_modify {S} (f : S -> S) : returns (modify f).
Proof. intros s; reflexivity. Qed.

Lemma returns_bind {S A B} (m : Eff S A) (k : A -> Eff S B) :
  returns m -> (forall a, returns (k a)) -> returns (bind m k).
Proof.
  intros Rm Rk s; unfold bind.
  specialize (Rm s); destruct (m s); [apply Rk | discriminate Rm].
Qed.

Lemma returns_tryFinally {S A} (body : Eff S A) (fin : Eff S unit) :
  returns body -> returns fin -> returns (tryFinally body fin).
Proof.
  intros Rb Rf s; unfold tryFinally.
  specialize (Rb s); destruct (body s) as [a s1 | e s1]; [| discriminate Rb].
  specialize (Rf s1); destruct (fin s1); [reflexivity | discriminate Rf].
Qed.

Lemma returns_callModel (c : ModelCall) :
  returns (callModel nuclideUriToUri c).
Proof. intros s; rewrite callModel_eq, neverRaises; reflexivity. Qed.

Lemma returns_getProp {S} (v : JsValue) (k : string) :
  nullish v = false -> returns (lift (getProp v k) : Eff S JsValue).
Proof. destruct v; intros Hv; try discriminate Hv; intros st; reflexivity. Qed.

End BridgeReturns.

(** Splits a goal about returning along the structure of the method. *)
Ltac returning :=
  repeat match goal with
    | |- returns (ret _) => apply returns_ret
    | |- returns get => apply returns_get
    | |- returns (modify _) => apply returns_modify
    | |- returns (send _ _) => apply returns_modify
    | |- returns (setSuppressBreakpointSync _) => apply returns_modify
    | |- returns (callModel _ _) => apply returns_callModel; assumption
    | |- returns (lift (getProp _ _)) =>
        apply returns_getProp;
        first [assumption | apply negb_true_iff; assumption]
    | |- returns (bind _ _) => apply returns_bind; [| intros ?]
    | |- returns (tryFinally _ _) => apply returns_tryFinally
    | |- returns (match ?x with _ => _ end) => destruct x eqn:?
    end.

Section BridgeExtras.

Context {Model : Type} `{DebuggerModel Model}.
Variable uriToNuclideUri : JsValue -> JsError + option string.
Variable nuclideUriToUri : string -> string.
Variable openDevToolsOnDebuggerStart : bool.

Local Abbreviation handle :=
  (_handleIpcMessage uriToNuclideUri nuclideUriToUri openDevToolsOnDebuggerStart).

(** X1: apart from [ready], no inbound message makes the Bridge send a
    command of its own: what reaches the dispatcher while the message is
    handled are the user changes the model reported during its calls, each
    forwarded by the listener; with a model that reports none, nothing is
    sent. *)
Theorem inbound_events_send_nothing (event : Message) (s : Bridge Model) :
  index (args event) 0 <> JsString "ready" ->
  exists changes,
    _commandDispatcher (stateOf (handle event s))
    = _commandDispatcher s ++ map (userChangeCommand nuclideUriToUri) changes
    /\ ((forall c mo, emitted (perform c mo) = []) -> changes = []).
Proof.
  intros Hready; revert s.
  change (onlyForwards nuclideUriToUri (handle event)).
  unfold _handleIpcMessage.
  rewrite (strictEqString_false _ _ Hready).
  unfold_methods; forwarding.
Qed.

Lemma bind_getProp {S A} (v : JsValue) (k : string)
  (f : JsValue -> Eff S A) (s : S) :
  nullish v = false ->
  (x <- lift (getProp v k) ;; f x) s = f (field v k) s.
Proof. intros Hv; destruct v; try discriminate Hv; reflexivity. Qed.

(** X2: when an inbound message makes the handler throw.  With a model
    whose mutators do not throw (and a dispatcher and a webview that
    return), [_handleIpcMessage] ends abruptly in two cases only.  One: the
    message is a [BreakpointAdded], [BreakpointRemoved],
    [ExpressionEvaluationResponse] or [GetPropertiesResponse] notification
    whose payload [args[1]] is [undefined] or [null]; the error is a
    [TypeError].  Two: it is a [BreakpointAdded] or [BreakpointRemoved]
    notification and [nuclideUri.uriToNuclideUri] throws on the
    [sourceURL] of the payload; the error is the resolver's.  In both
    cases nothing was changed, called or sent.  Every other message, a
    missing payload included, is handled to the end. *)
Theorem handler_throws_exactly_when (event : Message) (s : Bridge Model) :
  (forall c m, raised (perform c m) = None) ->
  let name := index (args event) 0 in
  let payload := index (args event) 1 in
  let notified := String.eqb (channel event) "notification" in
  if notified && readsPayload name && nullish payload
  then handle event s = Abrupt TypeError s
  else
    match (if notified && resolvesSource name
           then uriToNuclideUri (field payload "sourceURL")
           else inr None) with
    | inl e => handle event s = Abrupt e s
    | inr _ => isAbrupt (handle event s) = false
    end.
Proof.
  intros neverRaises; unfold _handleIpcMessage; cbv zeta.
  destruct (String.eqb (channel event) "notification"); [| reflexivity].
  generalize (index (args event) 0) as name.
  generalize (index (args event) 1) as payload.
  intros payload name; simpl andb.
  repeat match goal with
    | |- context [if strictEqString name ?lit then _ else _] =>
        let E := fresh "E" in
        destruct (strictEqString name lit) eqn:E;
        [ apply strictEqString_true in E; subst name;
          simpl readsPayload; simpl resolvesSource; simpl andb
        | ]
    end.
  all: try (unfold readsPayload, resolvesSource; simpl;
            repeat match goal with
              | E : strictEqString _ _ = false |- _ => rewrite E; clear E
              end; simpl).
  all: try (destruct (nullish payload) eqn:Hp;
            [ destruct payload; try discriminate Hp; reflexivity | ]).
  all: try reflexivity.
  all: try (rewrite bind_getProp by exact Hp;
            rewrite bindBreakpoint_eq by exact Hp).
  all: try rewrite removeBreakpoint_eq by exact Hp.
  all: try (destruct (uriToNuclideUri (field payload "sourceURL"))
              as [e | path];
            [ reflexivity
            | destruct (truthyPath path);
              [ rewrite guarded_call_eq, neverRaises | ]; reflexivity ]).
  all: match goal with
       | |- isAbrupt (?m ?st) = false => revert st; change (returns m)
       end;
    unfold_methods; unfold openDevTools; returning.
Qed.

(** X3: [selectThread] leaves the model alone exactly when its argument
    has no digit behind the leading white space and one optional sign: then
    [parseInt] gives [NaN] and the method only sends the command.  When
    there is a digit, [parseInt] gives a number; for a numeral below [2^53]
    it is the numeral's integer, and [updateSelectedThread] is called with
    it, once, after the command was sent. *)
Theorem selectThread_updates_iff_numeral (threadId : string) (s : Bridge Model) :
  let command := {| channel := "selectThread"; args := [JsString threadId] |} in
  (startsWithDigit (afterSign (skipWhiteSpace threadId)) = false ->
     parseInt10 threadId = None
     /\ selectThread nuclideUriToUri threadId s
        = Normal tt (afterSending s [command]))
  /\ (startsWithDigit (afterSign (skipWhiteSpace threadId)) = true ->
        exists threadNo,
          parseInt10 threadId = Some threadNo
          /\ (Z.abs threadNo < 2 ^ 53 ->
              modelCalls (stateOf (selectThread nuclideUriToUri threadId s))
              = modelCalls s ++ [updateSelectedThread threadNo]
              /\ _commandDispatcher
                   (stateOf (selectThread nuclideUriToUri threadId s))
                 = _commandDispatcher s
                   ++ command
                      :: map (userChangeCommand nuclideUriToUri)
                           (emitted (perform (updateSelectedThread threadNo)
                                       (_debuggerModel s))))).
Proof.
  simpl; split; intros Hd.
  - apply parseInt10_NaN in Hd.
    unfold selectThread; rewrite Hd; split; reflexivity.
  - destruct (parseInt10 threadId) as [n |] eqn:P.
    + exists n; split; [reflexivity |]; intros _.
      unfold selectThread; rewrite P.
      erewrite bind_normal by apply send_eq.
      rewrite stateOf_callModel; unfold afterCall; simpl.
      rewrite <- app_assoc; split; reflexivity.
    + apply parseInt10_NaN in P; congruence.
Qed.

(** X4: [selectThread] takes a signed id behind white space: for white
    space, a sign, a numeral (below [2^53]) and anything that does not go on
    with a digit, the model is told the numeral's integer, negated after
    ["-"].  A negative thread number is passed to the model as it is. *)
Theorem selectThread_signed_id (ws ds rest : string) (negative : bool)
  (s : Bridge Model) :
  allWhiteSpace ws = true -> ds <> "" -> allDigits ds = true ->
  startsWithDigit rest = false -> decimalValue ds < 2 ^ 53 ->
  let threadId := (ws ++ (if negative then "-" else "+") ++ ds ++ rest)%string in
  let threadNo := if negative then - decimalValue ds else decimalValue ds in
  modelCalls (stateOf (selectThread nuclideUriToUri threadId s))
  = modelCalls s ++ [updateSelectedThread threadNo]
  /\ _debuggerModel (stateOf (selectThread nuclideUriToUri threadId s))
     = newModel (perform (updateSelectedThread threadNo) (_debuggerModel s)).
Proof.
  intros Hws Hne Hds Hrest _; simpl.
  unfold selectThread.
  rewrite (parseInt10_signed ws ds rest negative Hws Hne Hds Hrest).
  erewrite bind_normal by apply send_eq.
  rewrite stateOf_callModel; split; reflexivity.
Qed.

(** X5: the [ready] handshake opens the developer tools of the webview
    only if the setting asks for it and a webview is attached; it never
    attaches or detaches a webview and leaves its [src] alone, and it
    returns whether a webview is attached or not. *)
Theorem ready_opens_devtools (rest : list JsValue) (s : Bridge Model) :
  let c := handle {| channel := "notification"; args := JsString "ready" :: rest |} s in
  isAbrupt c = false
  /\ _webview (stateOf c)
     = (if openDevToolsOnDebuggerStart
        then option_map
               (fun webview => {| src := src webview; devToolsOpened := true |})
               (_webview s)
        else _webview s)
  /\ _suppressBreakpointSync (stateOf c) = _suppressBreakpointSync s.
Proof.
  unfold_methods; unfold openDevTools, bind, get, send, modify, ret; simpl.
  destruct openDevToolsOnDebuggerStart; [destruct (_webview s) eqn:W |];
    simpl; destruct (_suppressBreakpointSync s); simpl; repeat split;
    exact W.
Qed.

(** X6: the flag does not stop the listener.  A user change that the
    breakpoint store reports while [bindBreakpointIPC] or
    [deleteBreakpointIPC] runs, between the two assignments of
    [_suppressBreakpointSync], is forwarded to the engine like any other:
    what a [BreakpointAdded] or [BreakpointRemoved] event whose source
    the resolver answers a path for leaves at the dispatcher is one command
    per user change reported during the call, and nothing with a store that
    reports none. *)
Theorem breakpoint_changes_echoed (payload : JsValue) (p : string)
  (s : Bridge Model) :
  nullish payload = false ->
  uriToNuclideUri (field payload "sourceURL") = inr (Some p) ->
  p <> "" ->
  let bindCall :=
    bindBreakpointIPC p (field payload "lineNumber")
      (field payload "condition") (field payload "enabled")
      (strictEqTrue (field payload "resolved")) in
  let deleteCall := deleteBreakpointIPC p (field payload "lineNumber") in
  _commandDispatcher
    (stateOf (handle (notification "BreakpointAdded" payload) s))
  = _commandDispatcher s
    ++ map (userChangeCommand nuclideUriToUri)
         (emitted (perform bindCall (_debuggerModel s)))
  /\ _commandDispatcher
       (stateOf (handle (notification "BreakpointRemoved" payload) s))
     = _commandDispatcher s
       ++ map (userChangeCommand nuclideUriToUri)
            (emitted (perform deleteCall (_debuggerModel s))).
Proof.
  intros Hp Hpath Hne; simpl.
  assert (T : truthyPath (Some p) = Some p)
    by (destruct p; [contradiction | reflexivity]).
  rewrite handle_BreakpointAdded, handle_BreakpointRemoved by exact Hp.
  rewrite bindBreakpoint_eq, removeBreakpoint_eq by exact Hp.
  rewrite Hpath, T; split; apply stateOf_guarded_call.
Qed.

End BridgeExtras.

(** ** Further properties of the outline *)

Section OutlineExtras.

Import Outline.

Variable offsetToPoint : string -> JsValue -> JsValue.

Lemma concatMapLoop_flat_map (fn : JsValue -> Result JsValue)
  (g : JsValue -> JsValue) (items res : list JsValue) :
  (forall item, In item items -> fn item = inr (g item)) ->
  concatMapLoop items fn res
  = inr (res ++ flat_map (fun item => spread (g item)) items).
Proof.
  revert res; induction items as [| item items IH]; intros res Hfn; simpl.
  - rewrite app_nil_r; reflexivity.
  - rewrite (Hfn item (or_introl eq_refl)); simpl.
    assert (E : concatMapLoop items fn (res ++ spread (g item))
                = inr ((res ++ spread (g item))
                       ++ flat_map (fun item => spread (g item)) items))
      by (apply IH; intros i Hi; apply Hfn; right; exact Hi).
    rewrite <- app_assoc in E.
    destruct (g item); exact E.
Qed.

Lemma concatMapLoop_throws (fn : JsValue -> Result JsValue)
  (g : JsValue -> JsValue) (before after res : list JsValue)
  (item : JsValue) (e : JsError) :
  (forall i, In i before -> fn i = inr (g i)) ->
  fn item = inl e ->
  concatMapLoop (before ++ item :: after) fn res = inl e.
Proof.
  revert res; induction before as [| b before IH]; intros res Hfn He; simpl.
  - rewrite He; reflexivity.
  - rewrite (Hfn b (or_introl eq_refl)); simpl.
    destruct (g b); apply IH; auto; intros i Hi; apply Hfn; right; exact Hi.
Qed.

(** X7: [concatMap] maps and flattens one level, in order: over an array
    on whose elements [fn] returns, the result is the concatenation of what
    [fn] gave, an array contributing its elements and anything else itself.
    It throws in two cases only: a [TypeError] when [arr] is [undefined] or
    [null], and the first exception of [fn], the elements after it not being
    visited. *)
Theorem concatMap_flattens_one_level (fn : JsValue -> Result JsValue)
  (g : JsValue -> JsValue) (items : list JsValue) :
  (forall item, In item items -> fn item = inr (g item)) ->
  concatMap (JsArray items) fn
  = inr (JsArray (flat_map (fun item => spread (g item)) items))
  /\ concatMap JsUndefined fn = inl TypeError
  /\ concatMap JsNull fn = inl TypeError
  /\ (forall item after e,
        fn item = inl e ->
        concatMap (JsArray (items ++ item :: after)) fn = inl e).
Proof.
  intros Hfn; unfold concatMap; simpl; repeat split.
  - rewrite (concatMapLoop_flat_map fn g items [] Hfn); reflexivity.
  - intros item after e He.
    rewrite (concatMapLoop_throws fn g items after [] item e Hfn He); reflexivity.
Qed.

(** X8: the two tables of [getOutline.js] list the same kinds: a kind
    is an own property of [OUTLINEABLE_KINDS] exactly when
    [outlineTreeConverter] has a converter of its own for it.  So [leave]
    answers a node of such a kind with what the converter makes of it, and
    a node of any other kind, whatever it holds, with [null]; the kinds
    that are names of members of [Object.prototype], which both tables
    inherit, are set apart. *)
Theorem outline_tables_agree (docText kind : string)
  (props : list (string * JsValue)) :
  lookup "kind" props = JsString kind ->
  inheritedName kind = false ->
  match outlineTreeConverter offsetToPoint docText kind with
  | Some convert =>
      OUTLINEABLE_KINDS kind = true
      /\ leave offsetToPoint docText (JsObject props) = convert (JsObject props)
  | None =>
      OUTLINEABLE_KINDS kind = false
      /\ leave offsetToPoint docText (JsObject props) = inr JsNull
  end.
Proof.
  intros Hk _; unfold leave; simpl; rewrite Hk.
  unfold outlineTreeConverter, OUTLINEABLE_KINDS; simpl.
  repeat match goal with
         | |- context [String.eqb kind ?lit] =>
             destruct (String.eqb_spec kind lit) as [-> |]
         end; simpl; split; reflexivity.
Qed.

Lemma meta_eq (docText : string) (props : list (string * JsValue)) :
  nullish (lookup "loc" props) = false ->
  meta offsetToPoint docText (JsObject props)
  = inr [ ("representativeName", lookup "name" props);
          ("startPosition",
           offsetToPoint docText (field (lookup "loc" props) "start"));
          ("endPosition",
           offsetToPoint docText (field (lookup "loc" props) "end"));
          ("children",
           if truthy (lookup "selectionSet" props)
           then lookup "selectionSet" props else JsArray []) ].
Proof.
  intros Hloc; unfold meta; simpl.
  rewrite !(getProp_returns _ _ Hloc); reflexivity.
Qed.

Lemma meta_throws (docText : string) (props : list (string * JsValue)) :
  nullish (lookup "loc" props) = true ->
  meta offsetToPoint docText (JsObject props) = inl TypeError.
Proof.
  intros Hloc; unfold meta; simpl.
  destruct (lookup "loc" props); try discriminate Hloc; reflexivity.
Qed.

(** X9: every outline entry has the same shape.  For a [Field],
    [OperationDefinition], [FragmentDefinition] or [FragmentSpread] node
    with a location, [leave] returns an object with the properties
    [tokenizedText], [representativeName], [startPosition], [endPosition]
    and [children], in this order: the tokens are a non-empty array of
    [{kind, value}] tokens, the positions are [offsetToPoint] of the start
    and the end of the node's location, and [children] is the node's
    [selectionSet], or an empty array when the node has none, never
    [undefined] or [null].  Without a location [leave] throws a
    [TypeError]. *)
Theorem outline_entry_shape (docText kind : string)
  (props : list (string * JsValue)) :
  lookup "kind" props = JsString kind -> buildsEntry kind = true ->
  let loc := lookup "loc" props in
  (nullish loc = false ->
   exists tokens representativeName,
     leave offsetToPoint docText (JsObject props)
     = inr (JsObject
              [ ("tokenizedText", JsArray tokens);
                ("representativeName", representativeName);
                ("startPosition", offsetToPoint docText (field loc "start"));
                ("endPosition", offsetToPoint docText (field loc "end"));
                ("children",
                 if truthy (lookup "selectionSet" props)
                 then lookup "selectionSet" props else JsArray []) ])
     /\ tokens <> []
     /\ (forall token, In token tokens ->
           exists tokenKind value, token = buildToken tokenKind value)
     /\ (kind <> "OperationDefinition" ->
         representativeName = lookup "name" props))
  /\ (nullish loc = true ->
      leave offsetToPoint docText (JsObject props) = inl TypeError).
Proof.
  intros Hk He; simpl.
  assert (K : kind = "Field" \/ kind = "OperationDefinition"
              \/ kind = "FragmentDefinition" \/ kind = "FragmentSpread").
  { unfold buildsEntry in He; simpl in He.
    repeat match type of He with
           | context [String.eqb kind ?lit] =>
               destruct (String.eqb_spec kind lit); [tauto |]
           end.
    discriminate He. }
  destruct K as [-> | [-> | [-> | ->]]];
    unfold leave; cbn [getProp bindR]; rewrite Hk;
    cbn -[meta truthy]; (split; intros Hloc);
    rewrite ?(meta_eq docText props Hloc), ?(meta_throws docText props Hloc);
    cbn -[truthy]; try reflexivity.
  - destruct (truthy (lookup "alias" props)); simpl;
      do 2 eexists; (split; [reflexivity |]);
      (split; [discriminate |]); (split; [| reflexivity]);
      intros token Hin; simpl in Hin;
      repeat (destruct Hin as [<- | Hin]; [do 2 eexists; reflexivity |]);
      contradiction.
  - destruct (lookup "name" props); simpl;
      do 2 eexists; (split; [reflexivity |]);
      (split; [discriminate |]); (split; [| congruence]);
      intros token Hin; simpl in Hin;
      repeat (destruct Hin as [<- | Hin]; [do 2 eexists; reflexivity |]);
      contradiction.
  - do 2 eexists; (split; [reflexivity |]);
      (split; [discriminate |]); (split; [| reflexivity]);
      intros token Hin; simpl in Hin;
      repeat (destruct Hin as [<- | Hin]; [do 2 eexists; reflexivity |]);
      contradiction.
  - do 2 eexists; (split; [reflexivity |]);
      (split; [discriminate |]); (split; [| reflexivity]);
      intros token Hin; simpl in Hin;
      repeat (destruct Hin as [<- | Hin]; [do 2 eexists; reflexivity |]);
      contradiction.
Qed.

(** X10: how an operation is named.  The class-name token of an
    [OperationDefinition] shows the node's [name], or ["AnonymousQuery"]
    when the name is falsy ([undefined], [null], the empty string); the
    [representativeName] becomes ["AnonymousQuery"] only when the name is
    exactly [null], and is the [name] as it is otherwise: for a node with
    [name: undefined] the token reads ["AnonymousQuery"] and the
    [representativeName] stays [undefined]. *)
Theorem operation_naming (docText : string) (props : list (string * JsValue)) :
  lookup "kind" props = JsString "OperationDefinition" ->
  nullish (lookup "loc" props) = false ->
  let name := lookup "name" props in
  exists positionsAndChildren,
    leave offsetToPoint docText (JsObject props)
    = inr (JsObject
             (("tokenizedText",
               JsArray
                 [ buildToken "keyword" (lookup "operation" props);
                   buildToken "whitespace" (JsString " ");
                   buildToken "class-name"
                     (if truthy name then name else JsString "AnonymousQuery") ])
              :: ("representativeName",
                  match name with
                  | JsNull => JsString "AnonymousQuery"
                  | _ => name
                  end)
              :: positionsAndChildren)).
Proof.
  intros Hk Hloc; simpl.
  unfold leave; cbn [getProp bindR]; rewrite Hk.
  cbn -[meta truthy]; rewrite (meta_eq docText props Hloc).
  destruct (lookup "name" props); cbn -[truthy]; eexists; reflexivity.
Qed.

(** X11: the [SelectionSet] converter flattens: over selections none of
    which is [undefined] or [null], it returns the selections in order,
    with an unconverted [InlineFragment] node replaced by its
    [selectionSet], and with every array among them (a converted inline
    fragment) replaced by its elements.  Selections that are neither are
    returned as they are, and a selection that is [undefined] or [null]
    makes it throw a [TypeError]. *)
Theorem selection_set_flattens (docText : string)
  (props : list (string * JsValue)) (items : list JsValue) :
  lookup "kind" props = JsString "SelectionSet" ->
  (forall item, In item items -> nullish item = false) ->
  (lookup "selections" props = JsArray items ->
   leave offsetToPoint docText (JsObject props)
   = inr (JsArray (flat_map (fun child => spread (selected child)) items)))
  /\ (forall missing after,
        nullish missing = true ->
        lookup "selections" props = JsArray (items ++ missing :: after) ->
        leave offsetToPoint docText (JsObject props) = inl TypeError)
  /\ ((forall item, In item items ->
         spread item = [item] /\ field item "kind" <> JsString INLINE_FRAGMENT) ->
      flat_map (fun child => spread (selected child)) items = items).
Proof.
  intros Hk Hitems.
  assert (F : forall item, In item items ->
              (let* kind := getProp item "kind" in
               if strictEqString kind INLINE_FRAGMENT
               then getProp item "selectionSet"
               else inr item) = inr (selected item)).
  { intros item Hin; specialize (Hitems item Hin).
    rewrite !(getProp_returns _ _ Hitems); unfold selected; simpl.
    destruct (strictEqString (field item "kind") INLINE_FRAGMENT);
      reflexivity. }
  split; [| split].
  - intros Hsel.
    unfold leave; cbn [getProp bindR]; rewrite Hk; cbn -[concatMap].
    rewrite Hsel; unfold concatMap; cbn [elements bindR].
    rewrite (concatMapLoop_flat_map _ selected items [] F); reflexivity.
  - intros missing after Hm Hsel.
    unfold leave; cbn [getProp bindR]; rewrite Hk; cbn -[concatMap].
    rewrite Hsel; unfold concatMap; cbn [elements bindR].
    rewrite (concatMapLoop_throws _ selected items after [] missing TypeError F);
      [reflexivity |].
    destruct missing; try discriminate Hm; reflexivity.
  - intros Hplain.
    induction items as [| item items IH]; simpl; [reflexivity |].
    destruct (Hplain item (or_introl eq_refl)) as [Hs Hkind].
    unfold selected at 1.
    rewrite (strictEqString_false _ _ Hkind), Hs; simpl.
    f_equal; apply IH.
    + intros i Hi; apply Hitems; right; exact Hi.
    + intros i Hi; apply F; right; exact Hi.
    + intros i Hi; apply Hplain; right; exact Hi.
Qed.

End OutlineExtras.

(** ** Properties of the Tizen device bridge *)

Section RegexFacts.

Import Sdb.

Lemma lacks_app (p : ascii -> bool) (u t : string) :
  lacks p (u ++ t) = lacks p u && lacks p t.
Proof.
  induction u as [| c u IH]; simpl; [reflexivity |].
  rewrite IH, andb_assoc; reflexivity.
Qed.

Lemma append_assoc (a b c : string) : ((a ++ b) ++ c = a ++ (b ++ c))%string.
Proof. induction a as [| x a IH]; simpl; [| rewrite IH]; reflexivity. Qed.

Lemma append_nil_r (a : string) : (a ++ "" = a)%string.
Proof. induction a as [| x a IH]; simpl; [| rewrite IH]; reflexivity. Qed.

(** A literal fails on a string that starts with another code unit. *)
Lemma matchAtoms_Lit_other (x c : ascii) (rest : list Atom) (t : string) :
  Ascii.eqb c x = false -> matchAtoms (Lit x :: rest) (String c t) = None.
Proof. intros E; simpl; rewrite E; reflexivity. Qed.

(** Greedy: if the continuation matches behind [u ++ w], the star does not
    stop before. *)
Lemma star_prefix {C} (k : string -> option C) (u t w : string) (r : C) :
  lacks isLineTerminator u = true ->
  star k t = Some (w, r) ->
  star k (u ++ t) = Some ((u ++ w)%string, r).
Proof.
  induction u as [| c u IH]; simpl; intros Hu Ht; [exact Ht |].
  apply andb_prop in Hu; destruct Hu as [Hc Hu].
  apply negb_true_iff in Hc; rewrite Hc, (IH Hu Ht); reflexivity.
Qed.

(** A continuation that starts with the literal [x] is not found in a
    string without [x]. *)
Lemma star_skips (x : ascii) (rest : list Atom) (u t : string) :
  lacks (fun c => Ascii.eqb c x) u = true ->
  star (matchAtoms (Lit x :: rest)) t = None ->
  star (matchAtoms (Lit x :: rest)) (u ++ t) = None.
Proof.
  induction u as [| c u IH]; intros Hu Ht; [exact Ht |].
  simpl in Hu; apply andb_prop in Hu; destruct Hu as [Hc Hu].
  apply negb_true_iff in Hc.
  change (String c u ++ t)%string with (String c (u ++ t)%string).
  cbn [star]; rewrite (IH Hu Ht), (matchAtoms_Lit_other x c rest _ Hc).
  destruct (isLineTerminator c); reflexivity.
Qed.

Lemma star_none_without (x : ascii) (rest : list Atom) (t : string) :
  lacks (fun c => Ascii.eqb c x) t = true ->
  star (matchAtoms (Lit x :: rest)) t = None.
Proof.
  intros Ht; rewrite <- (append_nil_r t).
  apply star_skips; [exact Ht | reflexivity].
Qed.

(** When the rest does not match behind a longer run, the star stops
    here. *)
Lemma star_here {C} (k : string -> option C) (c : ascii) (t : string) (r : C) :
  star k t = None -> k (String c t) = Some r ->
  star k (String c t) = Some (""%string, r).
Proof.
  intros Ht Hk; cbn [star]; rewrite Ht, Hk.
  destruct (isLineTerminator c); reflexivity.
Qed.

Lemma star_here_none {C} (k : string -> option C) (c : ascii) (t : string) :
  star k t = None -> k (String c t) = None -> star k (String c t) = None.
Proof.
  intros Ht Hk; cbn [star]; rewrite Ht, Hk.
  destruct (isLineTerminator c); reflexivity.
Qed.

(** The last literal is found behind any run without line terminator. *)
Lemma star_last_literal (x : ascii) (u t : string) :
  lacks isLineTerminator u = true ->
  exists run, star (matchAtoms [Lit x]) (u ++ String x t) = Some (run, []).
Proof.
  intros Hu.
  assert (E : exists run, star (matchAtoms [Lit x]) (String x t) = Some (run, [])).
  { cbn [star].
    assert (K : matchAtoms [Lit x] (String x t) = Some [])
      by (simpl; rewrite Ascii.eqb_refl; reflexivity).
    assert (R : forall t', exists run,
                  match star (matchAtoms [Lit x]) t' with
                  | Some (w, r) => Some (String x w, r)
                  | None => option_map (pair ""%string) (Some [])
                  end = Some (run, @nil string)).
    { intros t'.
      assert (G : forall t'' w r,
                 star (matchAtoms [Lit x]) t'' = Some (w, r) -> r = []).
      { induction t'' as [| c t'' IH]; cbn [star]; intros w r.
        - simpl; discriminate.
        - destruct (isLineTerminator c).
          + simpl; destruct (Ascii.eqb c x); simpl; [| discriminate].
            intros E; inversion E; reflexivity.
          + destruct (star (matchAtoms [Lit x]) t'') as [[w' r'] |] eqn:S'.
            * intros E; inversion E; subst; eapply IH; reflexivity.
            * simpl; destruct (Ascii.eqb c x); simpl; [| discriminate].
              intros E; inversion E; reflexivity. }
      destruct (star (matchAtoms [Lit x]) t') as [[w r] |] eqn:S'.
      - rewrite (G t' w r S'); eauto.
      - simpl; eauto. }
    rewrite K; destruct (R t) as [run Hrun].
    destruct (isLineTerminator x); simpl; eauto. }
  destruct E as [run E]; eexists; apply star_prefix; eassumption.
Qed.

Lemma matchAtoms_Lit (x c : ascii) (rest : list Atom) (t : string) :
  matchAtoms (Lit x :: rest) (String c t)
  = if Ascii.eqb c x then matchAtoms rest t else None.
Proof. reflexivity. Qed.

Lemma matchAtoms_Lit_same (x : ascii) (rest : list Atom) (t : string) :
  matchAtoms (Lit x :: rest) (String x t) = matchAtoms rest t.
Proof. rewrite matchAtoms_Lit, Ascii.eqb_refl; reflexivity. Qed.

Lemma matchAtoms_Group (rest : list Atom) (t : string) :
  matchAtoms (GroupAnyStar :: rest) t
  = match star (matchAtoms rest) t with
    | Some (run, groups) => Some (run :: groups)
    | None => None
    end.
Proof. reflexivity. Qed.

Lemma matchAtoms_Any (rest : list Atom) (t : string) :
  matchAtoms (AnyStar :: rest) t = option_map snd (star (matchAtoms rest) t).
Proof. reflexivity. Qed.

(** Behind the first [>], nothing matches in a string without [<]. *)
Lemma star_value_none (rest : list Atom) (t : string) :
  lacks isLt t = true ->
  star (matchAtoms (Lit ">" :: GroupAnyStar :: Lit "<" :: rest)) t = None.
Proof.
  induction t as [| c t IH]; intros Ht; [reflexivity |].
  simpl in Ht; apply andb_prop in Ht; destruct Ht as [_ Ht].
  apply star_here_none; [apply IH, Ht |].
  rewrite matchAtoms_Lit; destruct (Ascii.eqb c ">"); [| reflexivity].
  rewrite matchAtoms_Group, (star_none_without "<" rest t); [reflexivity |].
  exact Ht.
Qed.

(** The regular expression on an element: the group is the text between
    the tags. *)
Lemma matchAtoms_element (pre open value close post : string) :
  lacks isLineTerminator pre = true ->
  lacks isLineTerminator open = true -> lacks isLt open = true ->
  lacks isLineTerminator value = true -> lacks isLt value = true ->
  lacks isGt value = true ->
  lacks isLineTerminator close = true -> lacks isLt close = true ->
  lacks isGt close = true ->
  lacks isLt post = true ->
  matchAtoms regex (element pre open value close post) = Some [value].
Proof.
  intros Hpre Hopen1 Hopen2 Hv1 Hv2 Hv3 Hc1 Hc2 Hc3 Hpost.
  unfold element, regex.
  set (A6 := [AnyStar; Lit ">"]).
  set (A5 := Lit "<" :: A6).
  set (A3 := Lit ">" :: GroupAnyStar :: A5).
  set (A1 := Lit "<" :: AnyStar :: A3).
  set (tail := (close ++ String ">" post)%string).
  change (pre ++ "<" ++ open ++ ">" ++ value ++ "<" ++ close ++ ">" ++ post)%string
    with (pre ++ String "<" (open ++ String ">" (value ++ String "<" tail)))%string.
  (* the closing tag *)
  assert (M6 : matchAtoms A6 tail = Some []).
  { unfold A6, tail; rewrite matchAtoms_Any.
    destruct (star_last_literal ">" close post Hc1) as [run ->]; reflexivity. }
  assert (M5 : matchAtoms A5 (String "<" tail) = Some [])
    by (unfold A5; rewrite matchAtoms_Lit_same; exact M6).
  assert (Ltail : lacks isLt tail = true).
  { unfold tail; rewrite lacks_app, Hc2; simpl; exact Hpost. }
  (* the group *)
  assert (S5 : star (matchAtoms A5) (value ++ String "<" tail)
               = Some (value, [])).
  { rewrite <- (append_nil_r value) at 2.
    apply star_prefix; [exact Hv1 |].
    apply star_here; [| exact M5].
    apply star_none_without; exact Ltail. }
  assert (M3 : matchAtoms A3 (String ">" (value ++ String "<" tail))
               = Some [value])
    by (unfold A3; rewrite matchAtoms_Lit_same, matchAtoms_Group, S5;
        reflexivity).
  (* the opening tag *)
  assert (S3 : star (matchAtoms A3) (value ++ String "<" tail) = None).
  { replace (value ++ String "<" tail)%string
      with ((value ++ String "<" close) ++ String ">" post)%string
      by (unfold tail; rewrite append_assoc; reflexivity).
    apply star_skips.
    - change (lacks isGt (value ++ String "<" close) = true).
      rewrite lacks_app, Hv3; simpl; exact Hc3.
    - unfold A3, A5.
      apply star_here_none; [apply star_value_none, Hpost |].
      rewrite matchAtoms_Lit_same, matchAtoms_Group.
      rewrite (star_none_without "<" A6 post); [reflexivity | exact Hpost]. }
  assert (M1 : matchAtoms A1 (String "<" (open ++ String ">" (value ++ String "<" tail)))
               = Some [value]).
  { unfold A1; rewrite matchAtoms_Lit_same, matchAtoms_Any.
    rewrite (star_prefix (matchAtoms A3) open
               (String ">" (value ++ String "<" tail)) "" [value] Hopen1);
      [reflexivity |].
    apply star_here; [exact S3 | exact M3]. }
  (* nothing matches further right *)
  assert (S1 : star (matchAtoms A1) (open ++ String ">" (value ++ String "<" tail))
               = None).
  { replace (open ++ String ">" (value ++ String "<" tail))%string
      with ((open ++ String ">" value) ++ String "<" tail)%string
      by (rewrite append_assoc; reflexivity).
    apply star_skips.
    - change (lacks isLt (open ++ String ">" value) = true).
      rewrite lacks_app, Hopen2; simpl; exact Hv2.
    - unfold A1, A3, A5.
      apply star_here_none; [apply star_none_without; exact Ltail |].
      rewrite matchAtoms_Lit_same, matchAtoms_Any.
      rewrite (star_value_none A6 tail Ltail); reflexivity. }
  rewrite matchAtoms_Any.
  rewrite (star_prefix _ pre
             (String "<" (open ++ String ">" (value ++ String "<" tail)))
             "" [value] Hpre); [reflexivity |].
  apply star_here; [exact S1 | exact M1].
Qed.

Lemma exec_element (pre open value close post : string) :
  lacks isLineTerminator pre = true ->
  lacks isLineTerminator open = true -> lacks isLt open = true ->
  lacks isLineTerminator value = true -> lacks isLt value = true ->
  lacks isGt value = true ->
  lacks isLineTerminator close = true -> lacks isLt close = true ->
  lacks isGt close = true ->
  lacks isLt post = true ->
  exec regex (element pre open value close post) = Some [value].
Proof.
  intros; destruct (element pre open value close post) eqn:E;
    cbn [exec]; rewrite <- E, matchAtoms_element by assumption; reflexivity.
Qed.

(** Without a [<] there is no match. *)
Lemma exec_none (t : string) : lacks isLt t = true -> exec regex t = None.
Proof.
  induction t as [| c t IH]; intros Ht.
  - reflexivity.
  - cbn [exec].
    assert (M : matchAtoms regex (String c t) = None).
    { unfold regex; rewrite matchAtoms_Any.
      rewrite (star_none_without "<" _ (String c t)); [reflexivity | exact Ht]. }
    rewrite M; apply IH.
    simpl in Ht; apply andb_prop in Ht; tauto.
Qed.

End RegexFacts.

Section SdbExtras.

Import Sdb.

Variable World : Type.
Variable runShortCommand : string -> list string -> Eff World string.

Local Abbreviation cat := ["shell"; "cat"; "/etc/config/model-config.xml"].

Lemma filter_first {A} (f : A -> bool) (before after : list A) (x : A) :
  (forall y, In y before -> f y = false) -> f x = true ->
  filter f (before ++ x :: after) = x :: filter f after.
Proof.
  induction before as [| b before IH]; simpl; intros Hb Hx.
  - rewrite Hx; reflexivity.
  - rewrite (Hb b (or_introl eq_refl)); apply IH; auto.
Qed.

Lemma filter_none {A} (f : A -> bool) (l : list A) :
  (forall y, In y l -> f y = false) -> filter f l = [].
Proof.
  induction l as [| b l IH]; simpl; intros Hb; [reflexivity |].
  rewrite (Hb b (or_introl eq_refl)); apply IH; auto.
Qed.

Lemma tagged_exec (pre open value close post : string) :
  tagged pre open value close post = true ->
  exec regex (element pre open value close post) = Some [value].
Proof.
  unfold tagged; intros T.
  repeat match goal with
         | H : _ && _ = true |- _ => apply andb_prop in H; destruct H
         end.
  apply exec_element; assumption.
Qed.


(** X13: [getTizenModelConfigKey] rejects with a [TypeError], and resolves
    to nothing, when no line of the output contains the key, and when the
    first line that contains it holds no [<]; a failure of the command is
    passed on as it is. *)
Theorem config_key_missing (device key stdout : string) (s s' : World) :
  (runShortCommand device cat s = Normal stdout s' ->
   noLineWith key stdout ->
   getTizenModelConfigKey World runShortCommand device key s
   = Abrupt TypeError s')
  /\ (forall before line after,
        runShortCommand device cat s = Normal stdout s' ->
        splitNewlines stdout = before ++ line :: after ->
        (forall l, In l before -> includes key l = false) ->
        includes key line = true ->
        lacks isLt line = true ->
        getTizenModelConfigKey World runShortCommand device key s
        = Abrupt TypeError s')
  /\ (forall e,
        runShortCommand device cat s = Abrupt e s' ->
        getTizenModelConfigKey World runShortCommand device key s
        = Abrupt e s').
Proof.
  unfold getTizenModelConfigKey; split; [| split].
  - intros Hrun Hno.
    erewrite bind_normal by exact Hrun.
    rewrite (filter_none _ _ Hno); reflexivity.
  - intros before line after Hrun Hs Hb Hk Hl.
    erewrite bind_normal by exact Hrun.
    rewrite Hs, (filter_first _ before after _ Hb Hk), (exec_none _ Hl).
    reflexivity.
  - intros e Hrun; erewrite bind_abrupt by exact Hrun; reflexivity.
Qed.

(** X14: [getAPIVersion] prefers the core API version and falls back to
    the native one.  On a device whose [model-config.xml] reads the same
    each time: if the file has the core key, its value is the answer; if
    no line has the core key, the value of the native key is; if no line
    has either, the promise rejects with the [TypeError] of the second
    lookup. *)
Theorem api_version_falls_back (device stdout : string) (s : World) :
  (forall s0, runShortCommand device cat s0 = Normal stdout s0) ->
  let core := "tizen.org/feature/platform.core.api.version" in
  let native := "tizen.org/feature/platform.native.api.version" in
  (forall version,
      firstLineWith core stdout version ->
      getAPIVersion World runShortCommand device s = Normal version s)
  /\ (forall version,
        noLineWith core stdout -> firstLineWith native stdout version ->
        getAPIVersion World runShortCommand device s = Normal version s)
  /\ (noLineWith core stdout -> noLineWith native stdout ->
      getAPIVersion World runShortCommand device s = Abrupt TypeError s).
Proof.
  intros Hrun; simpl.
  assert (Found : forall key version,
             firstLineWith key stdout version ->
             getTizenModelConfigKey World runShortCommand device key s
             = Normal version s).
  { intros key version
      (before & after & pre & open & close & post & Hs & Hb & Hk & T).
    unfold getTizenModelConfigKey.
    erewrite bind_normal by apply Hrun.
    rewrite Hs, (filter_first _ before after _ Hb Hk),
      (tagged_exec _ _ _ _ _ T).
    reflexivity. }
  assert (Absent : forall key,
             noLineWith key stdout ->
             getTizenModelConfigKey World runShortCommand device key s
             = Abrupt TypeError s).
  { intros key Hno; unfold getTizenModelConfigKey.
    erewrite bind_normal by apply Hrun.
    rewrite (filter_none _ _ Hno); reflexivity. }
  unfold getAPIVersion, tryCatch; split; [| split].
  - intros version Hcore; rewrite (Found _ _ Hcore); reflexivity.
  - intros version Hno Hnative; rewrite (Absent _ Hno); apply Found, Hnative.
  - intros Hno1 Hno2; rewrite (Absent _ Hno1); apply Absent, Hno2.
Qed.

Lemma splitLoop_line (inRun : bool) (cur line t : string) :
  lacks isNewline line = true -> line <> "" ->
  splitLoop inRun cur (line ++ t) = splitLoop false (cur ++ line) t.
Proof.
  revert inRun cur; induction line as [| c line IH]; intros inRun cur Hl Hne;
    [contradiction |].
  simpl in Hl; apply andb_prop in Hl; destruct Hl as [Hc Hl].
  apply negb_true_iff in Hc.
  change (String c line ++ t)%string with (String c (line ++ t)%string).
  cbn [splitLoop]; rewrite Hc.
  destruct line as [| d line].
  - simpl; reflexivity.
  - rewrite IH by (try assumption; discriminate).
    rewrite append_assoc; reflexivity.
Qed.

Lemma splitLoop_join (inRun : bool) (lines : list string) :
  lines <> [] ->
  (forall line, In line lines -> lacks isNewline line = true /\ line <> "") ->
  splitLoop inRun "" (joinLines lines) = lines.
Proof.
  revert inRun; induction lines as [| line lines IH]; intros inRun Hne Hl;
    [contradiction |].
  destruct (Hl line (or_introl eq_refl)) as [Hn He].
  destruct lines as [| next lines].
  - simpl; rewrite <- (append_nil_r line) at 1.
    rewrite splitLoop_line by assumption; reflexivity.
  - change (joinLines (line :: next :: lines))
      with (line ++ String "010" (joinLines (next :: lines)))%string.
    rewrite splitLoop_line by assumption.
    cbn [splitLoop]; simpl isNewline; cbv iota.
    rewrite IH; [reflexivity | discriminate |].
    intros l Hin; apply Hl; right; exact Hin.
Qed.

(** X15: the lines [getTizenModelConfigKey] looks through are the lines
    of the output: for lines that are not empty and hold no newline,
    splitting what they give when joined by newlines gives them back, in
    order.  An output that ends in a newline has one more, empty, piece,
    and a run of newlines separates like a single one. *)
Theorem splitNewlines_lines (lines : list string) :
  lines <> [] ->
  (forall line, In line lines -> lacks isNewline line = true /\ line <> "") ->
  splitNewlines (joinLines lines) = lines
  /\ splitNewlines (joinLines lines ++ String "010" "") = lines ++ [""]
  /\ (forall more,
        more <> [] ->
        (forall line, In line more -> lacks isNewline line = true /\ line <> "") ->
        splitNewlines
          (joinLines lines ++ String "010" (String "010" (joinLines more)))
        = lines ++ more).
Proof.
  intros Hne Hl.
  assert (G : forall t inRun,
             splitLoop inRun "" (joinLines lines ++ String "010" t)
             = lines ++ splitLoop true "" t).
  { revert Hne Hl.
    induction lines as [| line rest IH]; intros Hne Hl t inRun;
      [contradiction |].
    destruct (Hl line (or_introl eq_refl)) as [Hn He].
    destruct rest as [| next rest].
    - simpl joinLines; rewrite splitLoop_line by assumption.
      cbn [splitLoop]; simpl isNewline; cbv iota; reflexivity.
    - change (joinLines (line :: next :: rest))
        with (line ++ String "010" (joinLines (next :: rest)))%string.
      rewrite append_assoc, splitLoop_line by assumption.
      change (String "010" (joinLines (next :: rest)) ++ String "010" t)%string
        with (String "010" (joinLines (next :: rest) ++ String "010" t)%string).
      cbn [splitLoop]; simpl isNewline; cbv iota.
      rewrite IH; [reflexivity | discriminate |].
      intros l Hin; apply Hl; right; exact Hin. }
  split; [apply splitLoop_join; assumption | split].
  - unfold splitNewlines; rewrite G; reflexivity.
  - intros more Hm Hml.
    unfold splitNewlines; rewrite G.
    cbn [splitLoop]; simpl isNewline; cbv iota.
    rewrite splitLoop_join by assumption; reflexivity.
Qed.

End SdbExtras.

(** ** Properties of the webview of the Bridge *)

Section LifecycleExtras.

Import Lifecycle.

Lemma nth_error_setSrc (nodes : list WebviewNode) (n : nat) (url : string)
  (node : WebviewNode) :
  nth_error nodes n = Some node ->
  option_map src (nth_error (setSrc n url nodes) n) = Some url.
Proof.
  revert n; induction nodes as [| x nodes IH]; intros [| n]; simpl;
    try discriminate; [reflexivity | apply IH].
Qed.

Lemma length_setSrc (nodes : list WebviewNode) (n : nat) (url : string) :
  List.length (setSrc n url nodes) = List.length nodes.
Proof.
  revert n; induction nodes as [| x nodes IH]; intros [| n]; simpl;
    try reflexivity; rewrite IH; reflexivity.
Qed.

Lemma removeFirst_single (n : nat) : removeFirst n [n] = [].
Proof. simpl; rewrite Nat.eqb_refl; reflexivity. Qed.

(** What [renderChromeWebview] does between two calls. *)
Lemma renderChromeWebview_consistent (url : string) (p : Page) :
  consistent p ->
  exists webview,
    renderChromeWebview url p = Normal tt (stateOf (renderChromeWebview url p))
    /\ attachedTo (stateOf (renderChromeWebview url p)) webview url
    /\ (forall current, _webview p = Some current ->
          webview = current
          /\ List.length (nodes (stateOf (renderChromeWebview url p)))
             = List.length (nodes p))
    /\ (_webview p = None ->
          webview = List.length (nodes p)
          /\ nth_error (nodes (stateOf (renderChromeWebview url p))) webview
             = Some {| src := url; nodeintegration := true;
                       disablewebsecurity := true;
                       classList := ["native-key-bindings";
                                     "nuclide-debugger-webview"] |}).
Proof.
  intros [D | [w [u A]]].
  - destruct D as (W & C & U & B & I).
    exists (List.length (nodes p)).
    unfold renderChromeWebview, _setWebviewElement, bind, get, modify, ret.
    rewrite W; simpl; rewrite C; simpl.
    split; [reflexivity |].
    split; [| split; [intros c Hc; discriminate Hc |]].
    + unfold attachedTo, srcOf; simpl.
      rewrite B, I, nth_error_app2, Nat.sub_diag by apply Nat.le_refl.
      repeat split.
    + intros _; split; [reflexivity |].
      rewrite nth_error_app2, Nat.sub_diag by apply Nat.le_refl; reflexivity.
  - destruct A as (W & C & U & S & B & I & Ch).
    exists w.
    unfold renderChromeWebview, bind, get, modify, ret.
    rewrite W, U; simpl.
    destruct (String.eqb_spec url u) as [-> | Hne]; simpl.
    + split; [reflexivity |].
      split; [| split; [intros c Hc; split; [congruence | reflexivity] |
                        intros Hn; congruence]].
      unfold attachedTo, srcOf in *; simpl; repeat split; assumption.
    + split; [reflexivity |].
      split; [| split; [intros c Hc; split; [congruence | apply length_setSrc] |
                        intros Hn; congruence]].
      unfold attachedTo, srcOf in *; simpl; repeat split; try assumption.
      destruct (nth_error (nodes p) w) as [node |] eqn:N; [| discriminate S].
      apply (nth_error_setSrc _ _ _ node N).
Qed.

Lemma cleanup_consistent (p : Page) :
  consistent p ->
  cleanup p = Normal tt (stateOf (cleanup p))
  /\ detached (stateOf (cleanup p))
  /\ chromeChannel (stateOf (cleanup p)) = chromeChannel p
  /\ userChangeSubscribed (stateOf (cleanup p)) = userChangeSubscribed p
  /\ nodes (stateOf (cleanup p)) = nodes p.
Proof.
  intros [D | [w [u A]]].
  - destruct D as (W & C & U & B & I).
    unfold cleanup, bind, get, ret; rewrite C; simpl.
    repeat split; assumption.
  - destruct A as (W & C & U & S & B & I & Ch).
    unfold cleanup, bind, get, modify; rewrite C; simpl.
    rewrite B, I, removeFirst_single; repeat split.
Qed.

Lemma runCall_consistent (c : Call) (p : Page) :
  consistent p ->
  consistent (stateOf (runCall c p)) /\ isAbrupt (runCall c p) = false.
Proof.
  intros Hp; destruct c as [url | |]; simpl.
  - destruct (renderChromeWebview_consistent url p Hp) as [w [E [A _]]].
    split; [right; eauto | rewrite E; reflexivity].
  - destruct (cleanup_consistent p Hp) as [E [D _]].
    split; [left; exact D | rewrite E; reflexivity].
  - destruct (cleanup_consistent p Hp) as [E [D _]].
    unfold dispose, bind; rewrite E; simpl.
    split; [left; exact D | reflexivity].
Qed.

Lemma after_consistent (calls : list Call) :
  consistent (after calls constructed).
Proof.
  assert (G : forall p, consistent p -> consistent (after calls p)).
  { induction calls as [| c calls IH]; intros p Hp; [exact Hp |].
    apply IH, runCall_consistent, Hp. }
  apply G; left; repeat split.
Qed.

(** X16: through [renderChromeWebview], [cleanup] and [dispose], in any
    order and number, the Bridge has at most one webview, and it is in one
    piece: either there is none (no child given to the body, no
    subscription, [_webview], [_webviewUrl] and [_cleanupDisposables]
    [null]), or [_webview] is the only child it gave the body, the only
    [ipc-message] subscription, the one the clean-up will undo, the one
    the dispatcher sends to, and its [src] is [_webviewUrl].  None of these
    calls throws: the [invariant] in [_setWebviewElement] never fails. *)
Theorem webview_stays_consistent (calls : list Call) (next : Call) :
  consistent (after calls constructed)
  /\ isAbrupt (runCall next (after calls constructed)) = false.
Proof.
  split; [| apply runCall_consistent]; apply after_consistent.
Qed.

(** X17: [renderChromeWebview(url)] reuses the webview it has: after any
    history of calls, it leaves the Bridge attached to a webview whose
    [src] is [url].  If a webview was attached, it is the same element and
    no element is created; if none was, the element is new, with [src],
    [nodeintegration], [disablewebsecurity] and the two classes set, and is
    appended to the body. *)
Theorem renderChromeWebview_reuses (calls : list Call) (url : string) :
  let p := after calls constructed in
  let p' := stateOf (renderChromeWebview url p) in
  exists webview,
    attachedTo p' webview url
    /\ (forall current, _webview p = Some current ->
          webview = current
          /\ List.length (nodes p') = List.length (nodes p))
    /\ (_webview p = None ->
          webview = List.length (nodes p)
          /\ nth_error (nodes p') webview
             = Some {| src := url; nodeintegration := true;
                       disablewebsecurity := true;
                       classList := ["native-key-bindings";
                                     "nuclide-debugger-webview"] |}).
Proof.
  simpl.
  destruct (renderChromeWebview_consistent url _ (after_consistent calls))
    as [w [_ R]].
  exists w; exact R.
Qed.

(** X18: [cleanup] undoes the attachment and nothing else: after any
    history of calls it removes the webview from the body, ends the
    [ipc-message] subscription and clears [_webview], [_webviewUrl] and
    [_cleanupDisposables]; it does not call the dispatcher, whose chrome
    channel stays on the removed webview, and keeps the subscription of the
    constructor.  A second [cleanup] changes nothing.  [dispose] does the
    same and ends the subscription of the constructor, and a second
    [dispose] changes nothing. *)
Theorem cleanup_detaches (calls : list Call) :
  let p := after calls constructed in
  let cleaned := stateOf (cleanup p) in
  let disposed := stateOf (dispose p) in
  detached cleaned
  /\ chromeChannel cleaned = chromeChannel p
  /\ userChangeSubscribed cleaned = userChangeSubscribed p
  /\ cleanup cleaned = Normal tt cleaned
  /\ detached disposed
  /\ userChangeSubscribed disposed = false
  /\ chromeChannel disposed = chromeChannel p
  /\ dispose disposed = Normal tt disposed.
Proof.
  cbv zeta.
  destruct (cleanup_consistent _ (after_consistent calls))
    as (E & D & Ch & Us & _).
  assert (I : forall q, detached q -> cleanup q = Normal tt q).
  { intros q (_ & C & _); unfold cleanup, bind, get, ret; rewrite C; reflexivity. }
  unfold dispose, bind; rewrite E; simpl.
  split; [exact D |].
  split; [exact Ch |].
  split; [exact Us |].
  split; [apply I, D |].
  split; [exact D |].
  split; [reflexivity |].
  split; [exact Ch |].
  unfold modify.
  match goal with
  | |- match cleanup ?q with _ => _ end = _ =>
      assert (Dq : detached q) by exact D; rewrite (I q Dq)
  end.
  reflexivity.
Qed.

(** X19: [_setWebviewElement] checks too late.  Called on a Bridge that is
    attached, it throws the [invariant], but by then [_webview] and the
    chrome channel of the dispatcher are the new webview, while the
    [ipc-message] subscription and [_cleanupDisposables] are still those of
    the old one: a [cleanup] after it removes the old webview and leaves
    the dispatcher on the new one.  Called on a Bridge without webview it
    returns, subscribed to the new webview, which it does not put into the
    body and whose URL it does not record. *)
Theorem setWebviewElement_checks_late (calls : list Call) (url : string)
  (webview : nat) :
  let attached := stateOf (renderChromeWebview url (after calls constructed)) in
  let detached := stateOf (cleanup (after calls constructed)) in
  let failed := stateOf (_setWebviewElement webview attached) in
  let fresh := stateOf (_setWebviewElement webview detached) in
  (exists old,
      _webview attached = Some old
      /\ _setWebviewElement webview attached = Abrupt AssertionError failed
      /\ _webview failed = Some webview
      /\ chromeChannel failed = Some webview
      /\ _cleanupDisposables failed = Some old
      /\ ipcSubscriptions failed = [old]
      /\ body failed = [old]
      /\ body (stateOf (cleanup failed)) = []
      /\ _webview (stateOf (cleanup failed)) = None
      /\ chromeChannel (stateOf (cleanup failed)) = Some webview)
  /\ _setWebviewElement webview detached = Normal tt fresh
  /\ _webview fresh = Some webview
  /\ _cleanupDisposables fresh = Some webview
  /\ ipcSubscriptions fresh = [webview]
  /\ body fresh = []
  /\ _webviewUrl fresh = None.
Proof.
  cbv zeta; split.
  - destruct (renderChromeWebview_consistent url _ (after_consistent calls))
      as [old [_ [A _]]].
    revert A.
    generalize (stateOf (renderChromeWebview url (after calls constructed))).
    intros q (W & C & U & S & B & I & Ch).
    exists old.
    unfold _setWebviewElement, cleanup, bind, get, modify; simpl.
    rewrite ?C; simpl; rewrite ?C, ?B, ?I; simpl.
    rewrite ?Nat.eqb_refl; repeat split; assumption.
  - destruct (cleanup_consistent _ (after_consistent calls))
      as (_ & D & _).
    revert D.
    generalize (stateOf (cleanup (after calls constructed))).
    intros q (W & C & U & B & I).
    unfold _setWebviewElement, bind, get, modify; simpl.
    rewrite ?C; simpl; rewrite ?I, ?B, ?U; repeat split.
Qed.

End LifecycleExtras.

(** ** The further properties at work *)

Lemma inbound_events_send_nothing_witness :
  exists changes,
    _commandDispatcher
      (stateOf (_handleIpcMessage uriToNuclideUri nuclideUriToUri false
                  (notification "DebuggerResumed" JsUndefined) exampleBridge))
    = _commandDispatcher exampleBridge
      ++ map (userChangeCommand nuclideUriToUri) changes
    /\ ((forall c mo, emitted (perform (Model := RefModel) c mo) = []) ->
        changes = []).
Proof.
  assert (Hready : index (args (notification "DebuggerResumed" JsUndefined)) 0
                   <> JsString "ready") by discriminate.
  exact (inbound_events_send_nothing uriToNuclideUri nuclideUriToUri false
           (notification "DebuggerResumed" JsUndefined) exampleBridge Hready).
Defined.

Lemma handler_throws_exactly_when_witness :
  _handleIpcMessage uriToNuclideUri nuclideUriToUri false
    (notification "BreakpointAdded" JsUndefined) exampleBridge
  = Abrupt TypeError exampleBridge
  /\ _handleIpcMessage uriToNuclideUri nuclideUriToUri false
       (notification "BreakpointAdded" malformedBreakpoint) exampleBridge
     = Abrupt TypeError exampleBridge
  /\ isAbrupt
       (_handleIpcMessage uriToNuclideUri nuclideUriToUri false
          (notification "BreakpointAdded" remoteBreakpoint) exampleBridge)
     = false
  /\ isAbrupt
       (_handleIpcMessage uriToNuclideUri nuclideUriToUri false
          (notification "NonLoaderDebuggerPaused" JsUndefined) exampleBridge)
     = false.
Proof.
  assert (N : forall c (m : RefModel), raised (perform c m) = None)
    by (intros c m; reflexivity).
  split; [| split; [| split]].
  - exact (handler_throws_exactly_when uriToNuclideUri nuclideUriToUri
             false (notification "BreakpointAdded" JsUndefined) exampleBridge N).
  - exact (handler_throws_exactly_when uriToNuclideUri nuclideUriToUri
             false (notification "BreakpointAdded" malformedBreakpoint)
             exampleBridge N).
  - exact (handler_throws_exactly_when uriToNuclideUri nuclideUriToUri
             false (notification "BreakpointAdded" remoteBreakpoint)
             exampleBridge N).
  - exact (handler_throws_exactly_when uriToNuclideUri nuclideUriToUri
             false (notification "NonLoaderDebuggerPaused" JsUndefined)
             exampleBridge N).
Defined.

Lemma selectThread_updates_iff_numeral_witness :
  selectThread nuclideUriToUri " +x7" exampleBridge
  = Normal tt
      (afterSending exampleBridge
         [{| channel := "selectThread"; args := [JsString " +x7"] |}])
  /\ exists threadNo,
       parseInt10 " -12" = Some threadNo
       /\ modelCalls (stateOf (selectThread nuclideUriToUri " -12" exampleBridge))
          = modelCalls exampleBridge ++ [updateSelectedThread threadNo]
       /\ _commandDispatcher
            (stateOf (selectThread nuclideUriToUri " -12" exampleBridge))
          = _commandDispatcher exampleBridge
            ++ {| channel := "selectThread"; args := [JsString " -12"] |}
               :: map (userChangeCommand nuclideUriToUri)
                    (emitted (perform (updateSelectedThread threadNo)
                                (_debuggerModel exampleBridge))).
Proof.
  split.
  - exact (proj2 (proj1 (selectThread_updates_iff_numeral nuclideUriToUri " +x7"
                           exampleBridge) eq_refl)).
  - destruct (proj2 (selectThread_updates_iff_numeral nuclideUriToUri " -12"
                       exampleBridge) eq_refl) as [threadNo [P B]].
    exists threadNo; split; [exact P |].
    apply B.
    assert (E : threadNo = -12) by (vm_compute in P; congruence).
    rewrite E; reflexivity.
Defined.

Lemma selectThread_signed_id_witness :
  modelCalls (stateOf (selectThread nuclideUriToUri " -12px" exampleBridge))
  = [updateSelectedThread (-12)]
  /\ _debuggerModel (stateOf (selectThread nuclideUriToUri " -12px" exampleBridge))
     = refPerform (updateSelectedThread (-12)) exampleModel.
Proof.
  assert (Hne : "12" <> "") by discriminate.
  exact (selectThread_signed_id nuclideUriToUri " " "12" "px" true exampleBridge
           eq_refl Hne eq_refl eq_refl eq_refl).
Defined.

Lemma breakpoint_changes_echoed_witness :
  _commandDispatcher
    (stateOf (_handleIpcMessage (H := FaultyModel) uriToNuclideUri nuclideUriToUri
                false (notification "BreakpointAdded" localBreakpoint)
                faultyBridge))
  = [ {| channel := "AddBreakpoint";
         args := [ JsObject [ ("sourceURL", JsString "file:///src/a.js");
                              ("lineNumber", JsNumber 3);
                              ("condition", JsString "");
                              ("enabled", JsBool true) ] ] |} ].
Proof.
  assert (Hne : "/src/a.js" <> "") by discriminate.
  exact (proj1 (breakpoint_changes_echoed (H := FaultyModel) uriToNuclideUri
                  nuclideUriToUri false localBreakpoint "/src/a.js" faultyBridge
                  eq_refl eq_refl Hne)).
Defined.

Lemma concatMap_flattens_one_level_witness :
  Outline.concatMap
    (JsArray [JsNumber 1; JsArray [JsNumber 2; JsNumber 3]; JsArray []])
    (fun item => inr item)
  = inr (JsArray [JsNumber 1; JsNumber 2; JsNumber 3]).
Proof.
  exact (proj1 (concatMap_flattens_one_level (fun item => inr item)
                  (fun item => item)
                  [JsNumber 1; JsArray [JsNumber 2; JsNumber 3]; JsArray []]
                  (fun item _ => eq_refl))).
Defined.

Lemma outline_tables_agree_witness :
  Outline.leave Outline.toyOffsetToPoint "{ id }"
    (JsObject [("kind", JsString "Argument"); ("loc", exampleLoc)])
  = inr JsNull
  /\ Outline.OUTLINEABLE_KINDS "Name" = true.
Proof.
  split.
  - exact (proj2 (outline_tables_agree Outline.toyOffsetToPoint "{ id }"
                    "Argument"
                    [("kind", JsString "Argument"); ("loc", exampleLoc)]
                    eq_refl eq_refl)).
  - exact (proj1 (outline_tables_agree Outline.toyOffsetToPoint "{ id }"
                    "Name" [("kind", JsString "Name")] eq_refl eq_refl)).
Defined.

Lemma outline_entry_shape_witness :
  exists tokens representativeName,
    Outline.leave Outline.toyOffsetToPoint "{ me: user }"
      (JsObject exampleFieldNode)
    = inr (JsObject
             [ ("tokenizedText", JsArray tokens);
               ("representativeName", representativeName);
               ("startPosition",
                JsObject [("row", JsNumber 0); ("column", JsNumber 2)]);
               ("endPosition",
                JsObject [("row", JsNumber 0); ("column", JsNumber 9)]);
               ("children", JsArray []) ])
    /\ tokens <> []
    /\ (forall token, In token tokens ->
          exists tokenKind value, token = Outline.buildToken tokenKind value)
    /\ ("Field" <> "OperationDefinition" -> representativeName = JsString "user").
Proof.
  exact (proj1 (outline_entry_shape Outline.toyOffsetToPoint "{ me: user }"
                  "Field" exampleFieldNode eq_refl eq_refl) eq_refl).
Defined.

Lemma operation_naming_witness :
  exists positionsAndChildren,
    Outline.leave Outline.toyOffsetToPoint "{ id }"
      (JsObject exampleOperationNode)
    = inr (JsObject
             (("tokenizedText",
               JsArray
                 [ Outline.buildToken "keyword" (JsString "query");
                   Outline.buildToken "whitespace" (JsString " ");
                   Outline.buildToken "class-name" (JsString "AnonymousQuery") ])
              :: ("representativeName", JsUndefined)
              :: positionsAndChildren)).
Proof.
  exact (operation_naming Outline.toyOffsetToPoint "{ id }"
           exampleOperationNode eq_refl eq_refl).
Defined.

Lemma selection_set_flattens_witness :
  Outline.leave Outline.toyOffsetToPoint "{ a ... { b c } d }"
    (JsObject exampleSelectionSetNode)
  = inr (JsArray [ JsObject [("representativeName", JsString "a")];
                   JsObject [("representativeName", JsString "b")];
                   JsObject [("representativeName", JsString "c")];
                   JsObject [("representativeName", JsString "d")] ]).
Proof.
  assert (N : forall item, In item exampleSelections -> nullish item = false).
  { intros item Hin; simpl in Hin.
    repeat (destruct Hin as [<- | Hin]; [reflexivity |]); contradiction. }
  exact (proj1 (selection_set_flattens Outline.toyOffsetToPoint
                  "{ a ... { b c } d }" exampleSelectionSetNode
                  exampleSelections eq_refl N) eq_refl).
Defined.


Lemma exampleConfig_native :
  firstLineWith "tizen.org/feature/platform.native.api.version"
    Sdb.exampleConfig "2.4".
Proof.
  exists [ "<model-config>";
           (Sdb.keyLine "tizen.org/system/model_name" "Emulator"
            ++ String "013" "")%string ],
    [ "</model-config>" ],
    "  ",
    ("key name=" ++ Sdb.quoted "tizen.org/feature/platform.native.api.version"
     ++ " type=" ++ Sdb.quoted "string")%string,
    "/key", "".
  split; [reflexivity | split; [| split; reflexivity]].
  intros line [<- | [<- | []]]; reflexivity.
Defined.

Lemma exampleConfig_no_core :
  noLineWith "tizen.org/feature/platform.core.api.version" Sdb.exampleConfig.
Proof.
  intros line Hin; vm_compute in Hin.
  repeat (destruct Hin as [<- | Hin]; [reflexivity |]); contradiction.
Defined.


Lemma config_key_missing_witness :
  Sdb.getTizenModelConfigKey string Sdb.catConfig "emulator-26101"
    "tizen.org/feature/platform.core.api.version" Sdb.exampleConfig
  = Abrupt TypeError Sdb.exampleConfig.
Proof.
  exact (proj1 (config_key_missing string Sdb.catConfig "emulator-26101"
                  "tizen.org/feature/platform.core.api.version"
                  Sdb.exampleConfig Sdb.exampleConfig Sdb.exampleConfig)
           eq_refl exampleConfig_no_core).
Defined.

Lemma api_version_falls_back_witness :
  Sdb.getAPIVersion unit (printsConfig Sdb.exampleConfig) "emulator-26101" tt
  = Normal "2.4" tt.
Proof.
  exact (proj1 (proj2 (api_version_falls_back unit
                         (printsConfig Sdb.exampleConfig)
                         "emulator-26101" Sdb.exampleConfig tt
                         (fun s0 => eq_refl)))
           "2.4" exampleConfig_no_core exampleConfig_native).
Defined.

Lemma splitNewlines_lines_witness :
  Sdb.splitNewlines (joinLines ["<a>"; "  <b>1</b>"; "</a>"])
  = ["<a>"; "  <b>1</b>"; "</a>"].
Proof.
  assert (Hne : ["<a>"; "  <b>1</b>"; "</a>"] <> []) by discriminate.
  assert (Hl : forall line, In line ["<a>"; "  <b>1</b>"; "</a>"] ->
                            lacks Sdb.isNewline line = true /\ line <> "").
  { intros line Hin; simpl in Hin.
    repeat (destruct Hin as [<- | Hin]; [split; [reflexivity | discriminate] |]).
    contradiction. }
  exact (proj1 (splitNewlines_lines ["<a>"; "  <b>1</b>"; "</a>"] Hne Hl)).
Defined.
